(** * data_analyst_agent: the stage pipeline of [backend/agent]

    A shallow embedding of the routing logic of the agent (the nodes of
    [agent/common.py], the helpers of [agent/utils.py], the state and
    reducers of [agent/state.py], the orchestrator of [agent/entry_graph.py]
    and the stage files under [agent/steps]), with the properties that the
    specification states about them.

    Conventions.
    - A Python [str] is a [string]; a character is a code point below 256.
    - A Python [int] is a [Z].
    - The language model, the sandbox and the user are outside the program:
      what they answer is an argument of the node that asks them.
    - A node that raises returns [Raise e]; a node that returns normally
      returns [Ok v]. *)

From Stdlib Require Import List ZArith String Ascii Bool Lia DecimalString.
Import ListNotations.

#[local] Set Warnings "-register-all".
#[local] Open Scope string_scope.
#[local] Open Scope Z_scope.

(** ** Results of fallible code *)

Inductive exn : Type :=
| IndexError
| AttributeError
| ValueError (msg : string)
| Exception (msg : string).

Inductive result (A : Type) : Type :=
| Ok (a : A)
| Raise (e : exn).

Arguments Ok {A} a.
Arguments Raise {A} e.

Definition bind {A B : Type} (r : result A) (k : A -> result B) : result B :=
  match r with
  | Ok a => k a
  | Raise e => Raise e
  end.

Notation "x <- r ;; k" := (bind r (fun x => k))
  (at level 61, r at next level, right associativity).

(** ** Python strings *)

Module PyStr.

(** [len(s)] *)
Definition len (s : string) : Z := Z.of_nat (String.length s).

(** [str(n)] for an [int]. *)
Definition str_of_int (n : Z) : string := NilZero.string_of_int (Z.to_int n).

(** An index of a slice, clipped the way [s[a:b]] clips it: a negative index
    counts from the end, and both ends are clamped to [0 .. len(s)]. *)
Definition clip (n i : Z) : Z :=
  if i <? 0 then Z.max (i + n) 0 else Z.min i n.

(** [s[start:stop]]; [None] is an omitted bound. *)
Definition slice (s : string) (start stop : option Z) : string :=
  let n := len s in
  let a := match start with None => 0 | Some i => clip n i end in
  let b := match stop with None => n | Some j => clip n j end in
  substring (Z.to_nat a) (Z.to_nat (b - a)) s.

(** [c.isspace()] on the code points below 256. *)
Definition isspace (c : ascii) : bool :=
  let n := nat_of_ascii c in
  ((9 <=? n) && (n <=? 13) || (28 <=? n) && (n <=? 32)
   || (n =? 133) || (n =? 160))%nat.

Fixpoint lstrip (s : string) : string :=
  match s with
  | EmptyString => EmptyString
  | String c s' => if isspace c then lstrip s' else s
  end.

Fixpoint rev_onto (s acc : string) : string :=
  match s with
  | EmptyString => acc
  | String c s' => rev_onto s' (String c acc)
  end.

Definition rev (s : string) : string := rev_onto s EmptyString.

Definition rstrip (s : string) : string := rev (lstrip (rev s)).

(** [s.strip()] *)
Definition strip (s : string) : string := rstrip (lstrip s).

(** [c.lower()] on the code points below 256: the ASCII capitals and the
    Latin-1 capitals (all of 192..222 but the multiplication sign 215). *)
Definition lower_char (c : ascii) : ascii :=
  let n := nat_of_ascii c in
  if ((65 <=? n) && (n <=? 90)
      || (192 <=? n) && (n <=? 222) && negb (n =? 215))%nat
  then ascii_of_nat (n + 32) else c.

(** [s.lower()] *)
Fixpoint lower (s : string) : string :=
  match s with
  | EmptyString => EmptyString
  | String c s' => String (lower_char c) (lower s')
  end.

(** [sub in s] *)
Fixpoint contains (sub s : string) : bool :=
  prefix sub s
  || match s with
     | EmptyString => false
     | String _ s' => contains sub s'
     end.

(** [s.split(sep)] for a non-empty [sep]: the pieces between the occurrences
    of [sep], found from left to right without overlap. [skip] counts the
    characters of an occurrence still to pass over, [cur] is the piece read
    so far. *)
Fixpoint split_scan (sep : string) (skip : nat) (cur s : string)
  : list string :=
  match s with
  | EmptyString => [cur]
  | String c s' =>
      match skip with
      | S k => split_scan sep k cur s'
      | O =>
          if prefix sep s
          then cur :: split_scan sep (String.length sep - 1) EmptyString s'
          else split_scan sep O (cur ++ String c EmptyString) s'
      end
  end.

Definition split (sep s : string) : list string :=
  split_scan sep O EmptyString s.

(** [l[i]] for a non-negative literal index. *)
Definition index {A : Type} (l : list A) (i : nat) : result A :=
  match nth_error l i with
  | Some a => Ok a
  | None => Raise IndexError
  end.

(** [sep.join(parts)] *)
Fixpoint join (sep : string) (parts : list string) : string :=
  match parts with
  | [] => EmptyString
  | [p] => p
  | p :: rest => p ++ sep ++ join sep rest
  end.

(** The truth value of a string: non-empty. *)
Definition truthy (s : string) : bool :=
  match s with
  | EmptyString => false
  | String _ _ => true
  end.

End PyStr.

(** ** Python values

    The values that the program stores in [Data.value], pickles and reads
    back from the sandbox: scalars, tuples, lists, dictionaries (in insertion
    order, keyed by integers or strings) and pandas frames (the column
    labels, the index labels, and one list of cells per column). [PNaN] is
    the value pandas puts in a cell that has none; floating point values are
    otherwise outside the model. *)

Inductive key : Type :=
| KInt (n : Z)
| KStr (s : string).

Inductive pyval : Type :=
| PNone
| PNaN
| PBool (b : bool)
| PInt (n : Z)
| PStr (s : string)
| PTuple (items : list pyval)
| PList (items : list pyval)
| PDict (items : list (key * pyval))
| PFrame (columns index : list key) (cells : list (list pyval)).

Definition key_eqb (a b : key) : bool :=
  match a, b with
  | KInt x, KInt y => x =? y
  | KStr x, KStr y => String.eqb x y
  | _, _ => false
  end.

(** What lies outside the program: pandas, the printing of values, and
    how pydantic reads a field declared [Optional[...]] without a default. *)
Record World : Type := {
  (** [pd.DataFrame(data).map(_convert_periods)], which may raise *)
  pd_DataFrame : pyval -> result pyval;
  (** [str(value)] *)
  py_str : pyval -> string;
  (** [value.head(3).to_string()] *)
  head3_to_string : pyval -> string;
  (** Whether a field declared [Optional[...]] without a default must be
      given when an object of the class is built. pydantic 2 requires it
      and raises [ValidationError] when it is missing; pydantic 1 fills in
      [None]. *)
  optional_field_required : bool
}.

(** ** [agent/state.py] *)

Module State.

Record Step : Type := {
  order : Z;
  name : string;
  description : string;
  completed : bool;
  report : string
}.

Inductive DataType : Type := DATAFRAME | JSON | TEXT | STRING | PNG.

Record Data : Type := {
  key : string;
  type : DataType;
  data_description : string;
  value : pyval
}.

Definition get_default_steps : list Step :=
  [ {| order := 1; name := "Define the Objective";
       description := "Understand the problem and set goals";
       completed := false; report := "" |};
    {| order := 2; name := "Data Cleaning";
       description :=
         "Handle missing data, fix errors, and filter irrelevant data";
       completed := false; report := "" |};
    {| order := 3; name := "Data Exploration";
       description := "Summarize data and find anomalies/outliers";
       completed := false; report := "" |};
    {| order := 4; name := "Data Analysis & Visualization";
       description := ""; completed := false; report := "" |};
    {| order := 5; name := "Write Report";
       description := ""; completed := false; report := "" |} ].

(** The loop shared by [check_if_skip_any_step] and the [write_step_report]
    nodes: [for step in steps: if step.order == k: <assign>; break]. Only the
    first step of order [k] is touched. *)
Fixpoint update_first (k : Z) (f : Step -> Step) (steps : list Step)
  : list Step :=
  match steps with
  | [] => []
  | step :: rest =>
      if order step =? k then f step :: rest
      else step :: update_first k f rest
  end.

Definition set_completed (step : Step) : Step :=
  {| order := order step; name := name step;
     description := description step;
     completed := true; report := report step |}.

Definition set_completed_report (r : string) (step : Step) : Step :=
  {| order := order step; name := name step;
     description := description step;
     completed := true; report := r |}.

End State.

(** ** [agent/utils.py] *)

Module Utils.
Import State.

(** [min(l, key=f)] on a non-empty list [x :: rest]: the first element whose
    key is the least. *)
Definition min_by {A : Type} (f : A -> Z) (x : A) (rest : list A) : A :=
  fold_left (fun best y => if f y <? f best then y else best) rest x.

Definition get_current_step (plan : list Step) : option Step :=
  let not_completed_steps := filter (fun step => negb (completed step)) plan in
  match not_completed_steps with
  | [] => None
  | step :: rest => Some (min_by order step rest)
  end.

(** [truncate_string_middle(s, max_length)] on a [str] argument (any other
    argument is first turned into one by [str]). *)
Definition truncate_string_middle (s : string) (max_length : Z) : string :=
  if PyStr.len s <=? max_length then s
  else
    let half := max_length / 2 in
    PyStr.slice s None (Some half)
    ++ " ... [TRUNCATED, "
    ++ PyStr.str_of_int (PyStr.len s - max_length)
    ++ " chars omitted] ... "
    ++ PyStr.slice s (Some (- half)) None.

(** The budgets the program passes to [truncate_string_middle]: 1000
    everywhere ([get_python_executor_node], [parse_e2b_execution_results],
    [format_results], [_get_sample]) but in [_get_sample] without
    truncation, which passes [MAX_SAMPLE_LENGTH]. *)
Definition MAX_SAMPLE_LENGTH : Z := 10000.

Definition budgets : list Z := [1000; MAX_SAMPLE_LENGTH].

(** The text that [truncate_string_middle] puts between the two ends. *)
Definition annotation (omitted : Z) : string :=
  " ... [TRUNCATED, " ++ PyStr.str_of_int omitted ++ " chars omitted] ... ".

Definition fence_python : string := "```python".
Definition fence : string := "```".

(** [extract_code_block(response)], on the text of the response. *)
Definition extract_code_block (content : string) : option string :=
  if PyStr.contains "DONE" content then None
  else
    match
      (after <- PyStr.index (PyStr.split fence_python content) 1 ;;
       body <- PyStr.index (PyStr.split fence after) 0 ;;
       Ok (PyStr.strip body))
    with
    | Ok code_block => Some code_block
    | Raise _ => None
    end.

(** A result of the sandbox ([e2b_code_interpreter.models.Result]): the names
    that [formats()] reports and the fields the program reads. *)
Record Result : Type := {
  formats : list string;
  data : pyval;
  json : option pyval;
  text : string;
  png : string
}.

Definition has_format (f : string) (r : Result) : bool :=
  existsb (String.eqb f) (formats r).

Definition parse_one (w : World) (r : Result) : result (pyval * DataType) :=
  if has_format "data" r then
    match pd_DataFrame w (data r) with
    | Ok v => Ok (v, DATAFRAME)
    | Raise _ => Raise (ValueError "Failed to convert data to DataFrame")
    end
  else if has_format "json" r then
    match json r with
    | Some j => Ok (j, JSON)
    | None => Raise (ValueError "Failed to process json data")
    end
  else if has_format "text" r then
    Ok (PStr (truncate_string_middle (text r) 1000), TEXT)
  else if has_format "png" r then
    Ok (PStr (png r), PNG)
  else Raise (ValueError "Unsupported data type").

Fixpoint parse_e2b_execution_results (w : World) (results : list Result)
  : result (list (pyval * DataType)) :=
  match results with
  | [] => Ok []
  | r :: rest =>
      p <- parse_one w r ;;
      ps <- parse_e2b_execution_results w rest ;;
      Ok (p :: ps)
  end.

Definition nl : string := String (ascii_of_nat 10) EmptyString.
Definition dq : string := String (ascii_of_nat 34) EmptyString.

Definition shape (v : pyval) : Z * Z :=
  match v with
  | PFrame columns index _ =>
      (Z.of_nat (List.length index), Z.of_nat (List.length columns))
  | _ => (0, 0)
  end.

Definition format_one (w : World) (p : pyval * DataType) : string :=
  let (v, data_type) := p in
  match data_type with
  | DATAFRAME =>
      "DataFrame (" ++ PyStr.str_of_int (fst (shape v)) ++ " rows x "
      ++ PyStr.str_of_int (snd (shape v)) ++ " columns):" ++ nl
      ++ head3_to_string w v
  | _ => truncate_string_middle (py_str w v) 1000
  end.

Definition format_results (w : World) (parsed : list (pyval * DataType))
  : string :=
  PyStr.join nl (map (format_one w) parsed).

End Utils.

(** ** [agent/common.py]: the nodes shared by the stages *)

Module Common.
Import State Utils.

Inductive role : Type := SystemRole | HumanRole | AIRole.

Record Message : Type := { msg_role : role; content : string }.

Definition SystemMessage (c : string) : Message :=
  {| msg_role := SystemRole; content := c |}.
Definition HumanMessage (c : string) : Message :=
  {| msg_role := HumanRole; content := c |}.
Definition AIMessage (c : string) : Message :=
  {| msg_role := AIRole; content := c |}.

Record ValidationResult : Type := {
  chain_of_thought_summary : string;
  pass_the_validation : bool;
  message_to_user : option string
}.

Record VariableToSave : Type := {
  var_key : string;
  var_description : string
}.

(** [StepState], with the fields it inherits from [OverallState]. *)
Record StepState : Type := {
  objective : string;
  variables : list Data;
  skip_define_objective_step : bool;
  use_human_in_the_loop : bool;
  final_report : string;
  steps : list Step;
  sandbox_id : string;
  step_message_history : list Message;
  code_block : string;
  variables_to_save : list VariableToSave;
  checklist_validation_result : option ValidationResult;
  critic_validation_result : option (list ValidationResult)
}.

(** The nodes of a stage sub-graph (stages 2 to 4). *)
Inductive node : Type :=
| init_e2b_sandbox
| init_message_history
| agent
| python_executor
| checklist_validator
| critic_validator
| rendevous
| save_variables
| write_step_report
| END.

Definition node_eqb (a b : node) : bool :=
  match a, b with
  | init_e2b_sandbox, init_e2b_sandbox
  | init_message_history, init_message_history
  | agent, agent
  | python_executor, python_executor
  | checklist_validator, checklist_validator
  | critic_validator, critic_validator
  | rendevous, rendevous
  | save_variables, save_variables
  | write_step_report, write_step_report
  | END, END => true
  | _, _ => false
  end.

(** One entry of an update dictionary: the field written and its value. *)
Inductive write : Type :=
| W_sandbox_id (v : string)
| W_step_message_history (v : list Message)
| W_code_block (v : string)
| W_variables_to_save (v : list VariableToSave)
| W_variables (v : list Data)
| W_checklist_validation_result (v : ValidationResult)
| W_critic_validation_result (v : list ValidationResult)
| W_steps (v : list Step)
| W_objective (v : string)
| W_final_report (v : string).

(** [Command(goto=..., update=...)]; a node that returns a plain dictionary
    is a command with no [goto]. *)
Record Command : Type := {
  goto : list node;
  update : list write
}.

(** The reducers. [step_message_history] is declared with [add_messages],
    which appends (the messages of one run never share an id); every other
    field has no reducer, so a write replaces the whole value. *)
Definition apply_write (st : StepState) (w : write) : StepState :=
  match w with
  | W_sandbox_id v =>
      {| objective := objective st; variables := variables st;
         skip_define_objective_step := skip_define_objective_step st;
         use_human_in_the_loop := use_human_in_the_loop st;
         final_report := final_report st; steps := steps st;
         sandbox_id := v;
         step_message_history := step_message_history st;
         code_block := code_block st;
         variables_to_save := variables_to_save st;
         checklist_validation_result := checklist_validation_result st;
         critic_validation_result := critic_validation_result st |}
  | W_step_message_history v =>
      {| objective := objective st; variables := variables st;
         skip_define_objective_step := skip_define_objective_step st;
         use_human_in_the_loop := use_human_in_the_loop st;
         final_report := final_report st; steps := steps st;
         sandbox_id := sandbox_id st;
         step_message_history := step_message_history st ++ v;
         code_block := code_block st;
         variables_to_save := variables_to_save st;
         checklist_validation_result := checklist_validation_result st;
         critic_validation_result := critic_validation_result st |}
  | W_code_block v =>
      {| objective := objective st; variables := variables st;
         skip_define_objective_step := skip_define_objective_step st;
         use_human_in_the_loop := use_human_in_the_loop st;
         final_report := final_report st; steps := steps st;
         sandbox_id := sandbox_id st;
         step_message_history := step_message_history st;
         code_block := v;
         variables_to_save := variables_to_save st;
         checklist_validation_result := checklist_validation_result st;
         critic_validation_result := critic_validation_result st |}
  | W_variables_to_save v =>
      {| objective := objective st; variables := variables st;
         skip_define_objective_step := skip_define_objective_step st;
         use_human_in_the_loop := use_human_in_the_loop st;
         final_report := final_report st; steps := steps st;
         sandbox_id := sandbox_id st;
         step_message_history := step_message_history st;
         code_block := code_block st;
         variables_to_save := v;
         checklist_validation_result := checklist_validation_result st;
         critic_validation_result := critic_validation_result st |}
  | W_variables v =>
      {| objective := objective st; variables := v;
         skip_define_objective_step := skip_define_objective_step st;
         use_human_in_the_loop := use_human_in_the_loop st;
         final_report := final_report st; steps := steps st;
         sandbox_id := sandbox_id st;
         step_message_history := step_message_history st;
         code_block := code_block st;
         variables_to_save := variables_to_save st;
         checklist_validation_result := checklist_validation_result st;
         critic_validation_result := critic_validation_result st |}
  | W_checklist_validation_result v =>
      {| objective := objective st; variables := variables st;
         skip_define_objective_step := skip_define_objective_step st;
         use_human_in_the_loop := use_human_in_the_loop st;
         final_report := final_report st; steps := steps st;
         sandbox_id := sandbox_id st;
         step_message_history := step_message_history st;
         code_block := code_block st;
         variables_to_save := variables_to_save st;
         checklist_validation_result := Some v;
         critic_validation_result := critic_validation_result st |}
  | W_critic_validation_result v =>
      {| objective := objective st; variables := variables st;
         skip_define_objective_step := skip_define_objective_step st;
         use_human_in_the_loop := use_human_in_the_loop st;
         final_report := final_report st; steps := steps st;
         sandbox_id := sandbox_id st;
         step_message_history := step_message_history st;
         code_block := code_block st;
         variables_to_save := variables_to_save st;
         checklist_validation_result := checklist_validation_result st;
         critic_validation_result := Some v |}
  | W_steps v =>
      {| objective := objective st; variables := variables st;
         skip_define_objective_step := skip_define_objective_step st;
         use_human_in_the_loop := use_human_in_the_loop st;
         final_report := final_report st; steps := v;
         sandbox_id := sandbox_id st;
         step_message_history := step_message_history st;
         code_block := code_block st;
         variables_to_save := variables_to_save st;
         checklist_validation_result := checklist_validation_result st;
         critic_validation_result := critic_validation_result st |}
  | W_objective v =>
      {| objective := v; variables := variables st;
         skip_define_objective_step := skip_define_objective_step st;
         use_human_in_the_loop := use_human_in_the_loop st;
         final_report := final_report st; steps := steps st;
         sandbox_id := sandbox_id st;
         step_message_history := step_message_history st;
         code_block := code_block st;
         variables_to_save := variables_to_save st;
         checklist_validation_result := checklist_validation_result st;
         critic_validation_result := critic_validation_result st |}
  | W_final_report v =>
      {| objective := objective st; variables := variables st;
         skip_define_objective_step := skip_define_objective_step st;
         use_human_in_the_loop := use_human_in_the_loop st;
         final_report := v; steps := steps st;
         sandbox_id := sandbox_id st;
         step_message_history := step_message_history st;
         code_block := code_block st;
         variables_to_save := variables_to_save st;
         checklist_validation_result := checklist_validation_result st;
         critic_validation_result := critic_validation_result st |}
  end.

Definition apply_update (st : StepState) (u : list write) : StepState :=
  fold_left apply_write u st.

(** *** What the sandbox returns *)

Record ExecutionError : Type := {
  err_name : string;
  err_value : string;
  traceback : string
}.

Record Execution : Type := {
  error : option ExecutionError;
  stdout : list string;
  stderr : list string;
  results : list Result
}.

(** *** The agent node *)

Definition limit_message : Message :=
  HumanMessage "We've reached the maximum number of messages.".

Definition corrective_message : Message :=
  HumanMessage
    ("Can you check your last response again? It seems like you didn't write the code in the code block and it doesn't include DONE. If the exploration process is all done, simply return DONE with all capital letters. If you need more exploration tasks, write the code in a proper code block (```python"
     ++ nl ++ "[code]" ++ nl ++ "```).").

(** [get_code_agent_node(state_type, max_message_turn, next_node_name)].
    [response] is what the chat model answers to the history and
    [variable_list] what the reasoning model selects; the node asks for the
    first only below the limit and for the second only in the DONE case. *)
Definition get_code_agent_node (max_message_turn : Z) (next_node_name : node)
    (state : StepState) (response : Message)
    (variable_list : list VariableToSave) : Command :=
  if Z.of_nat (List.length (step_message_history state))
     >? 2 * max_message_turn
  then
    {| goto := [next_node_name];
       update := [W_step_message_history [limit_message]] |}
  else
    let code_block := extract_code_block (content response) in
    let is_done := PyStr.contains "DONE" (content response) in
    match code_block with
    | Some (String c rest) =>
        {| goto := [python_executor];
           update := [W_step_message_history [response];
                      W_code_block (String c rest)] |}
    | _ =>
        if is_done then
          {| goto := [checklist_validator; critic_validator];
             update := [W_variables_to_save variable_list;
                        W_step_message_history [response]] |}
        else
          {| goto := [agent];
             update :=
               [W_step_message_history [response; corrective_message]] |}
    end.

(** *** The executor node *)

Definition or_else (s default : string) : string :=
  if PyStr.truthy s then s else default.

Definition section_block (tag body : string) : list string :=
  if PyStr.truthy body
  then ["<" ++ tag ++ ">" ++ nl ++ body ++ nl ++ "</" ++ tag ++ ">"]
  else [].

(** The content of the message that [python_executor] appends. *)
Definition execution_content (w : World) (execution : Execution)
  : result string :=
  parsed_results <- parse_e2b_execution_results w (results execution) ;;
  let formatted_stdout := PyStr.join nl (stdout execution) in
  let formatted_stderr := PyStr.join nl (stderr execution) in
  let formatted_results := format_results w parsed_results in
  match error execution with
  | Some e =>
      let tb := nl ++ nl ++ "<traceback>" ++ nl ++ traceback e ++ nl
                ++ "</traceback>" in
      Ok (err_name e ++ ": " ++ err_value e
          ++ truncate_string_middle tb 1000)
  | None =>
      let content_parts :=
        (section_block "stdout" formatted_stdout
         ++ section_block "stderr" formatted_stderr
         ++ section_block "results" formatted_results)%list in
      Ok (PyStr.strip (PyStr.join (nl ++ nl) content_parts))
  end.

Definition get_python_executor_node (w : World) (state : StepState)
    (execution : Execution) : result Command :=
  c <- execution_content w execution ;;
  Ok {| goto := [agent];
        update :=
          [W_step_message_history
             [HumanMessage (or_else c "No output from the code block.")]] |}.

(** *** The node that saves the selected variables *)

Definition data_of (v : VariableToSave) (p : pyval * DataType) : Data :=
  {| key := var_key v; type := snd p;
     data_description := var_description v; value := fst p |}.

(** The loop of [save_variables]. [run_code] is the sandbox: evaluating the
    name of a variable gives an execution. *)
Fixpoint collect_variables (w : World) (run_code : string -> Execution)
    (to_save : list VariableToSave) : result (list Data) :=
  match to_save with
  | [] => Ok []
  | variable_to_save :: rest =>
      let execution := run_code (var_key variable_to_save) in
      match error execution with
      | Some e => Raise (Exception "Error saving variable")
      | None =>
          parsed_results <-
            parse_e2b_execution_results w (results execution) ;;
          more <- collect_variables w run_code rest ;;
          Ok (map (data_of variable_to_save) parsed_results ++ more)%list
      end
  end.

Definition get_save_variables_node (w : World) (state : StepState)
    (run_code : string -> Execution) : result Command :=
  final_variables <-
    collect_variables w run_code (variables_to_save state) ;;
  Ok {| goto := []; update := [W_variables final_variables] |}.

(** *** The validators *)

Definition str_of_bool (b : bool) : string := if b then "True" else "False".

Definition str_of_optional (o : option string) : string :=
  match o with
  | Some s => s
  | None => "None"
  end.

Definition optional_truthy (o : option string) : bool :=
  match o with
  | Some s => PyStr.truthy s
  | None => false
  end.

Definition validation_message (title : string) (r : ValidationResult)
  : Message :=
  AIMessage
    (PyStr.strip
       (nl ++ "Here is the " ++ title ++ " validation result:" ++ nl ++ nl
        ++ "Reasoning:" ++ nl ++ chain_of_thought_summary r ++ nl ++ nl
        ++ "Pass the validation:" ++ nl
        ++ str_of_bool (pass_the_validation r) ++ nl ++ nl
        ++ (if optional_truthy (message_to_user r)
            then "Message to user: " ++ str_of_optional (message_to_user r)
            else "")
        ++ nl)).

(** [get_checklist_validator_node(checklist, step_state)]; [r] is the
    verdict of the model. *)
Definition get_checklist_validator_node (checklist : string)
    (state : StepState) (r : ValidationResult) : Command :=
  {| goto := [];
     update := [W_checklist_validation_result r;
                W_step_message_history [validation_message "checklist" r]] |}.

(** [get_critic_validator_node(critic_rule, step_state)]; the two verdicts
    are those of the two models, in the order the node asks them. *)
Definition get_critic_validator_node (critic_rule : string)
    (state : StepState)
    (result_from_o3 result_from_claude_4_opus : ValidationResult) : Command :=
  let results := [result_from_o3; result_from_claude_4_opus] in
  {| goto := [];
     update := [W_critic_validation_result results;
                W_step_message_history
                  (map (validation_message "critic") results)] |}.

(** *** The rendezvous node *)

Definition feedback_message : Message :=
  HumanMessage
    "We've got two feedbacks from checklist and critic valiators. Read them carefully and address them step by step.".

Definition verdict_line (r : ValidationResult) : string :=
  if pass_the_validation r then "Validation passed"
  else str_of_optional (message_to_user r).

Fixpoint critic_lines (i : Z) (rs : list ValidationResult) : list string :=
  match rs with
  | [] => []
  | r :: rest =>
      ("Critic " ++ PyStr.str_of_int (i + 1) ++ ": " ++ verdict_line r)
      :: critic_lines (i + 1) rest
  end.

Definition critic_validation_summary (state : StepState) : string :=
  match critic_validation_result state with
  | Some (r :: rest) => PyStr.join nl (critic_lines 0 (r :: rest))
  | _ => "No critic validation results"
  end.

(** The payload of the interrupt. Reading [pass_the_validation] of a missing
    checklist result raises [AttributeError]. *)
Definition interrupt_payload (step_name : string) (state : StepState)
  : result string :=
  match checklist_validation_result state with
  | None => Raise AttributeError
  | Some r =>
      Ok (PyStr.strip
            (nl ++ "Finished " ++ step_name
             ++ " just now! Can you check the validation result?" ++ nl ++ nl
             ++ "Checklist validation result:" ++ nl ++ verdict_line r
             ++ nl ++ nl
             ++ "Critic validation result:" ++ nl
             ++ critic_validation_summary state ++ nl ++ nl
             ++ "Now you can either:" ++ nl
             ++ "- type " ++ dq ++ "pass" ++ dq ++ " or just press enter with no input to RESUME the agent's flow" ++ nl
             ++ "- type a message that will be INSERTED into the agent's message history" ++ nl
             ++ "- type " ++ dq ++ "ignore" ++ dq ++ " to IGNORE the validation result and go to the next step"
             ++ nl))
  end.

Definition all_critics_passed (state : StepState) : bool :=
  match critic_validation_result state with
  | None => false
  | Some rs =>
      (0 <? Z.of_nat (List.length rs)) && forallb pass_the_validation rs
  end.

Definition checklist_passed (state : StepState) : bool :=
  match checklist_validation_result state with
  | None => false
  | Some r => pass_the_validation r
  end.

(** The decision both branches of [rendevous] share. *)
Definition route_on_validation (next_node_name agent_node_name : node)
    (state : StepState) : Command :=
  if checklist_passed state && all_critics_passed state
  then {| goto := [next_node_name]; update := [] |}
  else {| goto := [agent_node_name];
          update := [W_step_message_history [feedback_message]] |}.

(** [get_rendevous_node(next_node_name, agent_node_name, step_name,
    state_type)]. [user_input] is the value the interrupt is resumed with. *)
Definition get_rendevous_node (next_node_name agent_node_name : node)
    (step_name : string) (state : StepState) (user_input : string)
  : result Command :=
  if use_human_in_the_loop state then
    _ <- interrupt_payload step_name state ;;
    if String.eqb (PyStr.lower user_input) "ignore" then
      Ok {| goto := [next_node_name]; update := [] |}
    else if String.eqb (PyStr.lower user_input) "pass"
            || String.eqb (PyStr.strip user_input) ""
    then Ok (route_on_validation next_node_name agent_node_name state)
    else
      Ok {| goto := [agent_node_name];
            update := [W_step_message_history [HumanMessage user_input]] |}
  else Ok (route_on_validation next_node_name agent_node_name state).

(** *** The node that opens the sandbox *)

Definition loadable (d : Data) : bool :=
  match type d with
  | DATAFRAME | JSON | TEXT | STRING => true
  | PNG => false
  end.

(** [get_init_e2b_sandbox_node]. [session] is what opening the sandbox and
    uploading the variables gives (the id of the sandbox, or the exception
    raised on the way) and [execution] the run of the loading script, whose
    construction raises on a variable of a type it cannot load. *)
Definition get_init_e2b_sandbox_node (state : StepState)
    (session : result string) (execution : Execution) : result Command :=
  id <- session ;;
  if forallb loadable (variables state) then
    match error execution with
    | Some e => Raise (Exception "Error initializing sandbox")
    | None => Ok {| goto := []; update := [W_sandbox_id id] |}
    end
  else Raise (ValueError "Unsupported data type").

End Common.

(** ** [agent/steps]: the sub-graphs of stages 2, 3 and 4 *)

Module Steps.
Import State Utils Common.

(** What a stage file fixes: the order of its step, its constants, and the
    names it passes to the node factories. *)
Record Stage : Type := {
  stage_order : Z;
  MAX_MESSAGE_TURN : Z;
  CHECKLIST : string;
  CRITIC_GUIDE : string;
  step_name : string;
  agent_next_node_name : node;
  rendevous_next_node_name : node
}.

Definition checklist_2 : string :=
  "- Address missing values" ++ nl ++ "- Address duplicate records" ++ nl
  ++ "- Address inconsistent formatting" ++ nl
  ++ "- Address inconsistent naming conventions" ++ nl
  ++ "- Address outliers" ++ nl ++ "- Address data type mismatches".

(** [steps/step_2_data_cleaning.py] *)
Definition step_2_data_cleaning : Stage :=
  {| stage_order := 2; MAX_MESSAGE_TURN := 30;
     CHECKLIST := checklist_2; CRITIC_GUIDE := "";
     step_name := "Step 2: Data Cleaning";
     agent_next_node_name := save_variables;
     rendevous_next_node_name := save_variables |}.

(** [steps/step_3_data_exploration.py]; the texts of its checklist and of
    its critic guide play no part in the routing and are left out. *)
Definition step_3_data_exploration : Stage :=
  {| stage_order := 3; MAX_MESSAGE_TURN := 30;
     CHECKLIST := ""; CRITIC_GUIDE := "";
     step_name := "Step 3: Data Exploration";
     agent_next_node_name := save_variables;
     rendevous_next_node_name := save_variables |}.

(** [steps/step_4_data_analysis.py]; texts left out as for stage 3. *)
Definition step_4_data_analysis : Stage :=
  {| stage_order := 4; MAX_MESSAGE_TURN := 50;
     CHECKLIST := ""; CRITIC_GUIDE := "";
     step_name := "Step 4: Data Analysis";
     agent_next_node_name := save_variables;
     rendevous_next_node_name := save_variables |}.

Definition stages : list Stage :=
  [step_2_data_cleaning; step_3_data_exploration; step_4_data_analysis].

(** [init_message_history]: the formatted system prompt, then the opening
    human message. *)
Definition init_message_history_node (state : StepState)
    (system_prompt : string) : Command :=
  {| goto := [];
     update := [W_step_message_history
                  [SystemMessage system_prompt;
                   HumanMessage "Okay, let's start."]] |}.

(** [write_step_report]: the report is what the model writes. *)
Definition write_step_report_node (sg : Stage) (state : StepState)
    (report : string) : Command :=
  {| goto := [END];
     update := [W_steps (update_first (stage_order sg)
                           (set_completed_report report) (steps state))] |}.

(** The edges added with [add_edge]. *)
Definition edges (n : node) : list node :=
  match n with
  | init_e2b_sandbox => [init_message_history]
  | init_message_history => [agent]
  | python_executor => [agent]
  | checklist_validator => [rendevous]
  | critic_validator => [rendevous]
  | save_variables => [write_step_report]
  | write_step_report => [END]
  | agent | rendevous | END => []
  end.

(** What the outside answers during one superstep, whichever node asks. *)
Record Outside : Type := {
  session : result string;
  bootstrap : Execution;
  system_prompt : string;
  response : Message;
  variable_list : list VariableToSave;
  execution : Execution;
  checklist_verdict : ValidationResult;
  o3_verdict : ValidationResult;
  claude_4_opus_verdict : ValidationResult;
  user_input : string;
  run_code : string -> Execution;
  report_text : string
}.

Definition run_node (w : World) (sg : Stage) (o : Outside) (state : StepState)
    (n : node) : result Command :=
  match n with
  | init_e2b_sandbox =>
      get_init_e2b_sandbox_node state (session o) (bootstrap o)
  | init_message_history =>
      Ok (init_message_history_node state (system_prompt o))
  | agent =>
      Ok (get_code_agent_node (MAX_MESSAGE_TURN sg) (agent_next_node_name sg)
            state (response o) (variable_list o))
  | python_executor => get_python_executor_node w state (execution o)
  | checklist_validator =>
      Ok (get_checklist_validator_node (CHECKLIST sg) state
            (checklist_verdict o))
  | critic_validator =>
      Ok (get_critic_validator_node (CRITIC_GUIDE sg) state
            (o3_verdict o) (claude_4_opus_verdict o))
  | rendevous =>
      get_rendevous_node (rendevous_next_node_name sg) agent (step_name sg)
        state (user_input o)
  | save_variables => get_save_variables_node w state (run_code o)
  | write_step_report => Ok (write_step_report_node sg state (report_text o))
  | END => Ok {| goto := []; update := [] |}
  end.

(** A point of a run: the state and the nodes that run next. *)
Record Config : Type := {
  state : StepState;
  active : list node
}.

Fixpoint run_all (w : World) (sg : Stage) (o : Outside) (st : StepState)
    (ns : list node) : result (list (node * Command)) :=
  match ns with
  | [] => Ok []
  | n :: rest =>
      c <- run_node w sg o st n ;;
      cs <- run_all w sg o st rest ;;
      Ok ((n, c) :: cs)
  end.

(** The nodes a finished node hands over to: those of its command and those
    of its edges; [END] is no node. *)
Definition successors (nc : node * Command) : list node :=
  filter (fun m => negb (node_eqb m END))
    (goto (snd nc) ++ edges (fst nc))%list.

Fixpoint dedup (ns : list node) : list node :=
  match ns with
  | [] => []
  | n :: rest =>
      if existsb (node_eqb n) rest then dedup rest else n :: dedup rest
  end.

(** One superstep: every active node runs on the same state, the updates are
    merged by the reducers, and the successors run next. A node that raises
    fails the superstep. *)
Definition superstep (w : World) (sg : Stage) (o : Outside) (c : Config)
  : result Config :=
  done <- run_all w sg o (state c) (active c) ;;
  Ok {| state :=
          fold_left (fun st nc => apply_update st (update (snd nc)))
            done (state c);
        active := dedup (flat_map successors done) |}.

(** The state in which a stage sub-graph starts: what the orchestrator hands
    over, with the fields of the stage at their defaults. *)
Definition enter (objective0 : string) (variables0 : list Data)
    (skip hitl : bool) (report0 : string) (steps0 : list Step)
    (sandbox0 : string) : StepState :=
  {| objective := objective0; variables := variables0;
     skip_define_objective_step := skip; use_human_in_the_loop := hitl;
     final_report := report0; steps := steps0; sandbox_id := sandbox0;
     step_message_history := []; code_block := "";
     variables_to_save := [];
     checklist_validation_result := None;
     critic_validation_result := None |}.

Definition entered (st : StepState) : Prop :=
  step_message_history st = [] /\ code_block st = ""
  /\ variables_to_save st = []
  /\ checklist_validation_result st = None
  /\ critic_validation_result st = None.

(** Whether the descriptor of the step of order [k] is marked completed. *)
Definition stage_completed (k : Z) (steps : list Step) : bool :=
  existsb (fun step => (order step =? k) && completed step) steps.

(** The configurations a run of the sub-graph of [sg] passes through, from
    an entry state in which the stage is not completed yet. *)
Inductive reachable (w : World) (sg : Stage) : Config -> Prop :=
| reachable_start : forall st,
    entered st ->
    stage_completed (stage_order sg) (steps st) = false ->
    reachable w sg {| state := st; active := [init_e2b_sandbox] |}
| reachable_step : forall c o c',
    reachable w sg c ->
    superstep w sg o c = Ok c' ->
    reachable w sg c'.

(** A run driven by a list of answers, one per superstep. *)
Fixpoint run (w : World) (sg : Stage) (os : list Outside) (c : Config)
  : result Config :=
  match os with
  | [] => Ok c
  | o :: rest =>
      c' <- superstep w sg o c ;;
      run w sg rest c'
  end.

(** The state a sub-graph hands back to the orchestrator: the fields of
    [OverallState]; the fields of the stage are dropped. *)
Definition leave (st : StepState) : StepState :=
  enter (objective st) (variables st) (skip_define_objective_step st)
    (use_human_in_the_loop st) (final_report st) (steps st) (sandbox_id st).

Definition finished (c : Config) : bool :=
  match active c with
  | [] => true
  | _ :: _ => false
  end.

End Steps.

(** ** [steps/step_1_define_objective.py] *)

Module Step1.
Import State Utils Common.

Definition MAX_MESSAGE_TURN : Z := 3.

Inductive node : Type :=
| init_message_history
| agent
| checklist_validator
| rendevous
| END.

(** The structured answer the agent asks the model for. *)
Record Schema : Type := {
  chain_of_thought : string;
  is_request_answerable : bool;
  is_request_specific : bool;
  schema_message_to_user : string
}.

Definition init_message_history_node (state : StepState)
    (system_prompt : string) : Command :=
  {| goto := [];
     update := [W_step_message_history
                  [SystemMessage system_prompt;
                   HumanMessage ("User request: " ++ objective state)]] |}.

Definition objective_message (user_response new_objective : string)
  : Message :=
  HumanMessage
    (PyStr.strip
       (nl ++ "The user said:" ++ nl ++ user_response ++ nl ++ nl
        ++ "And we updated the objective to:" ++ nl ++ new_objective ++ nl)).

(** Where a command of this sub-graph goes. *)
Record Command1 : Type := {
  goto1 : list node;
  update1 : list write
}.

(** [agent]. The model is asked first; [user_response] is the value the
    interrupt is resumed with and [new_objective] the rewritten objective.
    Falling off the end of the function is the command that writes nothing
    and names no node. *)
Definition agent_node (state : StepState) (response : Schema)
    (user_response new_objective : string) : Command1 :=
  if Z.of_nat (List.length (step_message_history state))
     >? 2 * MAX_MESSAGE_TURN
  then {| goto1 := [END]; update1 := [] |}
  else if is_request_answerable response && is_request_specific response
  then {| goto1 := []; update1 := [] |}
  else
    {| goto1 := [agent];
       update1 :=
         [W_step_message_history
            [AIMessage (schema_message_to_user response);
             objective_message user_response new_objective];
          W_objective new_objective] |}.

Definition rendevous_node (state : StepState) : Command1 :=
  if checklist_passed state
  then {| goto1 := [END]; update1 := [] |}
  else {| goto1 := [agent]; update1 := [] |}.

Definition edges (n : node) : list node :=
  match n with
  | init_message_history => [agent]
  | checklist_validator => [rendevous]
  | agent | rendevous | END => []
  end.

Record Outside : Type := {
  system_prompt : string;
  response : Schema;
  user_response : string;
  new_objective : string;
  checklist_verdict : ValidationResult
}.

Definition run_node (o : Outside) (state : StepState) (n : node) : Command1 :=
  match n with
  | init_message_history =>
      let c := init_message_history_node state (system_prompt o) in
      {| goto1 := []; update1 := update c |}
  | agent =>
      agent_node state (response o) (user_response o) (new_objective o)
  | checklist_validator =>
      let c := get_checklist_validator_node "" state (checklist_verdict o) in
      {| goto1 := []; update1 := update c |}
  | rendevous => rendevous_node state
  | END => {| goto1 := []; update1 := [] |}
  end.

(** A superstep; this sub-graph never has two nodes active. [None] is the
    end of the run. *)
Definition superstep (o : Outside) (c : StepState * option node)
  : StepState * option node :=
  match snd c with
  | None => c
  | Some n =>
      let cmd := run_node o (fst c) n in
      (apply_update (fst c) (update1 cmd),
       match (goto1 cmd ++ edges n)%list with
       | [] => None
       | END :: _ => None
       | m :: _ => Some m
       end)
  end.

Fixpoint run (os : list Outside) (c : StepState * option node)
  : StepState * option node :=
  match os with
  | [] => c
  | o :: rest => run rest (superstep o c)
  end.

End Step1.

(** ** [steps/step_5_write_report.py] *)

Module Step5.
Import State Common.

(** [agent]: the report is what the model writes. *)
Definition agent_node (state : StepState) (report : string) : Command :=
  {| goto := []; update := [W_final_report report] |}.

End Step5.

(** ** [agent/entry_graph.py]: the orchestrator *)

Module EntryGraph.
Import State Utils Common.

Inductive node : Type :=
| check_if_skip_any_step
| step_1_define_objective
| step_2_data_cleaning
| step_3_data_exploration
| step_4_data_analysis
| step_5_write_report
| END.

Definition check_if_skip_any_step_node (state : StepState) : list write :=
  if skip_define_objective_step state
  then [W_steps (update_first 1 set_completed (steps state))]
  else [].

Definition stage_router (state : StepState) : node :=
  match get_current_step (steps state) with
  | None => END
  | Some current_step =>
      if order current_step =? 1 then step_1_define_objective
      else if order current_step =? 2 then step_2_data_cleaning
      else if order current_step =? 3 then step_3_data_exploration
      else if order current_step =? 4 then step_4_data_analysis
      else if order current_step =? 5 then step_5_write_report
      else END
  end.

(** The edges added with [add_edge] between the stages. *)
Definition edge (n : node) : node :=
  match n with
  | step_1_define_objective => step_2_data_cleaning
  | step_2_data_cleaning => step_3_data_exploration
  | step_3_data_exploration => step_4_data_analysis
  | step_4_data_analysis => step_5_write_report
  | step_5_write_report => END
  | check_if_skip_any_step | END => END
  end.

(** The order of the step a stage node stands for. *)
Definition stage_number (n : node) : Z :=
  match n with
  | step_1_define_objective => 1
  | step_2_data_cleaning => 2
  | step_3_data_exploration => 3
  | step_4_data_analysis => 4
  | step_5_write_report => 5
  | check_if_skip_any_step | END => 0
  end.

(** The nodes met from [n] on by following the edges, up to [END]. *)
Fixpoint path (fuel : nat) (n : node) : list node :=
  match fuel with
  | O => []
  | S fuel' =>
      match n with
      | check_if_skip_any_step | END => []
      | _ => n :: path fuel' (edge n)
      end
  end.

(** The stages that follow one another along the edges, from [n] on: the
    graph has five stage nodes and its edges form no cycle. *)
Definition pipeline_from (n : node) : list node := path 5 n.

(** What the outside answers during a whole run, stage by stage. *)
Record Answers : Type := {
  answers_1 : list Step1.Outside;
  answers_2 : list Steps.Outside;
  answers_3 : list Steps.Outside;
  answers_4 : list Steps.Outside;
  answer_5 : string
}.

Definition run_stage (w : World) (sg : Steps.Stage)
    (os : list Steps.Outside) (st : StepState) : option StepState :=
  match
    Steps.run w sg os
      {| Steps.state := Steps.leave st;
         Steps.active := [Common.init_e2b_sandbox] |}
  with
  | Ok c => if Steps.finished c then Some (Steps.leave (Steps.state c))
            else None
  | Raise _ => None
  end.

(** Whether the state class of the first stage can be built from a state.
    Its [StepState] declares [checklist_validation_result] as
    [Optional[ValidationResult]] with no default, so where such a field is
    required a state without a checklist result is refused. (The classes
    of [agent/state.py] are configured through [model_config], the way of
    pydantic 2; the [StepState] of the stages 2 to 4 gives the field the
    default [None].) *)
Definition step_1_state_accepted (w : World) (st : StepState) : bool :=
  match checklist_validation_result st with
  | Some _ => true
  | None => negb (optional_field_required w)
  end.

(** The run of the sub-graph behind a stage node: the state it hands back,
    or [None] when the run fails or the answers end before it does. The
    first stage fails at its first node when its state class refuses the
    state the orchestrator hands over. *)
Definition run_subgraph (w : World) (a : Answers) (n : node)
    (st : StepState) : option StepState :=
  match n with
  | step_1_define_objective =>
      if step_1_state_accepted w (Steps.leave st) then
        match Step1.run (answers_1 a)
                (Steps.leave st, Some Step1.init_message_history) with
        | (st', None) => Some (Steps.leave st')
        | (_, Some _) => None
        end
      else None
  | step_2_data_cleaning =>
      run_stage w Steps.step_2_data_cleaning (answers_2 a) st
  | step_3_data_exploration =>
      run_stage w Steps.step_3_data_exploration (answers_3 a) st
  | step_4_data_analysis =>
      run_stage w Steps.step_4_data_analysis (answers_4 a) st
  | step_5_write_report =>
      Some (apply_update st (update (Step5.agent_node st (answer_5 a))))
  | check_if_skip_any_step | END => Some st
  end.

(** The stages whose sub-graph begins, each with the state it begins in. *)
Fixpoint begun (w : World) (a : Answers) (ns : list node) (st : StepState)
  : list (node * StepState) :=
  match ns with
  | [] => []
  | n :: rest =>
      (n, st)
      :: match run_subgraph w a n st with
         | Some st' => begun w a rest st'
         | None => []
         end
  end.

(** A run of the orchestrator: [check_if_skip_any_step], the router, then
    the stages along the edges. *)
Definition orchestrate (w : World) (a : Answers) (st : StepState)
  : list (node * StepState) :=
  let st1 := apply_update st (check_if_skip_any_step_node st) in
  begun w a (pipeline_from (stage_router st1)) st1.

End EntryGraph.

(** ** [agent/common.py]: the retry policy *)

Module Retry.

(** The classes [retry_on] tests for. *)
Inductive cls : Type :=
| ConnectionError
| httpx_HTTPStatusError
| requests_HTTPError
| ValueError
| TypeError
| ArithmeticError
| ImportError
| LookupError
| NameError
| SyntaxError
| RuntimeError
| ReferenceError
| StopIteration
| StopAsyncIteration
| OSError.

Record Response : Type := { status_code : Z }.

(** An exception, as far as [retry_on] looks at it: the classes among the
    above that it is an instance of, and its [response] attribute. *)
Record exc : Type := {
  isinstance : cls -> bool;
  response : option Response
}.

(** The truth value of a response of [requests]: [Response.__bool__] returns
    [self.ok], which is false exactly when [raise_for_status] would raise,
    that is for a status from 400 to 599. The test [if exc.response] is this
    truth value when there is a response and false when there is none. *)
Definition requests_ok (r : Response) : bool :=
  negb ((400 <=? status_code r) && (status_code r <? 600)).

Definition is_5xx (r : Response) : bool :=
  (500 <=? status_code r) && (status_code r <? 600).

(** The tuple of the fourth test. *)
Definition fatal_classes : list cls :=
  [ValueError; TypeError; ArithmeticError; ImportError; LookupError;
   NameError; SyntaxError; RuntimeError; ReferenceError; StopIteration;
   StopAsyncIteration; OSError].

(** [retry_on(exc)]. Reading [status_code] of a missing response raises
    [AttributeError]. *)
Definition retry_on (e : exc) : result bool :=
  if isinstance e ConnectionError then Ok true
  else if isinstance e httpx_HTTPStatusError then
    match response e with
    | Some r => Ok (is_5xx r)
    | None => Raise AttributeError
    end
  else if isinstance e requests_HTTPError then
    match response e with
    | Some r => if requests_ok r then Ok (is_5xx r) else Ok true
    | None => Ok true
    end
  else if existsb (isinstance e) fatal_classes then Ok false
  else Ok true.

(** The class hierarchy: [ConnectionError] and the [HTTPError] of [requests]
    are subclasses of [OSError], and an [HTTPStatusError] of [httpx] always
    carries its response. *)
Definition well_formed (e : exc) : Prop :=
  (isinstance e ConnectionError = true -> isinstance e OSError = true)
  /\ (isinstance e requests_HTTPError = true -> isinstance e OSError = true)
  /\ (isinstance e httpx_HTTPStatusError = true -> response e <> None).

Definition cls_eqb (a b : cls) : bool :=
  match a, b with
  | ConnectionError, ConnectionError
  | httpx_HTTPStatusError, httpx_HTTPStatusError
  | requests_HTTPError, requests_HTTPError
  | ValueError, ValueError
  | TypeError, TypeError
  | ArithmeticError, ArithmeticError
  | ImportError, ImportError
  | LookupError, LookupError
  | NameError, NameError
  | SyntaxError, SyntaxError
  | RuntimeError, RuntimeError
  | ReferenceError, ReferenceError
  | StopIteration, StopIteration
  | StopAsyncIteration, StopAsyncIteration
  | OSError, OSError => true
  | _, _ => false
  end.

(** An exception given by the list of the classes it is an instance of. *)
Definition instance_of (classes : list cls) (r : option Response) : exc :=
  {| isinstance := fun c => existsb (cls_eqb c) classes; response := r |}.

(** [requests.HTTPError(response=r)], as [raise_for_status] raises it. *)
Definition requests_http_error (status : Z) : exc :=
  instance_of [requests_HTTPError; OSError] (Some {| status_code := status |}).

(** [httpx.HTTPStatusError(..., response=r)] *)
Definition httpx_status_error (status : Z) : exc :=
  instance_of [httpx_HTTPStatusError] (Some {| status_code := status |}).

End Retry.

(** ** [agent/utils.py]: the serializer of the checkpointer *)

Module Serializer.

(** *** Dictionaries *)

Definition dict : Type := list (key * pyval).

(** [d[k] = v]: the value of a key already present is replaced where it
    stands, a new key goes to the end. *)
Fixpoint dict_set (k : key) (v : pyval) (d : dict) : dict :=
  match d with
  | [] => [(k, v)]
  | (k', v') :: rest =>
      if key_eqb k k' then (k', v) :: rest
      else (k', v') :: dict_set k v rest
  end.

(** The dictionary built from a sequence of pairs. *)
Definition dict_of (pairs : list (key * pyval)) : dict :=
  fold_left (fun d kv => dict_set (fst kv) (snd kv) d) pairs [].

Fixpoint dict_get (k : key) (d : dict) : option pyval :=
  match d with
  | [] => None
  | (k', v) :: rest => if key_eqb k k' then Some v else dict_get k rest
  end.

(** *** pandas *)

(** [frame.to_dict()]: each column label mapped to the dictionary of its
    cells by index label. *)
Definition to_dict (columns index : list key) (cells : list (list pyval))
  : pyval :=
  PDict
    (dict_of
       (map (fun cc => (fst cc, PDict (dict_of (combine index (snd cc)))))
          (combine columns cells))).

(** The inner dictionaries of a dictionary of dictionaries. *)
Fixpoint inner_dicts (d : dict) : option (list dict) :=
  match d with
  | [] => Some []
  | (_, PDict inner) :: rest =>
      match inner_dicts rest with
      | Some ds => Some (inner :: ds)
      | None => None
      end
  | _ :: _ => None
  end.

(** The union of index labels, each at its first appearance. *)
Definition add_label (seen : list key) (k : key) : list key :=
  if existsb (key_eqb k) seen then seen else (seen ++ [k])%list.

Definition union_labels (ds : list dict) : list key :=
  fold_left (fun seen d => fold_left add_label (map fst d) seen) ds [].

Definition cell (d : dict) (k : key) : pyval :=
  match dict_get k d with
  | Some v => v
  | None => PNaN
  end.

Section Pandas.

(** [pd.DataFrame.from_dict] on anything but a dictionary of dictionaries. *)
Variable from_dict_other : pyval -> result pyval.

(** [pd.DataFrame.from_dict(data)]: on a dictionary of dictionaries the keys
    are the columns, the index is the union of the inner keys, and a cell
    that an inner dictionary lacks is missing. *)
Definition from_dict (data : pyval) : result pyval :=
  match data with
  | PDict d =>
      match inner_dicts d with
      | Some ds =>
          let index := union_labels ds in
          Ok (PFrame (map fst d) index
                (map (fun inner => map (cell inner) index) ds))
      | None => from_dict_other data
      end
  | _ => from_dict_other data
  end.

(** *** pickle *)

Variable bytes : Type.
Variable pickle_dumps : pyval -> bytes.
Variable pickle_loads : bytes -> pyval.

(** *** [CustomSerializer] *)

Definition dumps (obj : pyval) : bytes :=
  match obj with
  | PFrame columns index cells =>
      pickle_dumps (PTuple [PStr "DataFrame"; to_dict columns index cells])
  | _ => pickle_dumps obj
  end.

Definition dumps_typed (obj : pyval) : string * bytes :=
  match obj with
  | PFrame columns index cells =>
      ("DataFrame", pickle_dumps (to_dict columns index cells))
  | _ => ("pickle", pickle_dumps obj)
  end.

(** The truth value of [v == "DataFrame"]. On a frame the comparison is
    made cell by cell and gives a frame, whose truth value pandas refuses
    with a [ValueError]; on any other value it is a boolean. *)
Definition is_marker (v : pyval) : result bool :=
  match v with
  | PStr s => Ok (String.eqb s "DataFrame")
  | PFrame _ _ _ =>
      Raise (ValueError "The truth value of a DataFrame is ambiguous.")
  | _ => Ok false
  end.

Definition loads (data : bytes) : result pyval :=
  let obj := pickle_loads data in
  match obj with
  | PTuple items =>
      first <- PyStr.index items 0 ;;
      marked <- is_marker first ;;
      if marked then
        second <- PyStr.index items 1 ;;
        from_dict second
      else Ok obj
  | _ => Ok obj
  end.

Definition loads_typed (data : string * bytes) : result pyval :=
  let (type_str, bytes_data) := data in
  if String.eqb type_str "DataFrame"
  then from_dict (pickle_loads bytes_data)
  else Ok (pickle_loads bytes_data).

End Pandas.

(** A frame as pandas builds it: one list of cells per column, each as long
    as the index. *)
Definition frame_ok (columns index : list key) (cells : list (list pyval))
  : Prop :=
  List.length cells = List.length columns
  /\ Forall (fun col => List.length col = List.length index) cells.

Definition is_frame (v : pyval) : bool :=
  match v with
  | PFrame _ _ _ => true
  | _ => false
  end.

(** The pickle that keeps the value itself: the simplest one that reads
    back what it wrote. *)
Definition keep_dumps (v : pyval) : pyval := v.
Definition keep_loads (b : pyval) : pyval := b.

(** A pandas that refuses anything but a dictionary of dictionaries. *)
Definition refuse (v : pyval) : result pyval :=
  Raise (ValueError "not a dictionary of dictionaries").

End Serializer.

(** ** [agent/utils.py]: the files of the sandbox *)

Module Loader.
Import State Utils.

(** [s.endswith(suffix)] *)
Definition endswith (suffix s : string) : bool :=
  prefix (PyStr.rev suffix) (PyStr.rev s).

(** [os.path.join(a, b)] on POSIX. *)
Definition path_join (a b : string) : string :=
  if prefix "/" b then b
  else if String.eqb a "" || endswith "/" a then a ++ b
  else a ++ "/" ++ b.

(** What writes the values out: pandas, json and pickle. [json_dumps] is
    [json.dumps(variable, indent=2, default=str)], which raises on a value
    it cannot write. *)
Record Writers : Type := {
  to_csv : pyval -> string;
  json_dumps : pyval -> result string;
  pickle_latin1 : pyval -> string
}.

(** [filename_key], with the extension added unless it ends with it. *)
Definition with_extension (ext filename_key : string) : string :=
  if endswith ext filename_key then filename_key else filename_key ++ ext.

(** [upload_file_to_e2b_sandbox(sandbox, variable, filename_key)]: the path
    it returns and the content it writes there. [variables_dir] is the
    environment variable [E2B_VARIABLES_DIR]. *)
Definition upload_file_to_e2b_sandbox (ws : Writers)
    (variables_dir : option string) (variable : pyval)
    (filename_key : string) : result (string * string) :=
  let dataframe_dir :=
    match variables_dir with
    | Some d => d
    | None => "/tmp"
    end in
  match variable with
  | PFrame _ _ _ =>
      Ok (path_join dataframe_dir (with_extension ".csv" filename_key),
          to_csv ws variable)
  | PList _ | PDict _ | PTuple _ =>
      match json_dumps ws variable with
      | Ok file_content =>
          Ok (path_join dataframe_dir (with_extension ".json" filename_key),
              file_content)
      | Raise _ =>
          Ok (path_join dataframe_dir (with_extension ".pkl" filename_key),
              pickle_latin1 ws variable)
      end
  | PStr s =>
      Ok (path_join dataframe_dir (with_extension ".txt" filename_key), s)
  | _ => Raise (ValueError "Unsupported data type")
  end.

(** One line of the loading script. *)
Definition load_line (variable : Data) (file_path : string) : result string :=
  match type variable with
  | DATAFRAME =>
      Ok (key variable ++ " = pd.read_csv('" ++ file_path ++ "')")
  | JSON =>
      Ok ("with open('" ++ file_path ++ "', 'r') as f: " ++ key variable
          ++ " = json.load(f)")
  | TEXT | STRING =>
      Ok (key variable ++ " = open('" ++ file_path ++ "', 'r').read()")
  | PNG => Raise (ValueError "Unsupported data type")
  end.

Fixpoint load_lines (pairs : list (Data * string)) : result (list string) :=
  match pairs with
  | [] => Ok []
  | (variable, file_path) :: rest =>
      line <- load_line variable file_path ;;
      lines <- load_lines rest ;;
      Ok (line :: lines)
  end.

Definition header : list string := ["import pandas as pd"; "import json"].

(** [get_code_to_load_uploaded_file(variables, file_paths)] *)
Definition get_code_to_load_uploaded_file (variables : list Data)
    (file_paths : list string) : result string :=
  lines <- load_lines (combine variables file_paths) ;;
  Ok (PyStr.join nl (header ++ lines)%list).

(** The value of a member of [DataType]. *)
Definition type_value (t : DataType) : string :=
  match t with
  | DATAFRAME => "dataframe"
  | JSON => "json"
  | TEXT => "text"
  | STRING => "string"
  | PNG => "png"
  end.

(** The loop of [init_e2b_sandbox] that uploads every variable under the
    name [key.type]. *)
Fixpoint upload_all (ws : Writers) (variables_dir : option string)
    (variables : list Data) : result (list (string * string)) :=
  match variables with
  | [] => Ok []
  | variable :: rest =>
      file <- upload_file_to_e2b_sandbox ws variables_dir (value variable)
                (key variable ++ "." ++ type_value (type variable)) ;;
      files <- upload_all ws variables_dir rest ;;
      Ok (file :: files)
  end.

(** The script [init_e2b_sandbox] runs in the sandbox. *)
Definition bootstrap_code (ws : Writers) (variables_dir : option string)
    (variables : list Data) : result string :=
  files <- upload_all ws variables_dir variables ;;
  get_code_to_load_uploaded_file variables (map fst files).

End Loader.

(** * Properties *)

(** ** Strings *)

Module PyStrFacts.
Import PyStr.

Lemma length_append (a b : string) :
  String.length (a ++ b) = (String.length a + String.length b)%nat.
Proof.
  induction a as [|c a IH]; simpl; [reflexivity | now rewrite IH].
Qed.

Lemma append_assoc (a b c : string) : ((a ++ b) ++ c = a ++ (b ++ c))%string.
Proof.
  induction a as [|x a IH]; simpl; [reflexivity | now rewrite IH].
Qed.

Lemma length_substring (s : string) (n m : nat) :
  (n + m <= String.length s)%nat -> String.length (substring n m s) = m.
Proof.
  revert n m; induction s as [|c s IH]; intros n m H; simpl in *.
  - destruct n, m; simpl in *; try lia; reflexivity.
  - destruct n as [|n].
    + destruct m as [|m]; simpl; [reflexivity|].
      f_equal. apply IH. lia.
    + apply IH. lia.
Qed.

Lemma substring_all (s : string) : substring 0 (String.length s) s = s.
Proof.
  induction s as [|c s IH]; simpl; [reflexivity | now rewrite IH].
Qed.

Lemma len_nonneg (s : string) : 0 <= len s.
Proof. unfold len; lia. Qed.

(** A slice that starts at the beginning and stops at [k], within bounds. *)
Lemma slice_head (s : string) (k : Z) :
  0 <= k <= len s ->
  slice s None (Some k) = substring 0 (Z.to_nat k) s.
Proof.
  intros H. unfold slice, clip.
  destruct (k <? 0) eqn:E; [apply Z.ltb_lt in E; lia|].
  rewrite Z.min_l by lia. now rewrite Z.sub_0_r.
Qed.

(** A slice of the last [k] characters, for a positive [k] within bounds. *)
Lemma slice_tail (s : string) (k : Z) :
  0 < k <= len s ->
  slice s (Some (- k)) None
  = substring (Z.to_nat (len s - k)) (Z.to_nat k) s.
Proof.
  intros H. unfold slice, clip.
  destruct (- k <? 0) eqn:E; [|apply Z.ltb_ge in E; lia].
  rewrite Z.max_l by lia.
  replace (- k + len s) with (len s - k) by lia.
  replace (len s - (len s - k)) with k by lia. reflexivity.
Qed.

(** [s[-0:]] is the whole of [s]. *)
Lemma slice_tail_zero (s : string) : slice s (Some (- 0)) None = s.
Proof.
  unfold slice, clip. simpl. rewrite Z.min_l by apply len_nonneg.
  rewrite Z.sub_0_r. unfold len. rewrite Nat2Z.id. apply substring_all.
Qed.

Lemma len_slice_head (s : string) (k : Z) :
  0 <= k <= len s -> len (slice s None (Some k)) = k.
Proof.
  intros H. rewrite slice_head by assumption. unfold len in *.
  rewrite length_substring; lia.
Qed.

Lemma len_slice_tail (s : string) (k : Z) :
  0 < k <= len s -> len (slice s (Some (- k)) None) = k.
Proof.
  intros H. rewrite slice_tail by assumption. unfold len in *.
  rewrite length_substring; lia.
Qed.

End PyStrFacts.

(** ** [truncate_string_middle] *)

Module TruncateFacts.
Import PyStr PyStrFacts Utils.

(** A string within the budget comes back unchanged. *)
Lemma truncate_within_budget (s : string) (max_length : Z) :
  len s <= max_length -> truncate_string_middle s max_length = s.
Proof.
  intros H. unfold truncate_string_middle.
  destruct (len s <=? max_length) eqn:E; [reflexivity|].
  apply Z.leb_gt in E. lia.
Qed.

(** Beyond the budget the result is the head, the annotation with
    [len(s) - max_length], and the tail. *)
Lemma truncate_beyond_budget (s : string) (max_length : Z) :
  max_length < len s ->
  truncate_string_middle s max_length
  = slice s None (Some (max_length / 2))
    ++ annotation (len s - max_length)
    ++ slice s (Some (- (max_length / 2))) None.
Proof.
  intros H. unfold truncate_string_middle, annotation.
  destruct (len s <=? max_length) eqn:E; [apply Z.leb_le in E; lia|].
  now rewrite !append_assoc.
Qed.

(** For an even budget of at least 2, both ends have half the budget and
    the number reported is the number of characters left out. *)
Lemma truncate_even_budget (s : string) (half : Z) :
  0 < half -> 2 * half < len s ->
  truncate_string_middle s (2 * half)
  = slice s None (Some half) ++ annotation (len s - 2 * half)
    ++ slice s (Some (- half)) None
  /\ len (slice s None (Some half)) = half
  /\ len (slice s (Some (- half)) None) = half
  /\ len s - 2 * half
     = len s - (len (slice s None (Some half))
                + len (slice s (Some (- half)) None)).
Proof.
  intros Hh Hl.
  assert (Hd : 2 * half / 2 = half)
    by (rewrite Z.mul_comm; apply Z.div_mul; lia).
  rewrite truncate_beyond_budget by lia. rewrite Hd.
  rewrite len_slice_head by lia. rewrite len_slice_tail by lia.
  repeat split; lia.
Qed.

(** The case of the specification: 5,000 characters, a budget of 1,000. *)
Lemma truncate_5000_1000 (s : string) :
  len s = 5000 ->
  truncate_string_middle s 1000
  = slice s None (Some 500) ++ annotation 4000 ++ slice s (Some (- 500)) None
  /\ len (slice s None (Some 500)) = 500
  /\ len (slice s (Some (- 500)) None) = 500
  /\ len (truncate_string_middle s 1000) = 1041.
Proof.
  intros H.
  destruct (truncate_even_budget s 500) as (E & Hh & Ht & _); try lia.
  change (2 * 500) with 1000 in E. rewrite H in E.
  change (5000 - 1000) with 4000 in E.
  repeat split; try assumption.
  rewrite E. unfold len in *. rewrite !length_append.
  rewrite Nat2Z.inj_add, Nat2Z.inj_add, Hh, Ht. reflexivity.
Qed.

(** Every budget the program passes is even and at least 2. *)
Lemma budgets_even (max_length : Z) :
  In max_length budgets -> Z.even max_length = true /\ 2 <= max_length.
Proof.
  intros [<-|[<-|[]]]; split; try reflexivity; vm_compute; discriminate.
Qed.

(** A traceback of 5,000 characters. *)
Definition long_traceback : string :=
  string_of_list_ascii (repeat "x"%char 5000).

(** C10. A string within the budget comes back unchanged. Beyond an even
    budget of at least 2, as is every budget the program passes, the result
    is the first [max_length // 2] characters of the string, the annotation
    with [len(s) - max_length], and the last [max_length // 2] characters,
    and the number the annotation reports is the number of characters left
    out. With 5,000 characters and a budget of 1,000 the two ends have 500
    characters each, 4,000 characters are reported and the result has 1,041
    characters. *)
Theorem truncate_keeps_head_and_tail :
  (forall s max_length,
     len s <= max_length -> truncate_string_middle s max_length = s)
  /\ (forall s max_length,
        Z.even max_length = true -> 2 <= max_length ->
        max_length < len s ->
        let half := max_length / 2 in
        let head := substring 0 (Z.to_nat half) s in
        let tail := substring (Z.to_nat (len s - half)) (Z.to_nat half) s in
        truncate_string_middle s max_length
        = head ++ annotation (len s - max_length) ++ tail
        /\ len head = half /\ len tail = half
        /\ len s - max_length = len s - (len head + len tail))
  /\ (forall s,
        len s = 5000 ->
        truncate_string_middle s 1000
        = substring 0 500 s ++ annotation 4000 ++ substring 4500 500 s
        /\ len (truncate_string_middle s 1000) = 1041)
  /\ (forall max_length,
        In max_length budgets ->
        Z.even max_length = true /\ 2 <= max_length).
Proof.
  split; [exact truncate_within_budget|].
  split; [|split; [|exact budgets_even]].
  - intros s max_length He Hm Hl half head tail.
    assert (Hd : max_length = 2 * half).
    { subst half. apply Z.even_spec in He. destruct He as [k ->].
      rewrite Z.mul_comm, Z.div_mul by lia. lia. }
    assert (Hh : 0 < half) by lia.
    destruct (truncate_even_budget s half Hh) as (E & A & B & C); [lia|].
    rewrite <- Hd in E, C.
    rewrite slice_head in E, A, C by lia.
    rewrite slice_tail in E, B, C by lia.
    repeat split; assumption.
  - intros s H.
    destruct (truncate_5000_1000 s H) as (E & _ & _ & L).
    split; [|exact L].
    rewrite E. rewrite slice_head by lia.
    change (Some (-500)) with (Some (Z.opp 500)).
    rewrite slice_tail by lia. rewrite H. reflexivity.
Qed.

Lemma truncate_keeps_head_and_tail_witness :
  truncate_string_middle long_traceback 1000
  = substring 0 500 long_traceback ++ annotation 4000
    ++ substring 4500 500 long_traceback
  /\ len (truncate_string_middle long_traceback 1000) = 1041.
Proof.
  apply (proj1 (proj2 (proj2 truncate_keeps_head_and_tail)) long_traceback).
  vm_compute. reflexivity.
Defined.

(** On an odd budget, which the program never passes, the number reported
    is one less than the number of characters left out. With
    ["abcdefghij"] and a budget of 5 the two ends keep 4 characters and
    leave 6 out, and the annotation reports 5. *)
Lemma truncate_odd_budget_reports_one_less :
  truncate_string_middle "abcdefghij" 5
  = "ab ... [TRUNCATED, 5 chars omitted] ... ij"
  /\ len "abcdefghij" - (len "ab" + len "ij") = 6.
Proof. split; reflexivity. Qed.

(** With a budget of 1 the tail [s[-0:]] is the whole string: nothing is
    left out, and the annotation reports 4 characters. *)
Lemma truncate_budget_one_keeps_all :
  truncate_string_middle "abcde" 1
  = " ... [TRUNCATED, 4 chars omitted] ... abcde".
Proof. reflexivity. Qed.

End TruncateFacts.

(** ** The current step and the router of the orchestrator *)

Module RouterFacts.
Import State Utils Common EntryGraph.

Lemma min_by_spec {A : Type} (f : A -> Z) (rest : list A) (x : A) :
  In (min_by f x rest) (x :: rest)
  /\ forall y, In y (x :: rest) -> f (min_by f x rest) <= f y.
Proof.
  unfold min_by. revert x.
  induction rest as [|z rest IH]; intros x; simpl.
  - split; [now left|]. intros y [<-|[]]. lia.
  - destruct (IH (if f z <? f x then z else x)) as [Hin Hle].
    split.
    + destruct Hin as [Hin|Hin]; [|now right; right].
      rewrite <- Hin. destruct (f z <? f x); [right; now left | now left].
    + intros y Hy.
      assert (Hb : f (if f z <? f x then z else x) <= f x
                   /\ f (if f z <? f x then z else x) <= f z).
      { destruct (f z <? f x) eqn:E;
          [apply Z.ltb_lt in E | apply Z.ltb_ge in E]; lia. }
      specialize (Hle (if f z <? f x then z else x) (or_introl eq_refl)).
      destruct Hy as [<-|[<-|Hy]]; try lia.
      apply (IH (if f z <? f x then z else x)). now right.
Qed.

(** No step is current exactly when every step is completed. *)
Lemma get_current_step_none (plan : list Step) :
  get_current_step plan = None
  <-> forall step, In step plan -> completed step = true.
Proof.
  unfold get_current_step.
  destruct (filter (fun step => negb (completed step)) plan) as [|s rest] eqn:E.
  - split; [|reflexivity]. intros _ step Hin.
    destruct (completed step) eqn:C; [reflexivity|].
    assert (H : In step (filter (fun step => negb (completed step)) plan))
      by (apply filter_In; split; [assumption | now rewrite C]).
    rewrite E in H. destruct H.
  - split; [discriminate|]. intros H.
    assert (Hs : In s (filter (fun step => negb (completed step)) plan))
      by (rewrite E; now left).
    apply filter_In in Hs. destruct Hs as [Hin Hc].
    rewrite (H s Hin) in Hc. discriminate.
Qed.

(** The current step is a step of the plan, not completed, and no step that
    is not completed has a smaller order. *)
Lemma get_current_step_some (plan : list Step) (cur : Step) :
  get_current_step plan = Some cur ->
  In cur plan /\ completed cur = false
  /\ forall step, In step plan -> completed step = false ->
                  order cur <= order step.
Proof.
  unfold get_current_step.
  destruct (filter (fun step => negb (completed step)) plan) as [|s rest] eqn:E;
    [discriminate|].
  intros H. injection H as <-.
  destruct (min_by_spec order rest s) as [Hin Hle].
  rewrite <- E in Hin.
  apply filter_In in Hin. destruct Hin as [Hin Hc].
  split; [assumption|]. split.
  - now destruct (completed (min_by order s rest)).
  - intros step Hs Hn. apply Hle. rewrite <- E.
    apply filter_In. split; [assumption | now rewrite Hn].
Qed.

(** The node the router names for a current step of a given order. *)
Definition stage_of_order (k : Z) : node :=
  if k =? 1 then step_1_define_objective
  else if k =? 2 then step_2_data_cleaning
  else if k =? 3 then step_3_data_exploration
  else if k =? 4 then step_4_data_analysis
  else if k =? 5 then step_5_write_report
  else END.

Lemma stage_router_current (st : StepState) :
  stage_router st
  = match get_current_step (steps st) with
    | None => END
    | Some cur => stage_of_order (order cur)
    end.
Proof. reflexivity. Qed.

Lemma stage_of_order_number (k : Z) :
  stage_of_order k <> END -> stage_number (stage_of_order k) = k.
Proof.
  unfold stage_of_order.
  destruct (k =? 1) eqn:E1; [apply Z.eqb_eq in E1; now subst|].
  destruct (k =? 2) eqn:E2; [apply Z.eqb_eq in E2; now subst|].
  destruct (k =? 3) eqn:E3; [apply Z.eqb_eq in E3; now subst|].
  destruct (k =? 4) eqn:E4; [apply Z.eqb_eq in E4; now subst|].
  destruct (k =? 5) eqn:E5; [apply Z.eqb_eq in E5; now subst|].
  intros H. now contradict H.
Qed.

(** The stages that begin are the first ones of the pipeline of the node the
    router names, in its order. *)
Lemma begun_prefix (w : World) (a : Answers) (ns : list node)
    (st : StepState) :
  exists rest, ns = (map fst (begun w a ns st) ++ rest)%list.
Proof.
  revert st. induction ns as [|n ns IH]; intros st; simpl.
  - now exists [].
  - destruct (run_subgraph w a n st) as [st'|].
    + destruct (IH st') as [rest Hr]. exists rest. simpl. now rewrite <- Hr.
    + now exists ns.
Qed.

End RouterFacts.

Module Orchestrator.
Import State Utils Common EntryGraph RouterFacts.

(** A world in which pandas accepts any data as it is, and a field declared
    [Optional[...]] without a default is required, as in pydantic 2. *)
Definition plain_world : World :=
  {| pd_DataFrame := fun v => Ok v;
     py_str := fun _ => "";
     head3_to_string := fun _ => "";
     optional_field_required := true |}.

(** The same world with a library that fills in [None] for such a field
    when it is left out. *)
Definition lenient_world : World :=
  {| pd_DataFrame := fun v => Ok v;
     py_str := fun _ => "";
     head3_to_string := fun _ => "";
     optional_field_required := false |}.

(** The input of a run: an objective, no variable, nothing skipped. *)
Definition fresh_input : StepState :=
  Steps.enter "objective" [] false false "" get_default_steps "".

(** The model finds the request answerable and specific at once. *)
Definition request_accepted : Step1.Outside :=
  {| Step1.system_prompt := "";
     Step1.response :=
       {| Step1.chain_of_thought := "";
          Step1.is_request_answerable := true;
          Step1.is_request_specific := true;
          Step1.schema_message_to_user := "" |};
     Step1.user_response := "";
     Step1.new_objective := "";
     Step1.checklist_verdict :=
       {| chain_of_thought_summary := ""; pass_the_validation := true;
          message_to_user := None |} |}.

Definition first_stage_accepts : Answers :=
  {| answers_1 := [request_accepted; request_accepted];
     answers_2 := []; answers_3 := []; answers_4 := []; answer_5 := "" |}.

(** Every stage that begins finds the steps of smaller order completed. *)
Definition begins_in_order (trace : list (node * StepState)) : Prop :=
  forall n st step,
    In (n, st) trace -> In step (steps st) ->
    order step < stage_number n -> completed step = true.

(** Where the state class of the first stage accepts a state without a
    checklist result, the first stage runs; it writes no step, and the edge
    from it starts the second stage: on a fresh input the sub-graph of
    stage 2 begins while the step of order 1 is not completed. *)
Lemma stage_2_begins_before_stage_1_completes :
  optional_field_required lenient_world = false
  /\ ~ begins_in_order
        (orchestrate lenient_world first_stage_accepts fresh_input).
Proof.
  split; [reflexivity|]. intros H.
  specialize (H step_2_data_cleaning fresh_input
                {| order := 1; name := "Define the Objective";
                   description := "Understand the problem and set goals";
                   completed := false; report := "" |}).
  assert (C : false = true); [|discriminate C].
  apply H.
  - vm_compute. right. left. reflexivity.
  - simpl. left. reflexivity.
  - simpl. lia.
Qed.

End Orchestrator.

(** ** The agent node *)

Module AgentFacts.
Import State Utils Common Steps.

Definition history_length (st : StepState) : Z :=
  Z.of_nat (List.length (step_message_history st)).

(** A state whose history holds [n] messages. *)
Definition with_history (n : nat) : StepState :=
  apply_update (enter "objective" [] false false "" get_default_steps "")
    [W_step_message_history (repeat (HumanMessage "Okay, let's start.") n)].

(** A response with a fenced block of code and, after it, the marker. *)
Definition code_then_done : Message :=
  AIMessage (fence_python ++ nl ++ "df.dropna()" ++ nl ++ fence ++ nl
             ++ nl ++ "DONE").

(** The commands of the three cases. *)
Definition to_executor (response : Message) (code : string) : Command :=
  {| goto := [python_executor];
     update := [W_step_message_history [response]; W_code_block code] |}.

Definition to_validators (response : Message)
    (variable_list : list VariableToSave) : Command :=
  {| goto := [checklist_validator; critic_validator];
     update := [W_variables_to_save variable_list;
                W_step_message_history [response]] |}.

Definition to_agent_again (response : Message) : Command :=
  {| goto := [agent];
     update := [W_step_message_history [response; corrective_message]] |}.

(** C2, as stated, fails. In stage 2, with 61 messages in the history, the
    agent names [save_variables], not the two validators. *)
Lemma over_limit_skips_validators :
  history_length (with_history 61)
  > 2 * MAX_MESSAGE_TURN step_2_data_cleaning
  /\ goto (get_code_agent_node (MAX_MESSAGE_TURN step_2_data_cleaning)
             (agent_next_node_name step_2_data_cleaning)
             (with_history 61) code_then_done [])
     = [save_variables]
  /\ goto (get_code_agent_node (MAX_MESSAGE_TURN step_2_data_cleaning)
             (agent_next_node_name step_2_data_cleaning)
             (with_history 61) code_then_done [])
     <> [checklist_validator; critic_validator].
Proof.
  split; [vm_compute; reflexivity|].
  split; [vm_compute; reflexivity|].
  vm_compute. discriminate.
Qed.

(** The state of the first stage after [n] rounds with the user: the two
    messages of [init_message_history] and two more for every round. *)
Definition first_stage_history (n : nat) : StepState :=
  apply_update (enter "objective" [] false false "" get_default_steps "")
    [W_step_message_history
       (SystemMessage "" :: HumanMessage "User request: objective"
        :: List.concat
             (repeat [AIMessage ""; Step1.objective_message "" ""] n))].

(** C2, amended. Beyond the limit the agent of a stage asks no model: it
    appends the message about the limit and names the node the stage file
    passed as its next node, which in stages 2, 3 and 4 is
    [save_variables], whatever the response. The agent of the first stage,
    whose limit is its own, names the end and appends nothing, whatever the
    model answers. *)
Theorem over_limit_goes_to_next_node :
  (forall sg st response variable_list,
     In sg stages ->
     history_length st > 2 * MAX_MESSAGE_TURN sg ->
     get_code_agent_node (MAX_MESSAGE_TURN sg) (agent_next_node_name sg) st
       response variable_list
     = {| goto := [save_variables];
          update := [W_step_message_history [limit_message]] |})
  /\ (forall st response user_response new_objective,
        history_length st > 2 * Step1.MAX_MESSAGE_TURN ->
        Step1.agent_node st response user_response new_objective
        = {| Step1.goto1 := [Step1.END]; Step1.update1 := [] |}).
Proof.
  split.
  - intros sg st response variable_list Hsg Hlen.
    unfold get_code_agent_node. unfold history_length in Hlen.
    destruct (Z.of_nat (List.length (step_message_history st))
              >? 2 * MAX_MESSAGE_TURN sg) eqn:E.
    + destruct Hsg as [<-|[<-|[<-|[]]]]; reflexivity.
    + rewrite Z.gtb_ltb in E. apply Z.ltb_ge in E. lia.
  - intros st r u o H. unfold Step1.agent_node. unfold history_length in H.
    destruct (Z.of_nat (List.length (step_message_history st))
              >? 2 * Step1.MAX_MESSAGE_TURN) eqn:E; [reflexivity|].
    rewrite Z.gtb_ltb in E. apply Z.ltb_ge in E. lia.
Qed.

(** Stage 2 with 61 messages, and the first stage after three rounds with
    the user, with 8 messages. *)
Lemma over_limit_goes_to_next_node_witness :
  get_code_agent_node (MAX_MESSAGE_TURN step_2_data_cleaning)
    (agent_next_node_name step_2_data_cleaning) (with_history 61)
    code_then_done []
  = {| goto := [save_variables];
       update := [W_step_message_history [limit_message]] |}
  /\ Step1.agent_node (first_stage_history 3)
       (Step1.response Orchestrator.request_accepted) "" ""
     = {| Step1.goto1 := [Step1.END]; Step1.update1 := [] |}.
Proof.
  split.
  - apply (proj1 over_limit_goes_to_next_node step_2_data_cleaning
             (with_history 61) code_then_done []).
    + simpl. left. reflexivity.
    + vm_compute. reflexivity.
  - apply (proj2 over_limit_goes_to_next_node (first_stage_history 3)).
    vm_compute. reflexivity.
Defined.

(** C3, as stated, fails. Below the limit, a response with a fenced block
    of code followed by DONE goes to the validators, not to the executor. *)
Lemma code_with_done_goes_to_validators :
  content code_then_done
  = fence_python ++ nl ++ "df.dropna()" ++ nl ++ fence ++ nl ++ nl ++ "DONE"
  /\ get_code_agent_node 30 save_variables (with_history 2) code_then_done []
     = to_validators code_then_done []
  /\ goto (get_code_agent_node 30 save_variables (with_history 2)
             code_then_done [])
     <> [python_executor].
Proof.
  split; [reflexivity|].
  split; [vm_compute; reflexivity|].
  vm_compute. discriminate.
Qed.

End AgentFacts.

(** ** The runs of a stage sub-graph *)

Module StageFacts.
Import State Utils Common Steps.

(** Both validators have spoken: a checklist result is there, and a list of
    critic results that is not empty. *)
Definition validated (st : StepState) : Prop :=
  checklist_validation_result st <> None
  /\ exists rs, critic_validation_result st = Some rs /\ rs <> [].

(** The agent has hit the limit of messages. *)
Definition limit_hit (st : StepState) : Prop :=
  In limit_message (step_message_history st).

(** The stage file passes [save_variables] as the next node of both the
    agent and the rendezvous. *)
Definition wired (sg : Stage) : Prop :=
  agent_next_node_name sg = save_variables
  /\ rendevous_next_node_name sg = save_variables.

Lemma stages_wired (sg : Stage) : In sg stages -> wired sg.
Proof. intros [<-|[<-|[<-|[]]]]; split; reflexivity. Qed.

(** What holds of a configuration of a run, by the nodes that run next. *)
Definition invariant (sg : Stage) (c : Config) : Prop :=
  match active c with
  | [init_e2b_sandbox] | [init_message_history] | [agent]
  | [python_executor] | [checklist_validator; critic_validator] =>
      stage_completed (stage_order sg) (steps (state c)) = false
  | [rendevous] =>
      validated (state c)
      /\ stage_completed (stage_order sg) (steps (state c)) = false
  | [save_variables] | [write_step_report] =>
      (validated (state c) \/ limit_hit (state c))
      /\ stage_completed (stage_order sg) (steps (state c)) = false
  | [] => validated (state c) \/ limit_hit (state c)
  | _ => False
  end.

Lemma validated_history (st : StepState) (ms : list Message) :
  validated st -> validated (apply_write st (W_step_message_history ms)).
Proof. intros H; exact H. Qed.

Lemma limit_hit_history (st : StepState) (ms : list Message) :
  limit_hit st -> limit_hit (apply_write st (W_step_message_history ms)).
Proof. unfold limit_hit; simpl; intros H. apply in_or_app. now left. Qed.

Lemma agent_step (sg : Stage) (st : StepState) (r : Message)
    (vs : list VariableToSave) :
  wired sg ->
  let cmd := get_code_agent_node (MAX_MESSAGE_TURN sg)
               (agent_next_node_name sg) st r vs in
  steps (apply_update st (update cmd)) = steps st
  /\ (goto cmd = [save_variables] /\ limit_hit (apply_update st (update cmd))
      \/ goto cmd = [python_executor]
      \/ goto cmd = [checklist_validator; critic_validator]
      \/ goto cmd = [agent]).
Proof.
  intros [Ha _] cmd. subst cmd. unfold get_code_agent_node. rewrite Ha.
  destruct (Z.of_nat (List.length (step_message_history st))
            >? 2 * MAX_MESSAGE_TURN sg).
  - split; [reflexivity|]. left. split; [reflexivity|].
    unfold limit_hit. simpl. apply in_or_app. right. now left.
  - destruct (extract_code_block (content r)) as [[|ch rest]|];
      try destruct (PyStr.contains "DONE" (content r));
      split; try reflexivity; auto.
Qed.

Lemma rendevous_step (sg : Stage) (st : StepState) (input : string)
    (cmd : Command) :
  wired sg ->
  get_rendevous_node (rendevous_next_node_name sg) agent (step_name sg) st
    input = Ok cmd ->
  steps (apply_update st (update cmd)) = steps st
  /\ (goto cmd = [save_variables]
      /\ (validated st -> validated (apply_update st (update cmd)))
      \/ goto cmd = [agent]).
Proof.
  intros [_ Hr]. rewrite Hr. unfold get_rendevous_node, route_on_validation.
  destruct (use_human_in_the_loop st).
  - destruct (interrupt_payload (step_name sg) st); simpl; [|discriminate].
    destruct (String.eqb (PyStr.lower input) "ignore").
    { intros H; injection H as <-. split; [reflexivity|]. left. auto. }
    destruct (String.eqb (PyStr.lower input) "pass"
              || String.eqb (PyStr.strip input) "").
    + destruct (checklist_passed st && all_critics_passed st);
        intros H; injection H as <-; split; try reflexivity; auto.
    + intros H; injection H as <-. split; [reflexivity|]. now right.
  - destruct (checklist_passed st && all_critics_passed st);
      intros H; injection H as <-; split; try reflexivity; auto.
Qed.

Lemma executor_step (w : World) (st : StepState) (e : Execution)
    (cmd : Command) :
  get_python_executor_node w st e = Ok cmd ->
  goto cmd = [agent] /\ steps (apply_update st (update cmd)) = steps st.
Proof.
  unfold get_python_executor_node.
  destruct (execution_content w e); simpl; [|discriminate].
  intros H; injection H as <-. split; reflexivity.
Qed.

Lemma save_step (w : World) (st : StepState) (f : string -> Execution)
    (cmd : Command) :
  get_save_variables_node w st f = Ok cmd ->
  goto cmd = []
  /\ steps (apply_update st (update cmd)) = steps st
  /\ (validated st -> validated (apply_update st (update cmd)))
  /\ (limit_hit st -> limit_hit (apply_update st (update cmd))).
Proof.
  unfold get_save_variables_node.
  destruct (collect_variables w f (variables_to_save st)); simpl;
    [|discriminate].
  intros H; injection H as <-.
  split; [reflexivity|]. split; [reflexivity|].
  split; intros X; exact X.
Qed.

Lemma sandbox_step (st : StepState) (s : result string) (e : Execution)
    (cmd : Command) :
  get_init_e2b_sandbox_node st s e = Ok cmd ->
  goto cmd = [] /\ steps (apply_update st (update cmd)) = steps st.
Proof.
  unfold get_init_e2b_sandbox_node.
  destruct s; simpl; [|discriminate].
  destruct (forallb loadable (variables st)); [|discriminate].
  destruct (error e); [discriminate|].
  intros H; injection H as <-. split; reflexivity.
Qed.

(** Every superstep keeps the invariant. *)
Lemma invariant_step (w : World) (sg : Stage) (o : Outside) (c c' : Config) :
  wired sg -> invariant sg c -> superstep w sg o c = Ok c' ->
  invariant sg c'.
Proof.
  intros Hw Hi Hs. destruct c as [st act]. unfold invariant in Hi.
  unfold superstep in Hs. simpl in Hi, Hs.
  destruct act as [|n [|m [|k rest]]].
  - simpl in Hs. injection Hs as <-. exact Hi.
  - destruct n; try contradiction; simpl in Hs.
    + (* init_e2b_sandbox *)
      destruct (get_init_e2b_sandbox_node st (session o) (bootstrap o))
        as [cmd|] eqn:E; simpl in Hs; [|discriminate].
      destruct (sandbox_step _ _ _ _ E) as [G S].
      injection Hs as <-. unfold invariant, successors. simpl.
      rewrite G. simpl. now rewrite S.
    + (* init_message_history *)
      injection Hs as <-. exact Hi.
    + (* agent *)
      injection Hs as <-.
      destruct (agent_step sg st (response o) (variable_list o) Hw)
        as [S G].
      unfold invariant, successors. simpl.
      destruct G as [[G L]|[G|[G|G]]]; rewrite G; simpl; rewrite S; auto.
    + (* python_executor *)
      destruct (get_python_executor_node w st (execution o)) as [cmd|] eqn:E;
        simpl in Hs; [|discriminate].
      destruct (executor_step _ _ _ _ E) as [G S].
      injection Hs as <-. unfold invariant, successors. simpl.
      rewrite G. simpl. now rewrite S.
    + (* rendevous *)
      destruct (get_rendevous_node (rendevous_next_node_name sg) agent
                  (step_name sg) st (user_input o)) as [cmd|] eqn:E;
        simpl in Hs; [|discriminate].
      destruct (rendevous_step _ _ _ _ Hw E) as [S G].
      destruct Hi as [V C].
      injection Hs as <-. unfold invariant, successors. simpl.
      destruct G as [[G K]|G]; rewrite G; simpl; rewrite S; auto.
    + (* save_variables *)
      destruct (get_save_variables_node w st (run_code o)) as [cmd|] eqn:E;
        simpl in Hs; [|discriminate].
      destruct (save_step _ _ _ _ E) as (G & S & V & L).
      destruct Hi as [VL C].
      injection Hs as <-. unfold invariant, successors. simpl.
      rewrite G. simpl. rewrite S. split; [|assumption].
      destruct VL; [left|right]; auto.
    + (* write_step_report *)
      destruct Hi as [VL C].
      injection Hs as <-. unfold invariant. simpl. exact VL.
  - destruct n; try contradiction. destruct m; try contradiction.
    simpl in Hs. injection Hs as <-.
    unfold invariant. simpl. split; [|assumption].
    split; [discriminate|]. eexists. split; [reflexivity | discriminate].
  - destruct n; try contradiction; destruct m; contradiction.
Qed.

Lemma reachable_invariant (w : World) (sg : Stage) (c : Config) :
  wired sg -> reachable w sg c -> invariant sg c.
Proof.
  intros Hw H. induction H as [st _ Hc | c o c' _ IH Hs].
  - exact Hc.
  - exact (invariant_step w sg o c c' Hw IH Hs).
Qed.

(** A run driven by a list of answers passes through reachable
    configurations only. *)
Lemma run_reachable (w : World) (sg : Stage) (os : list Outside)
    (c c' : Config) :
  reachable w sg c -> run w sg os c = Ok c' -> reachable w sg c'.
Proof.
  revert c. induction os as [|o os IH]; intros c Hr H; simpl in H.
  - injection H as <-. exact Hr.
  - destruct (superstep w sg o c) as [c1|] eqn:E; simpl in H; [|discriminate].
    apply (IH c1); [|exact H]. exact (reachable_step w sg c o c1 Hr E).
Qed.

End StageFacts.

(** ** Completion of a stage and validation *)

Module CompletionFacts.
Import State Utils Common Steps StageFacts Orchestrator.

Definition no_output : Execution :=
  {| error := None; stdout := []; stderr := []; results := [] |}.

Definition passed : ValidationResult :=
  {| chain_of_thought_summary := "- all points addressed";
     pass_the_validation := true; message_to_user := None |}.

(** The model keeps writing code, and the code prints nothing. *)
Definition coding : Outside :=
  {| session := Ok "sandbox-1"; bootstrap := no_output;
     system_prompt := "You are a ReAct data analyst agent.";
     response :=
       AIMessage (fence_python ++ nl ++ "df.head()" ++ nl ++ fence);
     variable_list := []; execution := no_output;
     checklist_verdict := passed; o3_verdict := passed;
     claude_4_opus_verdict := passed; user_input := "";
     run_code := fun _ => no_output; report_text := "cleaned" |}.

(** The model answers DONE. *)
Definition finishing : Outside :=
  {| session := Ok "sandbox-1"; bootstrap := no_output;
     system_prompt := "You are a ReAct data analyst agent.";
     response := AIMessage "DONE";
     variable_list := []; execution := no_output;
     checklist_verdict := passed; o3_verdict := passed;
     claude_4_opus_verdict := passed; user_input := "";
     run_code := fun _ => no_output; report_text := "cleaned" |}.

Definition start_of_stage_2 : Config :=
  {| state := fresh_input; active := [init_e2b_sandbox] |}.

Lemma start_of_stage_2_reachable :
  reachable plain_world step_2_data_cleaning start_of_stage_2.
Proof.
  apply reachable_start; [|reflexivity].
  repeat split; reflexivity.
Qed.

Definition is_none {A : Type} (o : option A) : bool :=
  match o with
  | None => true
  | Some _ => false
  end.

(** The run in which the model never answers DONE: the sandbox, the prompt,
    thirty rounds of agent and executor, the agent at the limit, the saving
    of the variables, the report. *)
#[local] Abbreviation run_to_the_limit :=
  (run plain_world step_2_data_cleaning (repeat coding 65) start_of_stage_2).

Definition completed_unvalidated (r : result Config) : bool :=
  match r with
  | Ok c =>
      stage_completed 2 (steps (state c))
      && is_none (checklist_validation_result (state c))
      && is_none (critic_validation_result (state c))
      && finished c
  | Raise _ => false
  end.

Lemma completed_unvalidated_elim (r : result Config) :
  completed_unvalidated r = true ->
  exists c, r = Ok c
            /\ stage_completed 2 (steps (state c)) = true
            /\ checklist_validation_result (state c) = None
            /\ critic_validation_result (state c) = None.
Proof.
  destruct r as [c|e]; simpl; [|discriminate].
  intros H. exists c.
  apply andb_prop in H. destruct H as [H _].
  apply andb_prop in H. destruct H as [H C].
  apply andb_prop in H. destruct H as [S K].
  split; [reflexivity|]. split; [exact S|]. split.
  - now destruct (checklist_validation_result (state c)).
  - now destruct (critic_validation_result (state c)).
Qed.

Lemma run_to_the_limit_completes :
  completed_unvalidated run_to_the_limit = true.
Proof. vm_compute. reflexivity. Qed.

(** C1, as stated, fails. The run of stage 2 in which the agent hits the
    limit of messages goes from the agent to [save_variables] and on to
    [write_step_report]: the step is completed and no validator has run. *)
Lemma completed_without_validation :
  exists c,
    reachable plain_world step_2_data_cleaning c
    /\ stage_completed (stage_order step_2_data_cleaning) (steps (state c))
       = true
    /\ checklist_validation_result (state c) = None
    /\ critic_validation_result (state c) = None.
Proof.
  destruct (completed_unvalidated_elim _ run_to_the_limit_completes)
    as (c & E & S & K & R).
  exists c. split; [|split; [exact S|split; assumption]].
  exact (run_reachable plain_world step_2_data_cleaning (repeat coding 65)
           start_of_stage_2 c start_of_stage_2_reachable E).
Qed.

(** C1, amended. In a run of the sub-graph of stage 2, 3 or 4, the step of
    the stage is completed only when both validators have contributed (a
    checklist result and a list of critic results that is not empty are in
    the state) or the agent has hit the limit of messages (its message
    about the limit is in the history). *)
Theorem completed_after_validation_or_limit (w : World) (sg : Stage)
    (c : Config) :
  In sg stages ->
  reachable w sg c ->
  stage_completed (stage_order sg) (steps (state c)) = true ->
  validated (state c) \/ limit_hit (state c).
Proof.
  intros Hsg Hr Hc.
  pose proof (reachable_invariant w sg c (stages_wired sg Hsg) Hr) as Hi.
  unfold invariant in Hi.
  destruct (active c) as [|n [|m [|k rest]]].
  - exact Hi.
  - destruct n; try contradiction;
      try (rewrite Hc in Hi; discriminate);
      destruct Hi as [_ Hi]; rewrite Hc in Hi; discriminate.
  - destruct n; try contradiction. destruct m; try contradiction.
    rewrite Hc in Hi; discriminate.
  - destruct n; try contradiction; destruct m; contradiction.
Qed.

(** The run in which the model answers DONE at once and every validator
    passes. *)
Definition validated_run : result Config :=
  run plain_world step_2_data_cleaning (repeat finishing 7) start_of_stage_2.

Definition end_of_validated_run : Config :=
  match validated_run with
  | Ok c => c
  | Raise _ => start_of_stage_2
  end.

Lemma completed_after_validation_or_limit_witness :
  validated (state end_of_validated_run)
  \/ limit_hit (state end_of_validated_run).
Proof.
  apply (completed_after_validation_or_limit plain_world
           step_2_data_cleaning end_of_validated_run).
  - simpl. left. reflexivity.
  - apply (run_reachable plain_world step_2_data_cleaning
             (repeat finishing 7) start_of_stage_2).
    + exact start_of_stage_2_reachable.
    + vm_compute. reflexivity.
  - vm_compute. reflexivity.
Defined.

End CompletionFacts.

(** ** The rendezvous node *)

Module RendevousFacts.
Import State Utils Common Steps StageFacts.

Fixpoint all_space (s : string) : bool :=
  match s with
  | EmptyString => true
  | String c s' => PyStr.isspace c && all_space s'
  end.

Lemma lstrip_empty (s : string) :
  PyStr.lstrip s = "" <-> all_space s = true.
Proof.
  induction s as [|c s IH]; simpl; [tauto|].
  destruct (PyStr.isspace c); simpl; [exact IH|].
  split; discriminate.
Qed.

Lemma lstrip_starts (s : string) :
  PyStr.lstrip s = ""
  \/ exists c t, PyStr.lstrip s = String c t /\ PyStr.isspace c = false.
Proof.
  induction s as [|c s IH]; simpl; [now left|].
  destruct (PyStr.isspace c) eqn:E; [exact IH|].
  right. now exists c, s.
Qed.

Lemma all_space_rev_onto (s acc : string) :
  all_space (PyStr.rev_onto s acc) = all_space s && all_space acc.
Proof.
  revert acc. induction s as [|c s IH]; intros acc; simpl; [reflexivity|].
  rewrite IH. simpl. destruct (PyStr.isspace c), (all_space s); reflexivity.
Qed.

Lemma rev_onto_empty (s acc : string) :
  PyStr.rev_onto s acc = "" -> s = "" /\ acc = "".
Proof.
  revert acc. induction s as [|c s IH]; intros acc; simpl; [tauto|].
  intros H. apply IH in H. destruct H as [_ H]. discriminate.
Qed.

(** [s.strip() == ""] exactly when [s] holds nothing but white space. *)
Lemma strip_empty (s : string) :
  PyStr.strip s = "" <-> all_space s = true.
Proof.
  unfold PyStr.strip, PyStr.rstrip, PyStr.rev. split.
  - intros H. apply rev_onto_empty in H. destruct H as [H _].
    apply lstrip_empty in H. rewrite all_space_rev_onto in H.
    apply andb_prop in H. destruct H as [H _].
    destruct (lstrip_starts s) as [E|(c & t & E & Hc)].
    + now apply lstrip_empty.
    + rewrite E in H. simpl in H. rewrite Hc in H. discriminate.
  - intros H. apply lstrip_empty in H. rewrite H. reflexivity.
Qed.

(** The checklist result is there and passed, and the list of critic
    results is there, not empty, and all of it passed. *)
Definition validations_passed (st : StepState) : Prop :=
  (exists r, checklist_validation_result st = Some r
             /\ pass_the_validation r = true)
  /\ (exists rs, critic_validation_result st = Some rs
                 /\ rs <> []
                 /\ forall r, In r rs -> pass_the_validation r = true).

Lemma validations_passed_iff (st : StepState) :
  checklist_passed st && all_critics_passed st = true
  <-> validations_passed st.
Proof.
  unfold validations_passed, checklist_passed, all_critics_passed. split.
  - intros H. apply andb_prop in H. destruct H as [A B]. split.
    + destruct (checklist_validation_result st) as [r|]; [|discriminate].
      now exists r.
    + destruct (critic_validation_result st) as [rs|]; [|discriminate].
      apply andb_prop in B. destruct B as [B1 B2]. exists rs.
      split; [reflexivity|]. split.
      * intros ->. discriminate.
      * now apply forallb_forall.
  - intros [(r & Hr & Hp) (rs & Hrs & Hne & Hall)].
    rewrite Hr, Hrs, Hp. simpl.
    apply andb_true_intro. split.
    + destruct rs; [now contradict Hne|]. reflexivity.
    + now apply forallb_forall.
Qed.

Definition advance (next_node_name : node) : Command :=
  {| goto := [next_node_name]; update := [] |}.

Definition back_with_feedback (agent_node_name : node) : Command :=
  {| goto := [agent_node_name];
     update := [W_step_message_history [feedback_message]] |}.

Definition back_with_input (agent_node_name : node) (user_input : string)
  : Command :=
  {| goto := [agent_node_name];
     update := [W_step_message_history [HumanMessage user_input]] |}.

Lemma route_on_validation_spec (next_node_name agent_node_name : node)
    (st : StepState) :
  (validations_passed st ->
   route_on_validation next_node_name agent_node_name st
   = advance next_node_name)
  /\ (~ validations_passed st ->
      route_on_validation next_node_name agent_node_name st
      = back_with_feedback agent_node_name).
Proof.
  unfold route_on_validation.
  destruct (checklist_passed st && all_critics_passed st) eqn:E.
  - split; [reflexivity|]. intros H. contradict H.
    now apply validations_passed_iff.
  - split; [|reflexivity]. intros H.
    apply validations_passed_iff in H. rewrite H in E. discriminate.
Qed.

(** C5. Without the human in the loop the rendezvous never raises, advances
    to the next node exactly when the checklist result is there and passed
    and the critic results are there, not empty and all passed, and in
    every other case goes back to the agent with the standard instruction
    appended to the history. *)
Theorem rendevous_automatic (next_node_name agent_node_name : node)
    (step_name user_input : string) (st : StepState) :
  use_human_in_the_loop st = false ->
  (validations_passed st
   <-> get_rendevous_node next_node_name agent_node_name step_name st
         user_input = Ok (advance next_node_name))
  /\ (~ validations_passed st
      <-> get_rendevous_node next_node_name agent_node_name step_name st
            user_input = Ok (back_with_feedback agent_node_name)).
Proof.
  intros H. unfold get_rendevous_node. rewrite H.
  destruct (route_on_validation_spec next_node_name agent_node_name st)
    as [A B].
  split; split.
  - intros V. now rewrite (A V).
  - intros E. destruct (checklist_passed st && all_critics_passed st) eqn:P.
    + now apply validations_passed_iff.
    + unfold route_on_validation in E. rewrite P in E. discriminate.
  - intros V. now rewrite (B V).
  - intros E V. rewrite (A V) in E. discriminate.
Qed.

Definition automatic_state : StepState :=
  apply_update (enter "objective" [] false false "" get_default_steps "")
    [W_checklist_validation_result CompletionFacts.passed;
     W_critic_validation_result
       [CompletionFacts.passed; CompletionFacts.passed]].

Lemma rendevous_automatic_witness :
  validations_passed automatic_state
  <-> get_rendevous_node save_variables agent "Step 2: Data Cleaning"
        automatic_state "" = Ok (advance save_variables).
Proof.
  apply (rendevous_automatic save_variables agent "Step 2: Data Cleaning" ""
           automatic_state).
  reflexivity.
Defined.

End RendevousFacts.

Module ResumeFacts.
Import State Utils Common Steps StageFacts RendevousFacts.

(** When the rendezvous runs, the checklist validator has run. *)
Lemma rendevous_has_checklist (w : World) (sg : Stage) (c : Config) :
  In sg stages -> reachable w sg c -> In rendevous (active c) ->
  validated (state c).
Proof.
  intros Hsg Hr Hin.
  pose proof (reachable_invariant w sg c (stages_wired sg Hsg) Hr) as Hi.
  unfold invariant in Hi.
  destruct (active c) as [|n [|m [|k rest]]].
  - destruct Hin.
  - destruct Hin as [E|[]]. subst n. exact (proj1 Hi).
  - destruct n; try contradiction. destruct m; try contradiction.
    destruct Hin as [E|[E|[]]]; discriminate.
  - destruct n; try contradiction; destruct m; contradiction.
Qed.

(** The three shapes of a resume value, on a state with a checklist
    result. *)
Lemma rendevous_shapes (next_node_name agent_node_name : node)
    (step_name user_input : string) (st : StepState) :
  use_human_in_the_loop st = true ->
  checklist_validation_result st <> None ->
  let r := get_rendevous_node next_node_name agent_node_name step_name st
             user_input in
  (PyStr.lower user_input = "ignore" -> r = Ok (advance next_node_name))
  /\ (PyStr.lower user_input <> "ignore" ->
      PyStr.lower user_input = "pass" \/ all_space user_input = true ->
      (validations_passed st -> r = Ok (advance next_node_name))
      /\ (~ validations_passed st ->
          r = Ok (back_with_feedback agent_node_name)))
  /\ (PyStr.lower user_input <> "ignore" ->
      PyStr.lower user_input <> "pass" ->
      all_space user_input = false ->
      r = Ok (back_with_input agent_node_name user_input))
  /\ exists cmd, r = Ok cmd.
Proof.
  intros Hh Hc r. subst r. unfold get_rendevous_node, interrupt_payload.
  rewrite Hh.
  destruct (checklist_validation_result st) as [cr|] eqn:Ec;
    [|now contradict Hc].
  cbn [bind].
  destruct (route_on_validation_spec next_node_name agent_node_name st)
    as [A B].
  destruct (String.eqb (PyStr.lower user_input) "ignore") eqn:Ei.
  { apply String.eqb_eq in Ei. repeat split; try (intros; congruence).
    eexists; reflexivity. }
  apply String.eqb_neq in Ei.
  destruct (String.eqb (PyStr.lower user_input) "pass") eqn:Ep.
  { apply String.eqb_eq in Ep. simpl.
    split; [intros; congruence|]. split.
    - intros _ _. split; intros V; [now rewrite (A V) | now rewrite (B V)].
    - split; [intros; congruence | eexists; reflexivity]. }
  apply String.eqb_neq in Ep. simpl.
  destruct (String.eqb (PyStr.strip user_input) "") eqn:Es.
  { apply String.eqb_eq in Es. apply strip_empty in Es.
    split; [intros; congruence|]. split.
    - intros _ _. split; intros V; [now rewrite (A V) | now rewrite (B V)].
    - split; [intros; congruence | eexists; reflexivity]. }
  apply String.eqb_neq in Es.
  split; [intros; congruence|]. split.
  - intros _ [P|P]; [congruence|]. apply strip_empty in P. congruence.
  - split; [reflexivity | eexists; reflexivity].
Qed.

(** C4. In a run of a stage with the human in the loop, whenever the
    rendezvous runs it accepts every resume string and never raises:
    [ignore] in any case of letters advances to the next node whatever the
    validators said; [pass] in any case of letters, or a string of nothing
    but white space, takes the automatic decision (advance when the
    checklist result and all critic results passed, else back to the agent
    with the feedback instruction); every other string is appended to the
    history as a human message and the run goes back to the agent. *)
Theorem rendevous_accepts_every_resume (w : World) (sg : Stage) (c : Config)
    (user_input : string) :
  In sg stages ->
  reachable w sg c ->
  In rendevous (active c) ->
  use_human_in_the_loop (state c) = true ->
  let r := get_rendevous_node (rendevous_next_node_name sg) agent
             (step_name sg) (state c) user_input in
  (PyStr.lower user_input = "ignore" -> r = Ok (advance save_variables))
  /\ (PyStr.lower user_input <> "ignore" ->
      PyStr.lower user_input = "pass" \/ all_space user_input = true ->
      (validations_passed (state c) -> r = Ok (advance save_variables))
      /\ (~ validations_passed (state c) ->
          r = Ok (back_with_feedback agent)))
  /\ (PyStr.lower user_input <> "ignore" ->
      PyStr.lower user_input <> "pass" ->
      all_space user_input = false ->
      r = Ok (back_with_input agent user_input))
  /\ exists cmd, r = Ok cmd.
Proof.
  intros Hsg Hr Hin Hh.
  destruct (rendevous_has_checklist w sg c Hsg Hr Hin) as [Hc _].
  destruct (stages_wired sg Hsg) as [_ Hn].
  rewrite Hn.
  exact (rendevous_shapes save_variables agent (step_name sg) user_input
           (state c) Hh Hc).
Qed.

(** The configuration of a run of stage 2, with the human in the loop, in
    which both validators have just run. *)
Definition at_rendevous : Config :=
  match
    run Orchestrator.plain_world step_2_data_cleaning
      (repeat CompletionFacts.finishing 4)
      {| state := enter "objective" [] false true "" get_default_steps "";
         active := [init_e2b_sandbox] |}
  with
  | Ok c => c
  | Raise _ => CompletionFacts.start_of_stage_2
  end.

Lemma rendevous_accepts_every_resume_witness :
  get_rendevous_node save_variables agent "Step 2: Data Cleaning"
    (state at_rendevous) "Ignore"
  = Ok (advance save_variables).
Proof.
  refine (proj1 (rendevous_accepts_every_resume Orchestrator.plain_world
                   step_2_data_cleaning at_rendevous "Ignore" _ _ _ _) _).
  - simpl. left. reflexivity.
  - apply (run_reachable Orchestrator.plain_world step_2_data_cleaning
             (repeat CompletionFacts.finishing 4)
             {| state :=
                  enter "objective" [] false true "" get_default_steps "";
                active := [init_e2b_sandbox] |}).
    + apply reachable_start; [|reflexivity]. repeat split; reflexivity.
    + vm_compute. reflexivity.
  - vm_compute. left. reflexivity.
  - vm_compute. reflexivity.
  - vm_compute. reflexivity.
Defined.

End ResumeFacts.

(** ** The saving of the variables *)

Module SaveFacts.
Import State Utils Common Steps.

Lemma parse_length (w : World) (rs : list Result)
    (ps : list (pyval * DataType)) :
  parse_e2b_execution_results w rs = Ok ps ->
  List.length ps = List.length rs.
Proof.
  revert ps. induction rs as [|r rs IH]; intros ps; simpl.
  - intros H; injection H as <-. reflexivity.
  - destruct (parse_one w r) as [p|]; simpl; [|discriminate].
    destruct (parse_e2b_execution_results w rs) as [qs|]; simpl;
      [|discriminate].
    intros H; injection H as <-. simpl. now rewrite (IH qs eq_refl).
Qed.

(** The keys the loop of [save_variables] produces: the key of each selected
    variable, once for every result of its evaluation. *)
Definition saved_keys (run_code : string -> Execution)
    (to_save : list VariableToSave) : list string :=
  flat_map
    (fun v => repeat (var_key v)
                (List.length (results (run_code (var_key v)))))
    to_save.

Lemma map_key_data_of (v : VariableToSave) (ps : list (pyval * DataType)) :
  map key (map (data_of v) ps) = repeat (var_key v) (List.length ps).
Proof.
  induction ps as [|p ps IH]; simpl; [reflexivity | now rewrite IH].
Qed.

Lemma collect_keys (w : World) (run_code : string -> Execution)
    (to_save : list VariableToSave) (ds : list Data) :
  collect_variables w run_code to_save = Ok ds ->
  map key ds = saved_keys run_code to_save.
Proof.
  revert ds. induction to_save as [|v vs IH]; intros ds; simpl.
  - intros H; injection H as <-. reflexivity.
  - destruct (error (run_code (var_key v))); [discriminate|].
    destruct (parse_e2b_execution_results w (results (run_code (var_key v))))
      as [ps|] eqn:E; simpl; [|discriminate].
    destruct (collect_variables w run_code vs) as [more|]; simpl;
      [|discriminate].
    intros H; injection H as <-.
    rewrite map_app, map_key_data_of, (parse_length _ _ _ E).
    now rewrite (IH more eq_refl).
Qed.

(** The model selects the same name twice; the sandbox shows its value. *)
Definition selected_twice : StepState :=
  apply_update (enter "objective" [] false false "" get_default_steps "")
    [W_variables_to_save
       [{| var_key := "df"; var_description := "the cleaned table" |};
        {| var_key := "df"; var_description := "the table, again" |}]].

Definition shows_text (code : string) : Execution :=
  {| error := None; stdout := []; stderr := [];
     results := [{| formats := ["text"]; data := PNone; json := None;
                    text := "   a  b"; png := "" |}] |}.

Definition keys_after (r : result Command) (st : StepState) : list string :=
  match r with
  | Ok cmd => map key (variables (apply_update st (update cmd)))
  | Raise _ => []
  end.

(** C9, as stated, fails. Two selections with the same key give two
    artifacts with that key, and the merge keeps both. *)
Lemma same_key_saved_twice :
  keys_after
    (get_save_variables_node Orchestrator.plain_world selected_twice
       shows_text)
    selected_twice
  = ["df"; "df"]
  /\ ~ NoDup
       (keys_after
          (get_save_variables_node Orchestrator.plain_world selected_twice
             shows_text)
          selected_twice).
Proof.
  split; [vm_compute; reflexivity|].
  intros H. vm_compute in H. inversion H as [|x l Hn _]. apply Hn. now left.
Qed.

(** C9, amended. The field [variables] has no reducer: the patch of
    [save_variables] replaces the whole list, whatever it held, by the list
    the node built, which holds one artifact for every result of every
    selected name, in the order of selection, under the selected key; no
    key is merged with another. *)
Theorem save_variables_replaces_the_list (w : World) (st : StepState)
    (run_code : string -> Execution) (cmd : Command) :
  get_save_variables_node w st run_code = Ok cmd ->
  exists final_variables,
    update cmd = [W_variables final_variables]
    /\ variables (apply_update st (update cmd)) = final_variables
    /\ map key final_variables = saved_keys run_code (variables_to_save st).
Proof.
  unfold get_save_variables_node.
  destruct (collect_variables w run_code (variables_to_save st)) as [ds|] eqn:E;
    simpl; [|discriminate].
  intros H; injection H as <-. exists ds.
  split; [reflexivity|]. split; [reflexivity|].
  exact (collect_keys _ _ _ _ E).
Qed.

Lemma save_variables_replaces_the_list_witness :
  exists final_variables,
    update {| goto := [];
              update := [W_variables
                           [{| key := "df"; type := TEXT;
                               data_description := "the cleaned table";
                               value := PStr "   a  b" |};
                            {| key := "df"; type := TEXT;
                               data_description := "the table, again";
                               value := PStr "   a  b" |}]] |}
    = [W_variables final_variables]
    /\ variables
         (apply_update selected_twice
            (update {| goto := [];
                       update := [W_variables
                           [{| key := "df"; type := TEXT;
                               data_description := "the cleaned table";
                               value := PStr "   a  b" |};
                            {| key := "df"; type := TEXT;
                               data_description := "the table, again";
                               value := PStr "   a  b" |}]] |}))
       = final_variables
    /\ map key final_variables
       = saved_keys shows_text (variables_to_save selected_twice).
Proof.
  apply (save_variables_replaces_the_list Orchestrator.plain_world
           selected_twice shows_text).
  vm_compute. reflexivity.
Defined.

End SaveFacts.

(** ** The retry classifier *)

Module RetryFacts.
Import Retry.

(** On an exception of the class hierarchy the classifier returns. *)
Lemma retry_on_total (e : exc) :
  well_formed e -> exists b, retry_on e = Ok b.
Proof.
  intros (_ & _ & H). unfold retry_on.
  destruct (isinstance e ConnectionError); [now exists true|].
  destruct (isinstance e httpx_HTTPStatusError).
  - destruct (response e) as [r|]; [now eexists|].
    exfalso. now apply H.
  - destruct (isinstance e requests_HTTPError).
    + destruct (response e) as [r|]; [|now exists true].
      destruct (requests_ok r); now eexists.
    + destruct (existsb (isinstance e) fatal_classes); now eexists.
Qed.

(** A connection error is retried, whatever else it is. *)
Lemma connection_error_retried (e : exc) :
  isinstance e ConnectionError = true -> retry_on e = Ok true.
Proof. intros H. unfold retry_on. now rewrite H. Qed.

(** A status error of [httpx] is retried exactly on a status from 500 to
    599. *)
Lemma httpx_status_error_by_status (e : exc) (r : Response) :
  isinstance e ConnectionError = false ->
  isinstance e httpx_HTTPStatusError = true ->
  response e = Some r ->
  retry_on e = Ok true <-> 500 <= status_code r < 600.
Proof.
  intros Hc Hh Hr. unfold retry_on, is_5xx. rewrite Hc, Hh, Hr.
  split.
  - intros H. injection H as H. apply andb_prop in H. destruct H as [A B].
    apply Z.leb_le in A. apply Z.ltb_lt in B. lia.
  - intros [A B]. apply Z.leb_le in A. apply Z.ltb_lt in B.
    now rewrite A, B.
Qed.

(** An exception that is neither a connection error nor an HTTP error of
    either library is retried exactly when it is an instance of none of the
    twelve fatal classes. *)
Lemma other_error_by_fatal_list (e : exc) :
  isinstance e ConnectionError = false ->
  isinstance e httpx_HTTPStatusError = false ->
  isinstance e requests_HTTPError = false ->
  retry_on e = Ok false
  <-> exists c, In c fatal_classes /\ isinstance e c = true.
Proof.
  intros Hc Hh Hr. unfold retry_on. rewrite Hc, Hh, Hr.
  destruct (existsb (isinstance e) fatal_classes) eqn:E.
  - split; [|reflexivity]. intros _. now apply existsb_exists.
  - split; [discriminate|]. intros H. apply existsb_exists in H.
    rewrite H in E. discriminate.
Qed.

(** An HTTP error of [requests] with a status from 400 to 599 is retried:
    its response counts as false, so the status is never looked at. *)
Lemma requests_http_error_4xx_5xx_retried (e : exc) (r : Response) :
  isinstance e ConnectionError = false ->
  isinstance e httpx_HTTPStatusError = false ->
  isinstance e requests_HTTPError = true ->
  response e = Some r ->
  400 <= status_code r < 600 ->
  retry_on e = Ok true.
Proof.
  intros Hc Hh Hr He Hs. unfold retry_on, requests_ok.
  rewrite Hc, Hh, Hr, He.
  destruct (400 <=? status_code r) eqn:A; [|apply Z.leb_gt in A; lia].
  destruct (status_code r <? 600) eqn:B; [|apply Z.ltb_ge in B; lia].
  reflexivity.
Qed.

(** C6 fails on the HTTP errors of [requests]. The error that
    [raise_for_status] raises for a 404 is classified retryable, while the
    same status in a status error of [httpx] is classified fatal. *)
Lemma requests_404_is_retried :
  retry_on (requests_http_error 404) = Ok true
  /\ retry_on (httpx_status_error 404) = Ok false.
Proof. split; reflexivity. Qed.

End RetryFacts.

(** ** The serializer *)

Module SerializerFacts.
Import Serializer.

Lemma key_eqb_eq (a b : key) : key_eqb a b = true <-> a = b.
Proof.
  destruct a as [x|x], b as [y|y]; simpl; split; intros H;
    try discriminate.
  - apply Z.eqb_eq in H. now subst.
  - injection H as ->. apply Z.eqb_refl.
  - apply String.eqb_eq in H. now subst.
  - injection H as ->. apply String.eqb_refl.
Qed.

Lemma key_eqb_neq (a b : key) : key_eqb a b = false <-> a <> b.
Proof.
  split.
  - intros H E. apply key_eqb_eq in E. rewrite E in H. discriminate.
  - intros H. destruct (key_eqb a b) eqn:E; [|reflexivity].
    apply key_eqb_eq in E. contradiction.
Qed.

Lemma existsb_key (k : key) (l : list key) :
  existsb (key_eqb k) l = true <-> In k l.
Proof.
  rewrite existsb_exists. split.
  - intros (x & Hx & E). apply key_eqb_eq in E. now subst.
  - intros H. exists k. split; [assumption | now apply key_eqb_eq].
Qed.

(** Setting a key that the dictionary lacks puts it at the end. *)
Lemma dict_set_fresh (k : key) (v : pyval) (d : dict) :
  ~ In k (map fst d) -> dict_set k v d = (d ++ [(k, v)])%list.
Proof.
  induction d as [|[k' v'] d IH]; simpl; intros H; [reflexivity|].
  destruct (key_eqb k k') eqn:E.
  - apply key_eqb_eq in E. subst. contradict H. now left.
  - rewrite IH; [reflexivity|]. intros X. apply H. now right.
Qed.

Lemma dict_of_onto (pairs d : list (key * pyval)) :
  NoDup (map fst (d ++ pairs)) ->
  fold_left (fun d kv => dict_set (fst kv) (snd kv) d) pairs d
  = (d ++ pairs)%list.
Proof.
  revert d. induction pairs as [|[k v] pairs IH]; intros d H; simpl.
  - now rewrite app_nil_r.
  - rewrite dict_set_fresh.
    + rewrite IH; rewrite <- app_assoc; [reflexivity | exact H].
    + rewrite map_app in H. apply NoDup_remove_2 in H.
      intros X. apply H. apply in_or_app. now left.
Qed.

(** A sequence of pairs with distinct keys is its own dictionary. *)
Lemma dict_of_distinct (pairs : list (key * pyval)) :
  NoDup (map fst pairs) -> dict_of pairs = pairs.
Proof. intros H. unfold dict_of. now rewrite dict_of_onto. Qed.

Lemma map_fst_combine {A B : Type} (l : list A) (l' : list B) :
  List.length l = List.length l' -> map fst (combine l l') = l.
Proof.
  revert l'. induction l as [|a l IH]; intros [|b l'] H; simpl in *;
    try discriminate; [reflexivity|].
  f_equal. apply IH. now injection H.
Qed.

Lemma add_labels_onto (l seen : list key) :
  NoDup (seen ++ l) -> fold_left add_label l seen = (seen ++ l)%list.
Proof.
  revert seen. induction l as [|k l IH]; intros seen H; simpl.
  - now rewrite app_nil_r.
  - unfold add_label at 2.
    destruct (existsb (key_eqb k) seen) eqn:E.
    + apply existsb_key in E. apply NoDup_remove_2 in H.
      contradict H. apply in_or_app. now left.
    + rewrite IH; rewrite <- app_assoc; [reflexivity | exact H].
Qed.

Lemma add_labels_known (l seen : list key) :
  (forall k, In k l -> In k seen) -> fold_left add_label l seen = seen.
Proof.
  revert seen. induction l as [|k l IH]; intros seen H; simpl;
    [reflexivity|].
  unfold add_label at 2.
  destruct (existsb (key_eqb k) seen) eqn:E.
  - apply IH. intros x Hx. apply H. now right.
  - assert (X : In k seen) by (apply H; now left).
    apply existsb_key in X. rewrite X in E. discriminate.
Qed.

(** The union of the labels of dictionaries that all have the labels
    [index], in that order. *)
Lemma union_labels_same (index : list key) (ds : list dict) :
  NoDup index -> ds <> [] ->
  Forall (fun d => map fst d = index) ds ->
  union_labels ds = index.
Proof.
  intros Hn Hne Hall. unfold union_labels.
  destruct ds as [|d ds]; [now contradict Hne|]. simpl.
  pose proof (Forall_inv Hall) as Hd. simpl in Hd.
  pose proof (Forall_inv_tail Hall) as Hds.
  rewrite Hd. rewrite add_labels_onto by exact Hn. simpl.
  clear Hall Hne Hd. induction ds as [|d' ds IH]; simpl; [reflexivity|].
  pose proof (Forall_inv Hds) as Hd'. simpl in Hd'.
  pose proof (Forall_inv_tail Hds) as Hds'.
  rewrite Hd'. rewrite add_labels_known by auto. now apply IH.
Qed.

Lemma cell_skip (k i : key) (c : pyval) (d : dict) :
  k <> i -> cell ((i, c) :: d) k = cell d k.
Proof.
  intros H. unfold cell. simpl.
  apply key_eqb_neq in H. now rewrite H.
Qed.

(** Reading a column back, label by label. *)
Lemma cells_of_column (index : list key) (col : list pyval) :
  NoDup index -> List.length col = List.length index ->
  map (cell (combine index col)) index = col.
Proof.
  revert col. induction index as [|i index IH]; intros [|c col] Hn Hl;
    simpl in *; try discriminate; [reflexivity|].
  pose proof (proj1 (NoDup_cons_iff i index) Hn) as [Hi Hn'].
  f_equal.
  - unfold cell. simpl.
    assert (E : key_eqb i i = true) by now apply key_eqb_eq.
    now rewrite E.
  - rewrite <- (IH col Hn') at 2 by now injection Hl.
    apply map_ext_in. intros k Hk. apply cell_skip.
    intros ->. contradiction.
Qed.

Lemma columns_as_dicts (columns index : list key)
    (cells : list (list pyval)) :
  NoDup index -> frame_ok columns index cells ->
  map (fun cc => (fst cc, PDict (dict_of (combine index (snd cc)))))
    (combine columns cells)
  = combine columns (map (fun col => PDict (combine index col)) cells).
Proof.
  intros Hn [Hl Hall]. revert cells Hl Hall.
  induction columns as [|c columns IH]; intros [|col cells] Hl Hall;
    simpl in *; try discriminate; [reflexivity|].
  pose proof (Forall_inv Hall) as Hc. simpl in Hc.
  f_equal.
  - f_equal. f_equal. apply dict_of_distinct.
    rewrite map_fst_combine by (symmetry; exact Hc). exact Hn.
  - apply IH; [now injection Hl | exact (Forall_inv_tail Hall)].
Qed.

Lemma inner_dicts_of_columns (columns : list key) (index : list key)
    (cells : list (list pyval)) :
  List.length cells = List.length columns ->
  inner_dicts
    (combine columns (map (fun col => PDict (combine index col)) cells))
  = Some (map (combine index) cells).
Proof.
  revert cells. induction columns as [|c columns IH]; intros [|col cells] Hl;
    simpl in *; try discriminate; [reflexivity|].
  rewrite IH by now injection Hl. reflexivity.
Qed.

(** A frame with distinct column labels and distinct index labels, and with
    a column if it has a row, is what [from_dict] builds from its
    [to_dict]. *)
Lemma from_dict_to_dict (other : pyval -> result pyval)
    (columns index : list key) (cells : list (list pyval)) :
  frame_ok columns index cells ->
  NoDup columns -> NoDup index ->
  (columns = [] -> index = []) ->
  from_dict other (to_dict columns index cells)
  = Ok (PFrame columns index cells).
Proof.
  intros Hok Hc Hi He. pose proof Hok as [Hl Hall].
  unfold to_dict. rewrite (columns_as_dicts _ _ _ Hi Hok).
  rewrite dict_of_distinct
    by (rewrite map_fst_combine;
        [exact Hc | now rewrite length_map]).
  unfold from_dict. rewrite inner_dicts_of_columns by exact Hl.
  rewrite map_fst_combine by now rewrite length_map.
  assert (U : union_labels (map (combine index) cells) = index).
  { destruct cells as [|col cells].
    - destruct columns; [|discriminate]. now rewrite He.
    - apply union_labels_same; [exact Hi | discriminate |].
      apply Forall_map. apply Forall_forall. intros x Hx.
      rewrite Forall_forall in Hall.
      apply map_fst_combine. symmetry. now apply Hall. }
  rewrite U. do 2 f_equal.
  rewrite map_map.
  rewrite <- (map_id cells) at 2.
  apply map_ext_in. intros col Hcol.
  rewrite Forall_forall in Hall.
  apply cells_of_column; [exact Hi | now apply Hall].
Qed.

End SerializerFacts.

Module CheckpointFacts.
Import Serializer SerializerFacts.

(** C7, as stated, fails. The pair of the marker and a dictionary is a
    value that is no frame; [loads] reads its pickle back as a frame. *)
Lemma marker_tuple_read_back_as_frame :
  is_frame (PTuple [PStr "DataFrame"; PDict []]) = false
  /\ loads refuse pyval keep_loads
       (dumps pyval keep_dumps (PTuple [PStr "DataFrame"; PDict []]))
     = Ok (PFrame [] [] [])
  /\ loads refuse pyval keep_loads
       (dumps pyval keep_dumps (PTuple [PStr "DataFrame"; PDict []]))
     <> Ok (PTuple [PStr "DataFrame"; PDict []]).
Proof. repeat split; try reflexivity. discriminate. Qed.

(** Reading the pickle of the empty tuple back raises: [loads] looks at the
    first item of every tuple. *)
Lemma empty_tuple_raises :
  loads refuse pyval keep_loads (dumps pyval keep_dumps (PTuple []))
  = Raise IndexError.
Proof. reflexivity. Qed.

(** Two rows under the same index label come back as one, with the cells of
    the second. *)
Lemma repeated_index_label_loses_a_row :
  loads_typed refuse pyval keep_loads
    (dumps_typed pyval keep_dumps
       (PFrame [KStr "a"] [KInt 0; KInt 0] [[PInt 1; PInt 2]]))
  = Ok (PFrame [KStr "a"] [KInt 0] [[PInt 2]]).
Proof. reflexivity. Qed.

(** The rows of a frame without columns are lost. *)
Lemma rows_without_columns_are_lost :
  loads_typed refuse pyval keep_loads
    (dumps_typed pyval keep_dumps (PFrame [] [KInt 0; KInt 1] []))
  = Ok (PFrame [] [] []).
Proof. reflexivity. Qed.

Section RoundTrip.

Variable other : pyval -> result pyval.
Variable bytes : Type.
Variable pickle_dumps : pyval -> bytes.
Variable pickle_loads : bytes -> pyval.

(** What pickle promises: reading back what it wrote. *)
Hypothesis pickle_round_trip : forall v, pickle_loads (pickle_dumps v) = v.

(** C7, amended. A frame whose column labels are distinct, whose index
    labels are distinct, and which has a column if it has a row comes back
    the same (columns, index and cells) through both pairs of functions. A
    value that is no frame comes back equal through [dumps_typed] and
    [loads_typed]; through [dumps] and [loads] it comes back equal when it
    is no tuple, or a tuple whose first item is neither the marker string
    nor a frame. On a tuple whose first item is a frame [loads] raises
    [ValueError], and on the empty tuple [IndexError]. *)
Theorem serializer_round_trip :
  (forall columns index cells,
     frame_ok columns index cells ->
     NoDup columns -> NoDup index -> (columns = [] -> index = []) ->
     loads_typed other bytes pickle_loads
       (dumps_typed bytes pickle_dumps (PFrame columns index cells))
     = Ok (PFrame columns index cells)
     /\ loads other bytes pickle_loads
          (dumps bytes pickle_dumps (PFrame columns index cells))
        = Ok (PFrame columns index cells))
  /\ (forall v, is_frame v = false ->
        loads_typed other bytes pickle_loads
          (dumps_typed bytes pickle_dumps v) = Ok v)
  /\ (forall v, is_frame v = false ->
        (forall items, v <> PTuple items) ->
        loads other bytes pickle_loads (dumps bytes pickle_dumps v) = Ok v)
  /\ (forall first rest, is_marker first = Ok false ->
        loads other bytes pickle_loads
          (dumps bytes pickle_dumps (PTuple (first :: rest)))
        = Ok (PTuple (first :: rest)))
  /\ (forall first rest, is_frame first = true ->
        exists msg,
          loads other bytes pickle_loads
            (dumps bytes pickle_dumps (PTuple (first :: rest)))
          = Raise (ValueError msg))
  /\ loads other bytes pickle_loads (dumps bytes pickle_dumps (PTuple []))
     = Raise IndexError.
Proof.
  split; [|split; [|split; [|split; [|split]]]].
  - intros columns index cells Hok Hc Hi He. split.
    + unfold loads_typed, dumps_typed. simpl.
      rewrite pickle_round_trip. now apply from_dict_to_dict.
    + unfold loads, dumps. rewrite pickle_round_trip. simpl.
      now apply from_dict_to_dict.
  - intros v Hv. unfold loads_typed, dumps_typed.
    destruct v; try discriminate; simpl; now rewrite pickle_round_trip.
  - intros v Hv Ht. unfold loads, dumps.
    destruct v; try discriminate; rewrite pickle_round_trip;
      try reflexivity.
    exfalso. now apply (Ht items).
  - intros first rest Hm. unfold loads, dumps.
    rewrite pickle_round_trip. simpl. now rewrite Hm.
  - intros first rest Hf. unfold loads, dumps.
    rewrite pickle_round_trip. destruct first; try discriminate.
    simpl. now eexists.
  - unfold loads, dumps. now rewrite pickle_round_trip.
Qed.

End RoundTrip.

(** A frame of two columns and two rows. *)
Definition small_frame : pyval :=
  PFrame [KStr "city"; KStr "sales"] [KInt 0; KInt 1]
    [[PStr "Oslo"; PStr "Rome"]; [PInt 3; PInt 5]].

Lemma serializer_round_trip_witness :
  loads_typed refuse pyval keep_loads
    (dumps_typed pyval keep_dumps small_frame) = Ok small_frame
  /\ loads refuse pyval keep_loads (dumps pyval keep_dumps small_frame)
     = Ok small_frame.
Proof.
  refine (proj1 (serializer_round_trip refuse pyval keep_dumps keep_loads _)
            [KStr "city"; KStr "sales"] [KInt 0; KInt 1]
            [[PStr "Oslo"; PStr "Rome"]; [PInt 3; PInt 5]] _ _ _ _).
  - intros v. reflexivity.
  - split; [reflexivity|]. repeat constructor.
  - repeat constructor; simpl; intuition discriminate.
  - repeat constructor; simpl; intuition discriminate.
  - discriminate.
Defined.

End CheckpointFacts.

(** ** What a superstep of a stage does *)

Module RunFacts.
Import State Utils Common Steps StageFacts.

(** A superstep with one active node. *)
Lemma superstep_single (w : World) (sg : Stage) (o : Outside) (st : StepState)
    (n : node) (c' : Config) :
  superstep w sg o {| state := st; active := [n] |} = Ok c' ->
  exists cmd,
    run_node w sg o st n = Ok cmd
    /\ c' = {| state := apply_update st (update cmd);
               active := dedup (successors (n, cmd)) |}.
Proof.
  unfold superstep. simpl.
  destruct (run_node w sg o st n) as [cmd|]; simpl; [|discriminate].
  intros H; injection H as <-. exists cmd. split; [reflexivity|].
  f_equal. unfold successors. simpl. now rewrite app_nil_r.
Qed.

(** The superstep of the two validators. *)
Lemma superstep_validators (w : World) (sg : Stage) (o : Outside)
    (st : StepState) (c' : Config) :
  superstep w sg o
    {| state := st; active := [checklist_validator; critic_validator] |}
  = Ok c' ->
  c' = {| state :=
            apply_update st
              [W_checklist_validation_result (checklist_verdict o);
               W_step_message_history
                 [validation_message "checklist" (checklist_verdict o)];
               W_critic_validation_result
                 [o3_verdict o; claude_4_opus_verdict o];
               W_step_message_history
                 [validation_message "critic" (o3_verdict o);
                  validation_message "critic" (claude_4_opus_verdict o)]];
          active := [rendevous] |}.
Proof.
  unfold superstep. simpl. intros H; injection H as <-. reflexivity.
Qed.

(** The shapes the active nodes of a run can have. *)
Lemma invariant_shape (sg : Stage) (c : Config) :
  invariant sg c ->
  active c = []
  \/ active c = [checklist_validator; critic_validator]
  \/ exists n, active c = [n] /\ n <> END /\ n <> checklist_validator
               /\ n <> critic_validator.
Proof.
  unfold invariant. intros H.
  destruct (active c) as [|n [|m [|k rest]]].
  - now left.
  - right. right. exists n.
    destruct n; try contradiction; repeat split; discriminate.
  - destruct n; try contradiction. destruct m; try contradiction.
    right. now left.
  - destruct n; try contradiction; destruct m; contradiction.
Qed.

Definition history_length (st : StepState) : Z :=
  Z.of_nat (List.length (step_message_history st)).

(** What one node does to the state and where it hands over, for every
    node that runs alone. *)
Lemma node_effect (w : World) (sg : Stage) (o : Outside) (st : StepState)
    (n : node) (cmd : Command) :
  wired sg ->
  n <> END -> n <> checklist_validator -> n <> critic_validator ->
  run_node w sg o st n = Ok cmd ->
  let st' := apply_update st (update cmd) in
  objective st' = objective st
  /\ use_human_in_the_loop st' = use_human_in_the_loop st
  /\ skip_define_objective_step st' = skip_define_objective_step st
  /\ final_report st' = final_report st
  /\ (exists more,
        step_message_history st' = (step_message_history st ++ more)%list)
  /\ (n <> write_step_report -> steps st' = steps st)
  /\ (n = write_step_report ->
      steps st' = update_first (stage_order sg)
                    (set_completed_report (report_text o)) (steps st)).
Proof.
  intros [Ha Hr] N1 N2 N3 H st'. subst st'.
  assert (K : forall u : list write,
             (u = [] \/ (exists ms, u = [W_step_message_history ms])
              \/ (exists v, u = [W_sandbox_id v])
              \/ (exists v, u = [W_variables v])
              \/ (exists ms c, u = [W_step_message_history ms;
                                    W_code_block c])
              \/ (exists vs ms, u = [W_variables_to_save vs;
                                     W_step_message_history ms])) ->
             objective (apply_update st u) = objective st
             /\ use_human_in_the_loop (apply_update st u)
                = use_human_in_the_loop st
             /\ skip_define_objective_step (apply_update st u)
                = skip_define_objective_step st
             /\ final_report (apply_update st u) = final_report st
             /\ (exists more,
                   step_message_history (apply_update st u)
                   = (step_message_history st ++ more)%list)
             /\ steps (apply_update st u) = steps st).
  { intros u [->|[(ms & ->)|[(v & ->)|[(v & ->)|[(ms & c & ->)|
                                               (vs & ms & ->)]]]]];
      simpl; repeat split; try (now eexists);
      exists []; now rewrite app_nil_r. }
  assert (G : forall u : list write,
             (u = [] \/ (exists ms, u = [W_step_message_history ms])
              \/ (exists v, u = [W_sandbox_id v])
              \/ (exists v, u = [W_variables v])
              \/ (exists ms c, u = [W_step_message_history ms;
                                    W_code_block c])
              \/ (exists vs ms, u = [W_variables_to_save vs;
                                     W_step_message_history ms])) ->
             n <> write_step_report ->
             update cmd = u ->
             objective (apply_update st (update cmd)) = objective st
             /\ use_human_in_the_loop (apply_update st (update cmd))
                = use_human_in_the_loop st
             /\ skip_define_objective_step (apply_update st (update cmd))
                = skip_define_objective_step st
             /\ final_report (apply_update st (update cmd))
                = final_report st
             /\ (exists more,
                   step_message_history (apply_update st (update cmd))
                   = (step_message_history st ++ more)%list)
             /\ (n <> write_step_report ->
                 steps (apply_update st (update cmd)) = steps st)
             /\ (n = write_step_report ->
                 steps (apply_update st (update cmd))
                 = update_first (stage_order sg)
                     (set_completed_report (report_text o)) (steps st))).
  { intros u Hu Hn E. rewrite E.
    destruct (K u Hu) as (A & B & C & D & F & S).
    repeat split; try assumption.
    - intros _. exact S.
    - intros X. contradiction. }
  destruct n; try (now contradict N1); try (now contradict N2);
    try (now contradict N3); simpl in H.
  - (* init_e2b_sandbox *)
    unfold get_init_e2b_sandbox_node in H.
    destruct (session o); simpl in H; [|discriminate].
    destruct (forallb loadable (variables st)); [|discriminate].
    destruct (error (bootstrap o)); [discriminate|].
    injection H as <-. eapply G; [|discriminate|reflexivity]. simpl. eauto 10.
  - (* init_message_history *)
    injection H as <-. eapply G; [|discriminate|reflexivity]. simpl. eauto 10.
  - (* agent *)
    unfold get_code_agent_node in H.
    destruct (Z.of_nat (List.length (step_message_history st))
              >? 2 * MAX_MESSAGE_TURN sg).
    + injection H as <-. eapply G; [|discriminate|reflexivity].
      simpl. eauto 10.
    + destruct (extract_code_block (content (response o))) as [[|ch r]|];
        try destruct (PyStr.contains "DONE" (content (response o)));
        injection H as <-;
        (eapply G; [|discriminate|reflexivity]); simpl; eauto 10.
  - (* python_executor *)
    unfold get_python_executor_node in H.
    destruct (execution_content w (execution o)); simpl in H; [|discriminate].
    injection H as <-. eapply G; [|discriminate|reflexivity]. simpl. eauto 10.
  - (* rendevous *)
    unfold get_rendevous_node, route_on_validation in H.
    destruct (use_human_in_the_loop st).
    + destruct (interrupt_payload (step_name sg) st); simpl in H;
        [|discriminate].
      destruct (String.eqb (PyStr.lower (user_input o)) "ignore").
      { injection H as <-. eapply G; [|discriminate|reflexivity]. simpl. eauto 10. }
      destruct (String.eqb (PyStr.lower (user_input o)) "pass"
                || String.eqb (PyStr.strip (user_input o)) "").
      * destruct (checklist_passed st && all_critics_passed st);
          injection H as <-;
          (eapply G; [|discriminate|reflexivity]); simpl; eauto 10.
      * injection H as <-. eapply G; [|discriminate|reflexivity]. simpl. eauto 10.
    + destruct (checklist_passed st && all_critics_passed st);
        injection H as <-;
        (eapply G; [|discriminate|reflexivity]); simpl; eauto 10.
  - (* save_variables *)
    unfold get_save_variables_node in H.
    destruct (collect_variables w (run_code o) (variables_to_save st));
      simpl in H; [|discriminate].
    injection H as <-. eapply G; [|discriminate|reflexivity]. simpl. eauto 10.
  - (* write_step_report *)
    injection H as <-. simpl. repeat split.
    + exists []. now rewrite app_nil_r.
    + intros X. now contradict X.
Qed.

End RunFacts.

(** ** The turn budget of a stage *)

Module BudgetFacts.
Import State Utils Common Steps StageFacts RunFacts.

(** The messages the history can still take before the agent is over the
    limit. *)
Definition budget (sg : Stage) (st : StepState) : Z :=
  Z.max 0 (2 * MAX_MESSAGE_TURN sg + 1 - history_length st).

(** A bound on the supersteps a run still takes. *)
Definition remaining (sg : Stage) (c : Config) : Z :=
  match active c with
  | [write_step_report] => 1
  | [save_variables] => 2
  | [agent] => 4 * budget sg (state c) + 3
  | [python_executor] => 4 * budget sg (state c) + 4
  | [rendevous] => 4 * budget sg (state c) + 5
  | [checklist_validator; critic_validator] => 4 * budget sg (state c) + 6
  | [init_message_history] => 4 * budget sg (state c) + 7
  | [init_e2b_sandbox] => 4 * budget sg (state c) + 8
  | _ => 0
  end.

(** A node that runs alone brings the run closer to its end. *)
Ltac count_messages :=
  unfold remaining, budget, history_length in *;
  cbn -[Z.mul Z.max Z.of_nat Z.add Z.sub];
  rewrite ?length_app;
  cbn -[Z.mul Z.max Z.of_nat Z.add Z.sub];
  lia.

Lemma node_progress (w : World) (sg : Stage) (o : Outside) (st : StepState)
    (n : node) (cmd : Command) :
  wired sg ->
  n <> END -> n <> checklist_validator -> n <> critic_validator ->
  run_node w sg o st n = Ok cmd ->
  remaining sg {| state := apply_update st (update cmd);
                  active := dedup (successors (n, cmd)) |}
  < remaining sg {| state := st; active := [n] |}.
Proof.
  intros [Ha Hr] N1 N2 N3 H.
  destruct n; try (now contradict N1); try (now contradict N2);
    try (now contradict N3); simpl in H.
  - (* init_e2b_sandbox *)
    unfold get_init_e2b_sandbox_node in H.
    destruct (session o); simpl in H; [|discriminate].
    destruct (forallb loadable (variables st)); [|discriminate].
    destruct (error (bootstrap o)); [discriminate|].
    injection H as <-. count_messages.
  - (* init_message_history *)
    injection H as <-. count_messages.
  - (* agent *)
    unfold get_code_agent_node in H. rewrite Ha in H.
    destruct (Z.of_nat (List.length (step_message_history st))
              >? 2 * MAX_MESSAGE_TURN sg) eqn:E.
    + injection H as <-. count_messages.
    + rewrite Z.gtb_ltb in E. apply Z.ltb_ge in E.
      destruct (extract_code_block (content (response o))) as [[|ch r]|];
        try destruct (PyStr.contains "DONE" (content (response o)));
        injection H as <-; count_messages.
  - (* python_executor *)
    unfold get_python_executor_node in H.
    destruct (execution_content w (execution o)); simpl in H; [|discriminate].
    injection H as <-. count_messages.
  - (* rendevous *)
    unfold get_rendevous_node, route_on_validation in H. rewrite Hr in H.
    destruct (use_human_in_the_loop st).
    + destruct (interrupt_payload (step_name sg) st); simpl in H;
        [|discriminate].
      destruct (String.eqb (PyStr.lower (user_input o)) "ignore").
      { injection H as <-. count_messages. }
      destruct (String.eqb (PyStr.lower (user_input o)) "pass"
                || String.eqb (PyStr.strip (user_input o)) "").
      * destruct (checklist_passed st && all_critics_passed st);
          injection H as <-; count_messages.
      * injection H as <-. count_messages.
    + destruct (checklist_passed st && all_critics_passed st);
        injection H as <-; count_messages.
  - (* save_variables *)
    unfold get_save_variables_node in H.
    destruct (collect_variables w (run_code o) (variables_to_save st));
      simpl in H; [|discriminate].
    injection H as <-. count_messages.
  - (* write_step_report *)
    injection H as <-. count_messages.
Qed.

(** Every superstep of a run that has not ended brings it closer to its
    end. *)
Lemma superstep_progress (w : World) (sg : Stage) (o : Outside)
    (c c' : Config) :
  wired sg -> invariant sg c -> finished c = false ->
  superstep w sg o c = Ok c' ->
  remaining sg c' < remaining sg c.
Proof.
  intros Hw Hi Hf Hs. destruct c as [st act].
  destruct (invariant_shape sg _ Hi) as [E|[E|(n & E & N1 & N2 & N3)]];
    simpl in E; subst act.
  - discriminate.
  - rewrite (superstep_validators _ _ _ _ _ Hs). count_messages.
  - destruct (superstep_single _ _ _ _ _ _ Hs) as (cmd & Hn & ->).
    now apply (node_progress w sg o st n cmd).
Qed.

Lemma remaining_nonneg (sg : Stage) (c : Config) : 0 <= remaining sg c.
Proof.
  unfold remaining, budget.
  repeat match goal with
         | |- context [match ?x with _ => _ end] => destruct x
         end; lia.
Qed.

Lemma finished_stays (w : World) (sg : Stage) (os : list Outside)
    (c c' : Config) :
  finished c = true -> run w sg os c = Ok c' -> c' = c.
Proof.
  intros Hf. destruct c as [st act]. unfold finished in Hf. simpl in Hf.
  destruct act; [|discriminate]. clear Hf.
  induction os as [|o os IH]; simpl; intros H.
  - now injection H.
  - unfold superstep in H. simpl in H. apply IH. exact H.
Qed.

(** A run of [n] supersteps has ended or has used up [n] of the bound. *)
Lemma run_progress (w : World) (sg : Stage) (os : list Outside)
    (c c' : Config) :
  wired sg -> invariant sg c -> run w sg os c = Ok c' ->
  finished c' = true
  \/ remaining sg c' + Z.of_nat (List.length os) <= remaining sg c.
Proof.
  intros Hw. revert c. induction os as [|o os IH]; intros c Hi H; simpl in H.
  - injection H as <-. right. simpl. lia.
  - destruct (superstep w sg o c) as [c1|] eqn:E; simpl in H; [|discriminate].
    destruct (finished c) eqn:F.
    + left. pose proof (finished_stays w sg (o :: os) c c' F) as X.
      simpl in X. rewrite E in X. simpl in X. rewrite (X H). exact F.
    + pose proof (superstep_progress w sg o c c1 Hw Hi F E) as P.
      destruct (IH c1 (invariant_step w sg o c c1 Hw Hi E) H) as [D|D];
        [now left|].
      right. simpl List.length. lia.
Qed.

End BudgetFacts.

(** ** How the run of a stage ends *)

Module EndFacts.
Import State Utils Common Steps StageFacts RunFacts BudgetFacts.

(** Only the report node hands over to no node. *)
Lemma node_next (w : World) (sg : Stage) (o : Outside) (st : StepState)
    (n : node) (cmd : Command) :
  wired sg ->
  n <> END -> n <> checklist_validator -> n <> critic_validator ->
  run_node w sg o st n = Ok cmd ->
  dedup (successors (n, cmd)) = [] -> n = write_step_report.
Proof.
  intros [Ha Hr] N1 N2 N3 H.
  destruct n; try (now contradict N1); try (now contradict N2);
    try (now contradict N3); simpl in H; try reflexivity.
  - unfold get_init_e2b_sandbox_node in H.
    destruct (session o); simpl in H; [|discriminate].
    destruct (forallb loadable (variables st)); [|discriminate].
    destruct (error (bootstrap o)); [discriminate|].
    injection H as <-. discriminate.
  - injection H as <-. discriminate.
  - unfold get_code_agent_node in H. rewrite Ha in H.
    destruct (Z.of_nat (List.length (step_message_history st))
              >? 2 * MAX_MESSAGE_TURN sg).
    + injection H as <-. discriminate.
    + destruct (extract_code_block (content (response o))) as [[|ch r]|];
        try destruct (PyStr.contains "DONE" (content (response o)));
        injection H as <-; discriminate.
  - unfold get_python_executor_node in H.
    destruct (execution_content w (execution o)); simpl in H; [|discriminate].
    injection H as <-. discriminate.
  - unfold get_rendevous_node, route_on_validation in H. rewrite Hr in H.
    destruct (use_human_in_the_loop st).
    + destruct (interrupt_payload (step_name sg) st); simpl in H;
        [|discriminate].
      destruct (String.eqb (PyStr.lower (user_input o)) "ignore").
      { injection H as <-. discriminate. }
      destruct (String.eqb (PyStr.lower (user_input o)) "pass"
                || String.eqb (PyStr.strip (user_input o)) "").
      * destruct (checklist_passed st && all_critics_passed st);
          injection H as <-; discriminate.
      * injection H as <-. discriminate.
    + destruct (checklist_passed st && all_critics_passed st);
        injection H as <-; discriminate.
  - unfold get_save_variables_node in H.
    destruct (collect_variables w (run_code o) (variables_to_save st));
      simpl in H; [|discriminate].
    injection H as <-. discriminate.
Qed.

(** Whether the plan has a step of order [k]. *)
Definition has_step (k : Z) (steps : list Step) : bool :=
  existsb (fun step => order step =? k) steps.

Lemma update_first_marks (k : Z) (r : string) (steps : list Step) :
  has_step k steps = true ->
  stage_completed k (update_first k (set_completed_report r) steps) = true.
Proof.
  unfold has_step, stage_completed.
  induction steps as [|s steps IH]; simpl; [discriminate|].
  destruct (order s =? k) eqn:E; simpl.
  - intros _. now rewrite E.
  - intros H. rewrite E. simpl. now apply IH.
Qed.

Lemma update_first_has_step (k j : Z) (r : string) (steps : list Step) :
  has_step j (update_first k (set_completed_report r) steps)
  = has_step j steps.
Proof.
  unfold has_step.
  induction steps as [|s steps IH]; simpl; [reflexivity|].
  destruct (order s =? k); simpl; [reflexivity | now rewrite IH].
Qed.

(** The bound of the turn budget, on the stages of the program. *)
Definition superstep_bound (sg : Stage) : Z := 8 * MAX_MESSAGE_TURN sg + 13.

(** A run of a stage in which no node raises ends within the bound: after
    [8 * MAX_MESSAGE_TURN + 13] supersteps no node is left to run, whatever
    the model, the sandbox and the user answer. *)
Theorem stage_run_ends_within_bound (w : World) (sg : Stage)
    (st : StepState) (os : list Outside) (c' : Config) :
  In sg stages ->
  entered st ->
  stage_completed (stage_order sg) (steps st) = false ->
  run w sg os {| state := st; active := [init_e2b_sandbox] |} = Ok c' ->
  superstep_bound sg <= Z.of_nat (List.length os) ->
  active c' = [].
Proof.
  intros Hsg He Hc Hrun Hlen.
  pose proof (stages_wired sg Hsg) as Hw.
  pose proof (reachable_invariant w sg _ Hw (reachable_start w sg st He Hc))
    as Hi.
  destruct (run_progress w sg os _ c' Hw Hi Hrun) as [F|B].
  - unfold finished in F. now destruct (active c').
  - exfalso. pose proof (remaining_nonneg sg c') as P.
    destruct He as (Hh & _).
    unfold remaining, budget, history_length, superstep_bound in *.
    cbn -[Z.mul Z.max Z.of_nat Z.add Z.sub] in B.
    rewrite Hh in B. cbn -[Z.mul Z.max Z.add Z.sub] in B.
    destruct Hsg as [<-|[<-|[<-|[]]]];
      cbn -[Z.mul Z.max Z.add Z.sub] in *; lia.
Qed.

Lemma stage_run_ends_within_bound_witness :
  active
    match
      run Orchestrator.plain_world step_2_data_cleaning
        (repeat CompletionFacts.coding 253)
        {| state := Orchestrator.fresh_input;
           active := [init_e2b_sandbox] |}
    with
    | Ok c => c
    | Raise _ => CompletionFacts.start_of_stage_2
    end
  = [].
Proof.
  apply (stage_run_ends_within_bound Orchestrator.plain_world
           step_2_data_cleaning Orchestrator.fresh_input
           (repeat CompletionFacts.coding 253)).
  - simpl. left. reflexivity.
  - repeat split; reflexivity.
  - reflexivity.
  - vm_compute. reflexivity.
  - vm_compute. discriminate.
Defined.

(** When the run of a stage has ended, the step of the stage is marked
    completed, provided the plan has a step of that order. *)
Theorem ended_run_marks_step (w : World) (sg : Stage) (c : Config) :
  In sg stages ->
  reachable w sg c ->
  active c = [] ->
  has_step (stage_order sg) (steps (state c)) = true ->
  stage_completed (stage_order sg) (steps (state c)) = true.
Proof.
  intros Hsg Hr. pose proof (stages_wired sg Hsg) as Hw.
  induction Hr as [st He Hc | c o c' Hr IH Hs]; [discriminate|].
  intros Ha Hp.
  pose proof (reachable_invariant w sg c Hw Hr) as Hi.
  destruct c as [st act].
  destruct (invariant_shape sg _ Hi) as [E|[E|(n & E & N1 & N2 & N3)]];
    simpl in E; subst act.
  - unfold superstep in Hs. simpl in Hs. injection Hs as <-.
    now apply IH.
  - rewrite (superstep_validators _ _ _ _ _ Hs) in Ha. discriminate.
  - destruct (superstep_single _ _ _ _ _ _ Hs) as (cmd & Hn & ->).
    simpl in Ha, Hp |- *.
    pose proof (node_next w sg o st n cmd Hw N1 N2 N3 Hn Ha) as ->.
    destruct (node_effect w sg o st write_step_report cmd Hw N1 N2 N3 Hn)
      as (_ & _ & _ & _ & _ & _ & S).
    rewrite (S eq_refl) in Hp |- *.
    rewrite update_first_has_step in Hp.
    now apply update_first_marks.
Qed.

Lemma ended_run_marks_step_witness :
  stage_completed 2 (steps (state CompletionFacts.end_of_validated_run))
  = true.
Proof.
  apply (ended_run_marks_step Orchestrator.plain_world step_2_data_cleaning
           CompletionFacts.end_of_validated_run).
  - simpl. left. reflexivity.
  - apply (run_reachable Orchestrator.plain_world step_2_data_cleaning
             (repeat CompletionFacts.finishing 7)
             CompletionFacts.start_of_stage_2).
    + exact CompletionFacts.start_of_stage_2_reachable.
    + vm_compute. reflexivity.
  - vm_compute. reflexivity.
  - vm_compute. reflexivity.
Defined.

End EndFacts.

(** ** What a run of a stage keeps *)

Module KeepFacts.
Import State Utils Common Steps StageFacts RunFacts.

(** A step after some supersteps: the same order, name and description,
    and still completed if it was. *)
Definition step_kept (s s' : Step) : Prop :=
  order s = order s' /\ name s = name s'
  /\ description s = description s'
  /\ (completed s = true -> completed s' = true).

Definition steps_kept (ss ss' : list Step) : Prop := Forall2 step_kept ss ss'.

Lemma steps_kept_refl (ss : list Step) : steps_kept ss ss.
Proof.
  induction ss as [|s ss IH]; constructor; [|exact IH].
  repeat split; auto.
Qed.

Lemma steps_kept_trans (a b c : list Step) :
  steps_kept a b -> steps_kept b c -> steps_kept a c.
Proof.
  intros H. revert c. induction H as [|x y a b Hxy Hab IH]; intros c Hbc.
  - inversion Hbc. constructor.
  - inversion Hbc as [|y' z b' c' Hyz Hbc' E1 E2]; subst.
    constructor; [|now apply IH].
    destruct Hxy as (A & B & C & D), Hyz as (A' & B' & C' & D').
    repeat split; try congruence. auto.
Qed.

Lemma update_first_kept (k : Z) (r : string) (ss : list Step) :
  steps_kept ss (update_first k (set_completed_report r) ss).
Proof.
  induction ss as [|s ss IH]; simpl; [constructor|].
  destruct (order s =? k).
  - constructor; [|apply steps_kept_refl]. repeat split; auto.
  - constructor; [|exact IH]. repeat split; auto.
Qed.

(** What a later state of a run keeps of an earlier one. *)
Definition keeps (st st' : StepState) : Prop :=
  objective st' = objective st
  /\ use_human_in_the_loop st' = use_human_in_the_loop st
  /\ skip_define_objective_step st' = skip_define_objective_step st
  /\ final_report st' = final_report st
  /\ (exists more,
        step_message_history st' = (step_message_history st ++ more)%list)
  /\ steps_kept (steps st) (steps st').

Lemma keeps_refl (st : StepState) : keeps st st.
Proof.
  repeat split; try reflexivity; [|apply steps_kept_refl].
  exists []. now rewrite app_nil_r.
Qed.

Lemma keeps_trans (a b c : StepState) : keeps a b -> keeps b c -> keeps a c.
Proof.
  intros (A1 & A2 & A3 & A4 & (m & A5) & A6)
         (B1 & B2 & B3 & B4 & (m' & B5) & B6).
  repeat split; try congruence.
  - exists (m ++ m')%list. rewrite B5, A5. now rewrite app_assoc.
  - exact (steps_kept_trans _ _ _ A6 B6).
Qed.

Lemma superstep_keeps (w : World) (sg : Stage) (o : Outside)
    (c c' : Config) :
  wired sg -> invariant sg c -> superstep w sg o c = Ok c' ->
  keeps (state c) (state c').
Proof.
  intros Hw Hi Hs. destruct c as [st act].
  destruct (invariant_shape sg _ Hi) as [E|[E|(n & E & N1 & N2 & N3)]];
    simpl in E; subst act.
  - unfold superstep in Hs. simpl in Hs. injection Hs as <-.
    apply keeps_refl.
  - rewrite (superstep_validators _ _ _ _ _ Hs). simpl.
    repeat split; try reflexivity; [|apply steps_kept_refl].
    simpl. rewrite <- app_assoc. now eexists.
  - destruct (superstep_single _ _ _ _ _ _ Hs) as (cmd & Hn & ->). simpl.
    destruct (node_effect w sg o st n cmd Hw N1 N2 N3 Hn)
      as (A & B & C & D & F & S1 & S2).
    repeat split; try assumption.
    destruct n; try (rewrite S1 by discriminate; apply steps_kept_refl).
    rewrite (S2 eq_refl). apply update_first_kept.
Qed.

Lemma run_keeps (w : World) (sg : Stage) (os : list Outside)
    (c c' : Config) :
  wired sg -> invariant sg c -> run w sg os c = Ok c' ->
  keeps (state c) (state c').
Proof.
  intros Hw. revert c. induction os as [|o os IH]; intros c Hi H; simpl in H.
  - injection H as <-. apply keeps_refl.
  - destruct (superstep w sg o c) as [c1|] eqn:E; simpl in H; [|discriminate].
    apply (keeps_trans _ (state c1)).
    + exact (superstep_keeps w sg o c c1 Hw Hi E).
    + exact (IH c1 (invariant_step w sg o c c1 Hw Hi E) H).
Qed.

(** Along a run of a stage the plan keeps its steps, in their order and
    with their order numbers, names and descriptions, and a step that is
    completed stays completed. *)
Theorem completed_steps_stay_completed (w : World) (sg : Stage)
    (os : list Outside) (c c' : Config) :
  In sg stages -> reachable w sg c -> run w sg os c = Ok c' ->
  steps_kept (steps (state c)) (steps (state c')).
Proof.
  intros Hsg Hr H. pose proof (stages_wired sg Hsg) as Hw.
  exact (proj2 (proj2 (proj2 (proj2 (proj2
           (run_keeps w sg os c c' Hw (reachable_invariant w sg c Hw Hr)
              H)))))).
Qed.

Lemma completed_steps_stay_completed_witness :
  steps_kept (steps (state CompletionFacts.start_of_stage_2))
    (steps (state CompletionFacts.end_of_validated_run)).
Proof.
  apply (completed_steps_stay_completed Orchestrator.plain_world
           step_2_data_cleaning (repeat CompletionFacts.finishing 7)).
  - simpl. left. reflexivity.
  - exact CompletionFacts.start_of_stage_2_reachable.
  - vm_compute. reflexivity.
Defined.

(** A run of a stage never changes the objective, the two flags of the
    request, or the final report. *)
Theorem stage_leaves_request_alone (w : World) (sg : Stage)
    (os : list Outside) (c c' : Config) :
  In sg stages -> reachable w sg c -> run w sg os c = Ok c' ->
  objective (state c') = objective (state c)
  /\ use_human_in_the_loop (state c') = use_human_in_the_loop (state c)
  /\ skip_define_objective_step (state c')
     = skip_define_objective_step (state c)
  /\ final_report (state c') = final_report (state c).
Proof.
  intros Hsg Hr H. pose proof (stages_wired sg Hsg) as Hw.
  destruct (run_keeps w sg os c c' Hw (reachable_invariant w sg c Hw Hr) H)
    as (A & B & C & D & _).
  repeat split; assumption.
Qed.

Lemma stage_leaves_request_alone_witness :
  objective (state CompletionFacts.end_of_validated_run)
  = objective (state CompletionFacts.start_of_stage_2)
  /\ use_human_in_the_loop (state CompletionFacts.end_of_validated_run)
     = use_human_in_the_loop (state CompletionFacts.start_of_stage_2)
  /\ skip_define_objective_step
       (state CompletionFacts.end_of_validated_run)
     = skip_define_objective_step (state CompletionFacts.start_of_stage_2)
  /\ final_report (state CompletionFacts.end_of_validated_run)
     = final_report (state CompletionFacts.start_of_stage_2).
Proof.
  apply (stage_leaves_request_alone Orchestrator.plain_world
           step_2_data_cleaning (repeat CompletionFacts.finishing 7)).
  - simpl. left. reflexivity.
  - exact CompletionFacts.start_of_stage_2_reachable.
  - vm_compute. reflexivity.
Defined.

End KeepFacts.

(** ** What a node finds when it runs *)

Module ArrivalFacts.
Import State Utils Common Steps StageFacts RunFacts.

Lemma active_after_single (w : World) (sg : Stage) (o : Outside)
    (st : StepState) (n m : node) (cmd : Command) :
  wired sg ->
  n <> END -> n <> checklist_validator -> n <> critic_validator ->
  run_node w sg o st n = Ok cmd ->
  dedup (successors (n, cmd)) = [m] ->
  (m = rendevous -> False)
  /\ (m = python_executor ->
      n = agent
      /\ exists code,
           extract_code_block (content (response o)) = Some code
           /\ code <> ""
           /\ update cmd = [W_step_message_history [response o];
                            W_code_block code]).
Proof.
  intros [Ha Hr] N1 N2 N3 H.
  destruct n; try (now contradict N1); try (now contradict N2);
    try (now contradict N3); simpl in H.
  - unfold get_init_e2b_sandbox_node in H.
    destruct (session o); simpl in H; [|discriminate].
    destruct (forallb loadable (variables st)); [|discriminate].
    destruct (error (bootstrap o)); [discriminate|].
    injection H as <-. intros E; injection E as <-.
    split; discriminate.
  - injection H as <-. intros E; injection E as <-. split; discriminate.
  - unfold get_code_agent_node in H. rewrite Ha in H.
    destruct (Z.of_nat (List.length (step_message_history st))
              >? 2 * MAX_MESSAGE_TURN sg).
    + injection H as <-. intros E; injection E as <-. split; discriminate.
    + destruct (extract_code_block (content (response o)))
        as [[|ch r]|] eqn:X;
        try destruct (PyStr.contains "DONE" (content (response o)));
        injection H as <-; intros E; try discriminate E;
        injection E as <-; split; try discriminate.
      all: intros _; split; [reflexivity|].
      all: exists (String ch r); repeat split; discriminate.
  - unfold get_python_executor_node in H.
    destruct (execution_content w (execution o)); simpl in H; [|discriminate].
    injection H as <-. intros E; injection E as <-. split; discriminate.
  - unfold get_rendevous_node, route_on_validation in H. rewrite Hr in H.
    destruct (use_human_in_the_loop st).
    + destruct (interrupt_payload (step_name sg) st); simpl in H;
        [|discriminate].
      destruct (String.eqb (PyStr.lower (user_input o)) "ignore").
      { injection H as <-. intros E; injection E as <-.
        split; discriminate. }
      destruct (String.eqb (PyStr.lower (user_input o)) "pass"
                || String.eqb (PyStr.strip (user_input o)) "").
      * destruct (checklist_passed st && all_critics_passed st);
          injection H as <-; intros E; injection E as <-;
          split; discriminate.
      * injection H as <-. intros E; injection E as <-.
        split; discriminate.
    + destruct (checklist_passed st && all_critics_passed st);
        injection H as <-; intros E; injection E as <-;
        split; discriminate.
  - unfold get_save_variables_node in H.
    destruct (collect_variables w (run_code o) (variables_to_save st));
      simpl in H; [|discriminate].
    injection H as <-. intros E; injection E as <-. split; discriminate.
  - injection H as <-. discriminate.
Qed.

(** The last message of a history. *)
Definition last_message (st : StepState) : option Message :=
  match List.rev (step_message_history st) with
  | [] => None
  | m :: _ => Some m
  end.

(** Whenever the rendezvous runs, both validators have just run: the
    checklist result is there and the critic results are exactly two. *)
Theorem rendevous_finds_both_validations (w : World) (sg : Stage)
    (c : Config) :
  In sg stages ->
  reachable w sg c ->
  active c = [rendevous] ->
  exists checklist o3 opus,
    checklist_validation_result (state c) = Some checklist
    /\ critic_validation_result (state c) = Some [o3; opus].
Proof.
  intros Hsg Hr Ha. pose proof (stages_wired sg Hsg) as Hw.
  destruct Hr as [st He Hc | c o c' Hr Hs]; [discriminate|].
  pose proof (reachable_invariant w sg c Hw Hr) as Hi.
  destruct c as [st act].
  destruct (invariant_shape sg _ Hi) as [E|[E|(n & E & N1 & N2 & N3)]];
    simpl in E; subst act.
  - unfold superstep in Hs. simpl in Hs. injection Hs as <-. discriminate.
  - rewrite (superstep_validators _ _ _ _ _ Hs). simpl.
    exists (checklist_verdict o), (o3_verdict o), (claude_4_opus_verdict o).
    split; reflexivity.
  - destruct (superstep_single _ _ _ _ _ _ Hs) as (cmd & Hn & ->).
    simpl in Ha.
    destruct (active_after_single w sg o st n rendevous cmd Hw N1 N2 N3 Hn Ha)
      as [F _].
    now contradict F.
Qed.

Lemma rendevous_finds_both_validations_witness :
  exists checklist o3 opus,
    checklist_validation_result (state ResumeFacts.at_rendevous)
    = Some checklist
    /\ critic_validation_result (state ResumeFacts.at_rendevous)
       = Some [o3; opus].
Proof.
  apply (rendevous_finds_both_validations Orchestrator.plain_world
           step_2_data_cleaning ResumeFacts.at_rendevous).
  - simpl. left. reflexivity.
  - apply (run_reachable Orchestrator.plain_world step_2_data_cleaning
             (repeat CompletionFacts.finishing 4)
             {| state :=
                  enter "objective" [] false true "" get_default_steps "";
                active := [init_e2b_sandbox] |}).
    + apply reachable_start; [|reflexivity]. repeat split; reflexivity.
    + vm_compute. reflexivity.
  - vm_compute. reflexivity.
Defined.

(** Whenever the executor runs, the code block of the state is not empty
    and is what [extract_code_block] gets from the last message of the
    history, which contains no DONE. *)
Theorem executor_runs_extracted_code (w : World) (sg : Stage) (c : Config) :
  In sg stages ->
  reachable w sg c ->
  active c = [python_executor] ->
  code_block (state c) <> ""
  /\ exists response,
       last_message (state c) = Some response
       /\ extract_code_block (content response)
          = Some (code_block (state c))
       /\ PyStr.contains "DONE" (content response) = false.
Proof.
  intros Hsg Hr Ha. pose proof (stages_wired sg Hsg) as Hw.
  destruct Hr as [st He Hc | c o c' Hr Hs]; [discriminate|].
  pose proof (reachable_invariant w sg c Hw Hr) as Hi.
  destruct c as [st act].
  destruct (invariant_shape sg _ Hi) as [E|[E|(n & E & N1 & N2 & N3)]];
    simpl in E; subst act.
  - unfold superstep in Hs. simpl in Hs. injection Hs as <-. discriminate.
  - rewrite (superstep_validators _ _ _ _ _ Hs) in Ha. discriminate.
  - destruct (superstep_single _ _ _ _ _ _ Hs) as (cmd & Hn & ->).
    simpl in Ha.
    destruct (active_after_single w sg o st n python_executor cmd Hw
                N1 N2 N3 Hn Ha) as [_ F].
    destruct (F eq_refl) as (-> & code & X & Hne & U).
    simpl. rewrite U. simpl. split; [exact Hne|].
    exists (response o). unfold last_message. simpl.
    rewrite rev_app_distr. simpl. split; [reflexivity|].
    split; [exact X|].
    unfold extract_code_block in X.
    destruct (PyStr.contains "DONE" (content (response o)));
      [discriminate | reflexivity].
Qed.

Definition at_executor : Config :=
  match
    run Orchestrator.plain_world step_2_data_cleaning
      (repeat CompletionFacts.coding 3) CompletionFacts.start_of_stage_2
  with
  | Ok c => c
  | Raise _ => CompletionFacts.start_of_stage_2
  end.

Lemma executor_runs_extracted_code_witness :
  code_block (state at_executor) <> ""
  /\ exists response,
       last_message (state at_executor) = Some response
       /\ extract_code_block (content response)
          = Some (code_block (state at_executor))
       /\ PyStr.contains "DONE" (content response) = false.
Proof.
  apply (executor_runs_extracted_code Orchestrator.plain_world
           step_2_data_cleaning at_executor).
  - simpl. left. reflexivity.
  - apply (run_reachable Orchestrator.plain_world step_2_data_cleaning
             (repeat CompletionFacts.coding 3)
             CompletionFacts.start_of_stage_2).
    + exact CompletionFacts.start_of_stage_2_reachable.
    + vm_compute. reflexivity.
  - vm_compute. reflexivity.
Defined.

End ArrivalFacts.

(** ** The first stage *)

Module Step1Facts.
Import State Utils Common Step1.

(** What no node of the first stage writes. *)
Definition untouched (st st' : StepState) : Prop :=
  steps st' = steps st
  /\ variables st' = variables st
  /\ sandbox_id st' = sandbox_id st
  /\ critic_validation_result st' = critic_validation_result st.

Lemma superstep_untouched (o : Outside) (c : StepState * option node) :
  untouched (fst c) (fst (superstep o c)).
Proof.
  destruct c as [st [n|]]; unfold superstep; simpl;
    [|repeat split; reflexivity].
  destruct n; simpl; try (repeat split; reflexivity).
  - unfold agent_node.
    destruct (Z.of_nat (List.length (step_message_history st))
              >? 2 * MAX_MESSAGE_TURN); [repeat split; reflexivity|].
    destruct (is_request_answerable (response o)
              && is_request_specific (response o));
      repeat split; reflexivity.
  - unfold rendevous_node. destruct (checklist_passed st);
      repeat split; reflexivity.
Qed.

(** From its start, the first stage only ever runs its first two nodes. *)
Definition on_the_loop (n : option node) : Prop :=
  n = None \/ n = Some init_message_history \/ n = Some agent.

Lemma superstep_on_the_loop (o : Outside) (c : StepState * option node) :
  on_the_loop (snd c) -> on_the_loop (snd (superstep o c)).
Proof.
  destruct c as [st n]. simpl. intros [-> | [-> | ->]]; unfold superstep; simpl.
  - now left.
  - right. now right.
  - unfold agent_node.
    destruct (Z.of_nat (List.length (step_message_history st))
              >? 2 * MAX_MESSAGE_TURN); simpl; [now left|].
    destruct (is_request_answerable (response o)
              && is_request_specific (response o)); simpl;
      [now left | right; now right].
Qed.

(** A run of the first stage never writes the plan, the variables or the
    sandbox, and never runs its checklist validator or its rendezvous:
    nothing in this stage marks its step completed. *)
Theorem first_stage_never_marks_its_step (os : list Outside)
    (st : StepState) :
  let c' := run os (st, Some init_message_history) in
  steps (fst c') = steps st
  /\ variables (fst c') = variables st
  /\ sandbox_id (fst c') = sandbox_id st
  /\ snd c' <> Some checklist_validator
  /\ snd c' <> Some rendevous.
Proof.
  assert (G : forall os c,
             on_the_loop (snd c) ->
             untouched (fst c) (fst (run os c))
             /\ on_the_loop (snd (run os c))).
  { clear. induction os as [|o os IH]; intros c Hl; simpl.
    - split; [repeat split; reflexivity | exact Hl].
    - destruct (IH (superstep o c) (superstep_on_the_loop o c Hl))
        as [(A & B & C & D) L].
      destruct (superstep_untouched o c) as (A' & B' & C' & D').
      split; [|exact L]. repeat split; congruence. }
  destruct (G os (st, Some init_message_history)) as [(A & B & C & _) L].
  { right. now left. }
  simpl in *. repeat split; try assumption.
  - destruct L as [L|[L|L]]; rewrite L; discriminate.
  - destruct L as [L|[L|L]]; rewrite L; discriminate.
Qed.

Definition history_length (st : StepState) : Z :=
  Z.of_nat (List.length (step_message_history st)).

(** A bound on the supersteps the first stage still takes. *)
Definition remaining (c : StepState * option node) : Z :=
  match snd c with
  | Some init_message_history =>
      2 + Z.max 0 ((6 - history_length (fst c)) / 2)
  | Some agent => 1 + Z.max 0 ((8 - history_length (fst c)) / 2)
  | _ => 0
  end.

Lemma superstep_remaining (o : Outside) (c : StepState * option node) :
  on_the_loop (snd c) -> snd c <> None ->
  remaining (superstep o c) < remaining c.
Proof.
  assert (K : forall L, L <= 6 ->
                1 + Z.max 0 ((8 - (L + 2)) / 2)
                < 1 + Z.max 0 ((8 - L) / 2)).
  { intros L HL.
    replace (8 - (L + 2)) with ((8 - L) + (-1) * 2) by lia.
    rewrite Z.div_add by lia.
    assert (Y : 1 <= (8 - L) / 2) by (apply Z.div_le_lower_bound; lia).
    lia. }
  destruct c as [st n]. simpl. intros [-> | [-> | ->]] Hn;
    [now contradict Hn| |]; unfold superstep, remaining, history_length;
    cbn -[Z.mul Z.max Z.of_nat Z.add Z.sub Z.div].
  - rewrite length_app, Nat2Z.inj_add.
    match goal with
    | |- context [Z.of_nat (List.length [?a; ?b])] =>
        change (Z.of_nat (List.length [a; b])) with 2
    end.
    replace (8 - (Z.of_nat (List.length (step_message_history st)) + 2))
      with (6 - Z.of_nat (List.length (step_message_history st))) by lia.
    lia.
  - unfold agent_node.
    destruct (Z.of_nat (List.length (step_message_history st))
              >? 2 * MAX_MESSAGE_TURN) eqn:E;
      cbn -[Z.mul Z.max Z.of_nat Z.add Z.sub Z.div]; [lia|].
    rewrite Z.gtb_ltb in E. apply Z.ltb_ge in E.
    unfold MAX_MESSAGE_TURN in E.
    destruct (is_request_answerable (response o)
              && is_request_specific (response o));
      cbn -[Z.mul Z.max Z.of_nat Z.add Z.sub Z.div]; [lia|].
    rewrite length_app, Nat2Z.inj_add.
    match goal with
    | |- context [Z.of_nat (List.length [?a; ?b])] =>
        change (Z.of_nat (List.length [a; b])) with 2
    end.
    apply K. lia.
Qed.

Lemma run_ended (os : list Outside) (st : StepState) :
  run os (st, None) = (st, None).
Proof. induction os as [|o os IH]; simpl; [reflexivity | exact IH]. Qed.

Lemma run_remaining (os : list Outside) (c : StepState * option node) :
  on_the_loop (snd c) ->
  snd (run os c) = None
  \/ remaining (run os c) + Z.of_nat (List.length os) <= remaining c.
Proof.
  revert c. induction os as [|o os IH]; intros c Hl; simpl run.
  - right. simpl. lia.
  - pose proof Hl as Hl'.
    destruct (snd c) as [n|] eqn:E in Hl' |- *.
    + assert (Hn : snd c <> None) by (rewrite E; discriminate).
      pose proof (superstep_remaining o c Hl Hn) as P.
      destruct (IH (superstep o c) (superstep_on_the_loop o c Hl)) as [D|D];
        [now left|].
      right. simpl List.length. lia.
    + left. destruct c as [st n]. simpl in E. subst n.
      unfold superstep. simpl. now rewrite run_ended.
Qed.

Lemma run_on_the_loop (os : list Outside) (c : StepState * option node) :
  on_the_loop (snd c) -> on_the_loop (snd (run os c)).
Proof.
  revert c. induction os as [|o os IH]; intros c Hl; simpl; [exact Hl|].
  apply IH. now apply superstep_on_the_loop.
Qed.

(** The first stage ends within five supersteps of its start: the prompt,
    then at most four turns of the agent, whatever the model and the user
    answer. *)
Theorem first_stage_ends_within_five (os : list Outside) (st : StepState) :
  step_message_history st = [] ->
  (5 <= List.length os)%nat ->
  snd (run os (st, Some init_message_history)) = None.
Proof.
  intros Hh Hl.
  assert (L0 : on_the_loop (snd (st, Some init_message_history)))
    by (right; now left).
  destruct (run_remaining os (st, Some init_message_history) L0) as [D|D];
    [exact D|].
  assert (R : remaining (st, Some init_message_history) = 5).
  { unfold remaining, history_length. cbn [fst snd]. rewrite Hh.
    reflexivity. }
  rewrite R in D.
  pose proof (run_on_the_loop os _ L0) as L.
  unfold remaining in D.
  destruct L as [L|[L|L]]; [exact L| |]; rewrite L in D; exfalso; lia.
Qed.

Lemma first_stage_ends_within_five_witness :
  snd (run (repeat Orchestrator.request_accepted 5)
         (Orchestrator.fresh_input, Some init_message_history))
  = None.
Proof.
  apply (first_stage_ends_within_five
           (repeat Orchestrator.request_accepted 5)
           Orchestrator.fresh_input).
  - reflexivity.
  - simpl. lia.
Defined.

End Step1Facts.

(** ** Completing a step and the current step *)

Module ProgressFacts.
Import State Utils Common EntryGraph RouterFacts.

(** A step that is still not completed after the first step of order [k]
    has been marked was in the plan before, and its order is not [k] when
    the orders of the plan are distinct. *)
Lemma not_completed_after_mark (k : Z) (f : Step -> Step) (plan : list Step)
    (s : Step) :
  (forall x, completed (f x) = true) ->
  NoDup (map order plan) ->
  In s (update_first k f plan) -> completed s = false ->
  In s plan /\ order s <> k.
Proof.
  intros Hf. induction plan as [|x plan IH]; simpl; intros Hn Hin Hc;
    [contradiction|].
  pose proof (proj1 (NoDup_cons_iff _ _) Hn) as [Hx Hn'].
  destruct (order x =? k) eqn:E.
  - apply Z.eqb_eq in E. destruct Hin as [<-|Hin].
    + rewrite Hf in Hc. discriminate.
    + split; [now right|]. intros X. apply Hx. rewrite E, <- X.
      now apply in_map.
  - apply Z.eqb_neq in E. destruct Hin as [<-|Hin].
    + split; [now left | exact E].
    + destruct (IH Hn' Hin Hc) as [A B]. split; [now right | exact B].
Qed.

(** When the orders of the plan are distinct, marking the current step
    completed, as [write_step_report] does, moves the current step on: no
    step is current any more, or one of a greater order. *)
Theorem completing_current_step_moves_on (plan : list Step) (cur : Step)
    (r : string) :
  NoDup (map order plan) ->
  get_current_step plan = Some cur ->
  get_current_step
    (update_first (order cur) (set_completed_report r) plan) = None
  \/ exists next,
       get_current_step
         (update_first (order cur) (set_completed_report r) plan)
       = Some next
       /\ order cur < order next.
Proof.
  intros Hn Hc.
  destruct (get_current_step_some plan cur Hc) as (_ & _ & Hmin).
  destruct (get_current_step
              (update_first (order cur) (set_completed_report r) plan))
    as [next|] eqn:E; [|now left].
  right. exists next. split; [reflexivity|].
  destruct (get_current_step_some _ _ E) as (Hin & Hnc & _).
  destruct (not_completed_after_mark (order cur) (set_completed_report r)
              plan next (fun _ => eq_refl) Hn Hin Hnc) as [Hp Hne].
  specialize (Hmin next Hp Hnc). lia.
Qed.

Lemma completing_current_step_moves_on_witness :
  get_current_step
    (update_first 1 (set_completed_report "defined") get_default_steps)
  = None
  \/ exists next,
       get_current_step
         (update_first 1 (set_completed_report "defined") get_default_steps)
       = Some next
       /\ 1 < order next.
Proof.
  apply (completing_current_step_moves_on get_default_steps
           {| order := 1; name := "Define the Objective";
              description := "Understand the problem and set goals";
              completed := false; report := "" |} "defined").
  - simpl. repeat constructor; simpl; intuition discriminate.
  - reflexivity.
Defined.

(** With the first stage skipped and distinct orders in the plan, the
    router never names the first stage. *)
Theorem skipped_first_stage_is_not_dispatched (st : StepState) :
  skip_define_objective_step st = true ->
  NoDup (map order (steps st)) ->
  stage_router (apply_update st (check_if_skip_any_step_node st))
  <> step_1_define_objective.
Proof.
  intros Hs Hn. unfold check_if_skip_any_step_node. rewrite Hs.
  rewrite stage_router_current. simpl.
  destruct (get_current_step (update_first 1 set_completed (steps st)))
    as [cur|] eqn:E; [|discriminate].
  destruct (get_current_step_some _ _ E) as (Hin & Hnc & _).
  destruct (not_completed_after_mark 1 set_completed (steps st) cur
              (fun _ => eq_refl) Hn Hin Hnc) as [_ Hne].
  unfold stage_of_order.
  destruct (order cur =? 1) eqn:X; [apply Z.eqb_eq in X; contradiction|].
  destruct (order cur =? 2); [discriminate|].
  destruct (order cur =? 3); [discriminate|].
  destruct (order cur =? 4); [discriminate|].
  destruct (order cur =? 5); discriminate.
Qed.

Lemma skipped_first_stage_is_not_dispatched_witness :
  stage_router
    (apply_update
       (Steps.enter "objective" [] true false "" get_default_steps "")
       (check_if_skip_any_step_node
          (Steps.enter "objective" [] true false "" get_default_steps "")))
  <> step_1_define_objective.
Proof.
  apply (skipped_first_stage_is_not_dispatched
           (Steps.enter "objective" [] true false "" get_default_steps "")).
  - reflexivity.
  - simpl. repeat constructor; simpl; intuition discriminate.
Defined.

End ProgressFacts.

(** ** Errors of the nodes *)

Module NodeErrorFacts.
Import State Utils Common Steps.

(** The rendezvous raises in exactly one case: the human is in the loop
    and no checklist result is in the state; it then raises the
    [AttributeError] of reading the missing result. *)
Theorem rendevous_raises_only_without_checklist
    (next_node_name agent_node_name : node) (step_name user_input : string)
    (st : StepState) (e : exn) :
  get_rendevous_node next_node_name agent_node_name step_name st user_input
  = Raise e
  <-> use_human_in_the_loop st = true
      /\ checklist_validation_result st = None
      /\ e = AttributeError.
Proof.
  unfold get_rendevous_node, interrupt_payload.
  destruct (use_human_in_the_loop st).
  - destruct (checklist_validation_result st) as [r|]; cbn [bind].
    + split.
      * destruct (String.eqb (PyStr.lower user_input) "ignore");
          [discriminate|].
        destruct (String.eqb (PyStr.lower user_input) "pass"
                  || String.eqb (PyStr.strip user_input) "");
          discriminate.
      * intros (_ & X & _). discriminate.
    + split.
      * intros H; injection H as <-. now repeat split.
      * intros (_ & _ & ->). reflexivity.
  - split; [discriminate|]. intros (X & _). discriminate.
Qed.

(** The executor raises exactly when a result of the execution cannot be
    parsed; otherwise it appends one human message, which is never empty,
    and hands back to the agent. *)
Theorem executor_answers_with_one_message (w : World) (st : StepState)
    (e : Execution) :
  (forall x, parse_e2b_execution_results w (results e) = Raise x ->
             get_python_executor_node w st e = Raise x)
  /\ (forall parsed,
        parse_e2b_execution_results w (results e) = Ok parsed ->
        exists text,
          text <> ""
          /\ get_python_executor_node w st e
             = Ok {| goto := [agent];
                     update :=
                       [W_step_message_history [HumanMessage text]] |}).
Proof.
  unfold get_python_executor_node, execution_content. split.
  - intros x H. rewrite H. reflexivity.
  - intros parsed H. rewrite H. cbn [bind].
    assert (K : forall c, or_else c "No output from the code block." <> "").
    { intros c. unfold or_else. destruct c; simpl; discriminate. }
    destruct (error e); eexists; (split; [apply K | reflexivity]).
Qed.

(** If the evaluation of any selected name reports an error, the node that
    saves the variables raises: nothing is saved. *)
Theorem save_variables_is_all_or_nothing (w : World) (st : StepState)
    (run_code : string -> Execution) (v : VariableToSave) :
  In v (variables_to_save st) ->
  error (run_code (var_key v)) <> None ->
  exists x, get_save_variables_node w st run_code = Raise x.
Proof.
  unfold get_save_variables_node. intros Hin He.
  assert (K : exists x,
             collect_variables w run_code (variables_to_save st) = Raise x).
  { induction (variables_to_save st) as [|u us IH]; [contradiction|].
    simpl. destruct Hin as [->|Hin].
    - destruct (error (run_code (var_key v))); [now eexists|].
      now contradict He.
    - destruct (error (run_code (var_key u))); [now eexists|].
      destruct (parse_e2b_execution_results w
                  (results (run_code (var_key u)))); simpl;
        [|now eexists].
      destruct (IH Hin) as [x ->]. now eexists. }
  destruct K as [x ->]. now eexists.
Qed.

Definition name_error (code : string) : Execution :=
  {| error := Some {| err_name := "NameError";
                      err_value := "name 'df' is not defined";
                      traceback := "" |};
     stdout := []; stderr := []; results := [] |}.

Lemma save_variables_is_all_or_nothing_witness :
  exists x,
    get_save_variables_node Orchestrator.plain_world
      SaveFacts.selected_twice name_error = Raise x.
Proof.
  apply (save_variables_is_all_or_nothing Orchestrator.plain_world
           SaveFacts.selected_twice name_error
           {| var_key := "df"; var_description := "the cleaned table" |}).
  - simpl. left. reflexivity.
  - discriminate.
Defined.

End NodeErrorFacts.

(** ** The text helpers *)

Module TextFacts.
Import PyStr PyStrFacts Utils TruncateFacts.

Lemma append_empty_r (s : string) : (s ++ "")%string = s.
Proof. induction s as [|c s IH]; simpl; [reflexivity | now rewrite IH]. Qed.

Lemma substring_append_left (a b : string) :
  substring 0 (String.length a) (a ++ b) = a.
Proof.
  induction a as [|c a IH]; simpl.
  - destruct b; reflexivity.
  - now rewrite IH.
Qed.

Lemma substring_append_right (a b : string) :
  substring (String.length a) (String.length b) (a ++ b) = b.
Proof.
  induction a as [|c a IH]; simpl; [apply substring_all | exact IH].
Qed.

(** The length of the annotation: 37 characters and the digits. *)
Lemma len_annotation (n : Z) : len (annotation n) = 37 + len (str_of_int n).
Proof.
  unfold annotation, len. rewrite !length_append. simpl String.length. lia.
Qed.

(** Beyond an even budget of at least 2 the result is as long as the budget
    and the annotation together, it starts with the first half-budget
    characters of the string and ends with its last half-budget
    characters. *)
Theorem truncated_keeps_both_ends (s : string) (half : Z) :
  0 < half -> 2 * half < len s ->
  let t := truncate_string_middle s (2 * half) in
  len t = 2 * half + 37 + len (str_of_int (len s - 2 * half))
  /\ substring 0 (Z.to_nat half) t = substring 0 (Z.to_nat half) s
  /\ substring (Z.to_nat (len t - half)) (Z.to_nat half) t
     = substring (Z.to_nat (len s - half)) (Z.to_nat half) s.
Proof.
  intros Hh Hl t. subst t.
  destruct (truncate_even_budget s half Hh Hl) as (E & A & B & _).
  rewrite E.
  set (h := slice s None (Some half)) in *.
  set (m := annotation (len s - 2 * half)) in *.
  set (e := slice s (Some (- half)) None) in *.
  assert (Lh : String.length h = Z.to_nat half) by (unfold len in A; lia).
  assert (Le : String.length e = Z.to_nat half) by (unfold len in B; lia).
  assert (Lt : len (h ++ m ++ e) = 2 * half + len m).
  { unfold len in *. rewrite !length_append. lia. }
  split; [|split].
  - rewrite Lt. unfold m. rewrite len_annotation. lia.
  - assert (X : substring 0 (Z.to_nat half) (h ++ m ++ e) = h)
      by (rewrite <- Lh; apply substring_append_left).
    rewrite X. unfold h. apply slice_head. lia.
  - assert (X : substring (Z.to_nat (len (h ++ m ++ e) - half))
                  (Z.to_nat half) (h ++ m ++ e) = e).
    { replace (Z.to_nat (len (h ++ m ++ e) - half))
        with (String.length (h ++ m)).
      - rewrite <- Le. rewrite <- append_assoc.
        apply substring_append_right.
      - rewrite Lt. unfold len. rewrite length_append. lia. }
    rewrite X. unfold e. apply slice_tail. lia.
Qed.

Lemma truncated_keeps_both_ends_witness :
  let t := truncate_string_middle "abcdefghij" (2 * 2) in
  len t = 2 * 2 + 37 + len (str_of_int (len "abcdefghij" - 2 * 2))
  /\ substring 0 (Z.to_nat 2) t = substring 0 (Z.to_nat 2) "abcdefghij"
  /\ substring (Z.to_nat (len t - 2)) (Z.to_nat 2) t
     = substring (Z.to_nat (len "abcdefghij" - 2)) (Z.to_nat 2)
         "abcdefghij".
Proof.
  apply (truncated_keeps_both_ends "abcdefghij" 2).
  - lia.
  - vm_compute. reflexivity.
Defined.

(** *** Splitting at a fence *)

Definition backtick : ascii := ascii_of_nat 96.

Fixpoint no_backtick (s : string) : bool :=
  match s with
  | EmptyString => true
  | String c s' => negb (Ascii.eqb c backtick) && no_backtick s'
  end.

Lemma prefix_other_head (sep' : string) (c : ascii) (s : string) :
  Ascii.eqb c backtick = false ->
  prefix (String backtick sep') (String c s) = false.
Proof.
  intros H. cbn [prefix].
  destruct (ascii_dec backtick c) as [E|E]; [|reflexivity].
  subst c. rewrite Ascii.eqb_refl in H. discriminate.
Qed.

Lemma prefix_append (a b : string) : prefix a (a ++ b) = true.
Proof.
  induction a as [|c a IH]; simpl.
  - destruct b; reflexivity.
  - destruct (ascii_dec c c) as [_|N]; [exact IH | now contradict N].
Qed.

(** Text without a backtick is read through. *)
Lemma split_scan_plain (sep' a cur rest : string) :
  no_backtick a = true ->
  split_scan (String backtick sep') O cur (a ++ rest)
  = split_scan (String backtick sep') O (cur ++ a) rest.
Proof.
  revert cur. induction a as [|c a IH]; intros cur H.
  - now rewrite append_empty_r.
  - simpl in H. apply andb_prop in H. destruct H as [Hc Ha].
    apply negb_true_iff in Hc.
    change (String c a ++ rest)%string with (String c (a ++ rest)).
    cbn [split_scan]. rewrite (prefix_other_head sep' c _ Hc).
    rewrite (IH _ Ha). now rewrite append_assoc.
Qed.

Lemma split_scan_skip (sep x cur rest : string) :
  split_scan sep (String.length x) cur (x ++ rest)
  = split_scan sep O cur rest.
Proof.
  induction x as [|c x IH]; simpl.
  - destruct rest; reflexivity.
  - exact IH.
Qed.

(** At an occurrence of the separator a piece ends. *)
Lemma split_scan_at_sep (c : ascii) (sep' cur rest : string) :
  split_scan (String c sep') O cur (String c sep' ++ rest)
  = cur :: split_scan (String c sep') O "" rest.
Proof.
  change (String c sep' ++ rest)%string with (String c (sep' ++ rest)).
  cbn [split_scan].
  change (String c (sep' ++ rest)) with (String c sep' ++ rest)%string.
  rewrite prefix_append. f_equal.
  replace (String.length (String c sep') - 1)%nat with (String.length sep')
    by (simpl; lia).
  apply split_scan_skip.
Qed.

(** Text in which the separator does not occur is one piece. *)
Lemma split_scan_none (sep s cur : string) :
  contains sep s = false -> split_scan sep O cur s = [(cur ++ s)%string].
Proof.
  revert cur. induction s as [|c s IH]; intros cur H.
  - simpl. now rewrite append_empty_r.
  - cbn [contains] in H. apply orb_false_iff in H. destruct H as [Hp Hc].
    cbn [split_scan]. rewrite Hp. rewrite (IH _ Hc).
    now rewrite append_assoc.
Qed.

Lemma contains_plain (sep' a rest : string) :
  no_backtick a = true ->
  contains (String backtick sep') (a ++ rest)
  = contains (String backtick sep') rest.
Proof.
  induction a as [|c a IH]; intros H; [reflexivity|].
  simpl in H. apply andb_prop in H. destruct H as [Hc Ha].
  apply negb_true_iff in Hc.
  change (String c a ++ rest)%string with (String c (a ++ rest)).
  cbn [contains]. rewrite (prefix_other_head sep' c _ Hc).
  simpl. now apply IH.
Qed.

(** A response without the python fence has no code block. *)
Theorem no_fence_no_code (text : string) :
  contains fence_python text = false -> extract_code_block text = None.
Proof.
  intros H. unfold extract_code_block.
  destruct (contains "DONE" text); [reflexivity|].
  unfold split. rewrite (split_scan_none _ _ _ H). reflexivity.
Qed.

Lemma no_fence_no_code_witness :
  extract_code_block "I will drop the rows with missing values." = None.
Proof.
  apply (no_fence_no_code "I will drop the rows with missing values.").
  vm_compute. reflexivity.
Defined.

(** A response with one block of code, as the prompt asks for it: text
    without a backtick, the python fence, code without a backtick, the
    closing fence, and a rest that opens no second python block. Without
    DONE in the response, the code block is the code, stripped. *)
Theorem fenced_code_is_extracted (before code rest : string) :
  no_backtick before = true ->
  no_backtick code = true ->
  contains fence_python (fence ++ rest) = false ->
  contains "DONE" (before ++ fence_python ++ code ++ fence ++ rest) = false ->
  extract_code_block (before ++ fence_python ++ code ++ fence ++ rest)
  = Some (strip code).
Proof.
  intros Hb Hc Hr Hd. unfold extract_code_block. rewrite Hd.
  unfold split, fence_python, fence in *.
  change "```python" with (String backtick "``python") in *.
  change "```" with (String backtick "``") in *.
  rewrite (split_scan_plain _ before _ _ Hb).
  rewrite split_scan_at_sep.
  rewrite split_scan_none
    by (rewrite (contains_plain _ code _ Hc); exact Hr).
  cbn [PyStr.index nth_error bind].
  change ("" ++ code ++ String backtick "``" ++ rest)%string
    with (code ++ String backtick "``" ++ rest)%string.
  rewrite (split_scan_plain _ code _ _ Hc).
  rewrite split_scan_at_sep.
  reflexivity.
Qed.

Lemma fenced_code_is_extracted_witness :
  extract_code_block
    ("Let me look at the first rows." ++ fence_python
     ++ (nl ++ "df.head()" ++ nl) ++ fence ++ "")
  = Some (strip (nl ++ "df.head()" ++ nl)).
Proof.
  apply (fenced_code_is_extracted "Let me look at the first rows."
           (nl ++ "df.head()" ++ nl) "").
  - vm_compute. reflexivity.
  - vm_compute. reflexivity.
  - vm_compute. reflexivity.
  - vm_compute. reflexivity.
Defined.

End TextFacts.

(** ** The three cases of the agent *)

Module ClassifyFacts.
Import PyStr PyStrFacts State Utils Common AgentFacts TextFacts.

Definition starts_with_backtick (s : string) : bool :=
  match s with
  | EmptyString => false
  | String c _ => Ascii.eqb c backtick
  end.

Lemma prefix_no_backtick (sep' s : string) :
  starts_with_backtick s = false -> prefix (String backtick sep') s = false.
Proof.
  destruct s as [|c s]; intros H; [reflexivity|].
  now apply prefix_other_head.
Qed.

(** The first piece of a split starts with what was read so far. *)
Lemma split_scan_head (sep : string) (s : string) :
  forall skip cur, exists q tl,
    split_scan sep skip cur s = (cur ++ q)%string :: tl.
Proof.
  induction s as [|c s IH]; intros skip cur.
  - exists "", []. simpl. now rewrite append_empty_r.
  - destruct skip as [|k]; [|apply IH].
    cbn [split_scan]. destruct (prefix sep (String c s)).
    + exists "". eexists. now rewrite append_empty_r.
    + destruct (IH O (cur ++ String c "")%string) as (q & tl & E).
      exists (String c q), tl. rewrite E. now rewrite append_assoc.
Qed.

Lemma no_backtick_no_fence (sep' code : string) :
  no_backtick code = true -> contains (String backtick sep') code = false.
Proof.
  intros H. rewrite <- (append_empty_r code).
  now rewrite (contains_plain _ code "" H).
Qed.

(** The python fence does not overlap itself: it cannot start inside a
    text that it does not occur in and end inside a python fence that
    follows this text. *)
Lemma no_straddle (a rest : string) :
  a <> "" -> prefix fence_python a = false ->
  prefix fence_python (a ++ fence_python ++ rest) = false.
Proof.
  unfold fence_python. intros Ha. revert Ha.
  destruct a as [|c1 a]; [intros Ha; now contradict Ha|]. intros _.
  cbn [prefix append].
  destruct (ascii_dec "`" c1); [|reflexivity].
  destruct a as [|c2 a]; [reflexivity|]. cbn [prefix append].
  destruct (ascii_dec "`" c2); [|reflexivity].
  destruct a as [|c3 a]; [reflexivity|]. cbn [prefix append].
  destruct (ascii_dec "`" c3); [|reflexivity].
  destruct a as [|c4 a]; [reflexivity|]. cbn [prefix append].
  destruct (ascii_dec "p" c4); [|reflexivity].
  destruct a as [|c5 a]; [reflexivity|]. cbn [prefix append].
  destruct (ascii_dec "y" c5); [|reflexivity].
  destruct a as [|c6 a]; [reflexivity|]. cbn [prefix append].
  destruct (ascii_dec "t" c6); [|reflexivity].
  destruct a as [|c7 a]; [reflexivity|]. cbn [prefix append].
  destruct (ascii_dec "h" c7); [|reflexivity].
  destruct a as [|c8 a]; [reflexivity|]. cbn [prefix append].
  destruct (ascii_dec "o" c8); [|reflexivity].
  destruct a as [|c9 a]; [reflexivity|]. cbn [prefix append].
  destruct (ascii_dec "n" c9); [|reflexivity].
  destruct a; discriminate.
Qed.

(** The split at the python fence, up to its first occurrence. *)
Lemma split_scan_to_first (before cur rest : string) :
  contains fence_python before = false ->
  split_scan fence_python O cur (before ++ fence_python ++ rest)
  = (cur ++ before)%string :: split_scan fence_python O "" rest.
Proof.
  revert cur. induction before as [|c b IH]; intros cur H.
  - rewrite append_empty_r. unfold fence_python.
    change "```python" with (String backtick "``python").
    apply split_scan_at_sep.
  - cbn [contains] in H. apply orb_false_iff in H. destruct H as [Hp Hc].
    change ((String c b ++ fence_python ++ rest)%string)
      with (String c (b ++ fence_python ++ rest)).
    cbn [split_scan].
    change (String c (b ++ fence_python ++ rest))
      with ((String c b ++ fence_python ++ rest)%string).
    rewrite (no_straddle (String c b) rest) by (discriminate || exact Hp).
    change ((String c b ++ fence_python ++ rest)%string)
      with (String c (b ++ fence_python ++ rest)).
    rewrite (IH _ Hc). now rewrite append_assoc.
Qed.

(** After the code of the first block comes the closing fence. When what
    follows the fence does not start with a backtick, the piece that the
    split at the python fence gives is the code alone, or the code, the
    fence and more. *)
Lemma piece_after_code (code rest : string) :
  starts_with_backtick rest = false ->
  exists tl,
    split_scan fence_python O code (fence ++ rest) = code :: tl
    \/ exists q,
         split_scan fence_python O code (fence ++ rest)
         = (code ++ fence ++ q)%string :: tl.
Proof.
  intros Hr. unfold fence_python, fence.
  change ("```" ++ rest)%string
    with (String backtick (String backtick (String backtick rest))).
  change "```python" with (String backtick "``python").
  cbn [split_scan].
  destruct (prefix (String backtick "``python")
              (String backtick (String backtick (String backtick rest))));
    [eexists; now left|].
  assert (P2 : prefix (String backtick "``python")
                 (String backtick (String backtick rest)) = false).
  { cbn [prefix].
    destruct (ascii_dec backtick backtick) as [_|N]; [|now contradict N].
    destruct (ascii_dec "`"%char backtick) as [_|N]; [|now contradict N].
    now apply prefix_no_backtick. }
  rewrite P2.
  assert (P3 : prefix (String backtick "``python") (String backtick rest)
               = false).
  { cbn [prefix].
    destruct (ascii_dec backtick backtick) as [_|N]; [|now contradict N].
    now apply prefix_no_backtick. }
  rewrite P3.
  destruct (split_scan_head (String backtick "``python") rest O
              (((code ++ String backtick "") ++ String backtick "")
               ++ String backtick "")%string) as (q & tl & E).
  exists tl. right. exists q. rewrite E. f_equal.
  rewrite !append_assoc. reflexivity.
Qed.

(** The code of a response with a block: text without the python fence,
    the python fence, code without a backtick, the closing fence, and a
    rest that does not start with a backtick. *)
Lemma extract_closed_block (before code rest : string) :
  contains fence_python before = false -> no_backtick code = true ->
  starts_with_backtick rest = false ->
  contains "DONE" (before ++ fence_python ++ code ++ fence ++ rest) = false ->
  extract_code_block (before ++ fence_python ++ code ++ fence ++ rest)
  = Some (strip code).
Proof.
  intros Hb Hc Hr Hd. unfold extract_code_block. rewrite Hd.
  destruct (piece_after_code code rest Hr) as (tl & P).
  unfold split.
  assert (S1 : split_scan fence_python O ""
                 (before ++ fence_python ++ code ++ fence ++ rest)
               = before :: split_scan fence_python O code (fence ++ rest)).
  { rewrite (split_scan_to_first before "" _ Hb). f_equal.
    unfold fence_python.
    change "```python" with (String backtick "``python").
    now rewrite (split_scan_plain _ code _ _ Hc). }
  rewrite S1.
  assert (S2 : forall more,
             split_scan fence O "" (code ++ fence ++ more)
             = code :: split_scan fence O "" more).
  { intros more. unfold fence.
    change "```" with (String backtick "``").
    rewrite (split_scan_plain _ code _ _ Hc).
    now rewrite split_scan_at_sep. }
  destruct P as [P|[q P]]; rewrite P; cbn [PyStr.index nth_error bind].
  - unfold fence. change "```" with (String backtick "``").
    rewrite split_scan_none by now apply no_backtick_no_fence.
    reflexivity.
  - rewrite S2. reflexivity.
Qed.

(** The code of a response whose block is not closed: the code runs to the
    end of the response. *)
Lemma extract_open_block (before code : string) :
  contains fence_python before = false -> no_backtick code = true ->
  contains "DONE" (before ++ fence_python ++ code) = false ->
  extract_code_block (before ++ fence_python ++ code) = Some (strip code).
Proof.
  intros Hb Hc Hd. unfold extract_code_block. rewrite Hd.
  unfold split. rewrite (split_scan_to_first before "" _ Hb).
  unfold fence_python, fence.
  change "```python" with (String backtick "``python").
  change "```" with (String backtick "``").
  rewrite split_scan_none by now apply no_backtick_no_fence.
  cbn [PyStr.index nth_error bind].
  rewrite split_scan_none by now apply no_backtick_no_fence.
  reflexivity.
Qed.

Lemma extract_without_fence (text : string) :
  contains fence_python text = false -> extract_code_block text = None.
Proof.
  intros H. unfold extract_code_block.
  destruct (contains "DONE" text); [reflexivity|].
  unfold split. rewrite (split_scan_none _ _ _ H). reflexivity.
Qed.

(** A response with a block of python code, closed by a fence. *)
Definition closed_block (before code rest : string) : string :=
  before ++ fence_python ++ code ++ fence ++ rest.

(** A response with a block of python code that runs to its end. *)
Definition open_block (before code : string) : string :=
  before ++ fence_python ++ code.

(** C3, amended. Below the limit the agent puts a response in exactly one of
    three cases, the marker first. A response with DONE goes to the two
    validators, whatever code it holds. A response without DONE that holds
    a block of python code (text without the python fence, the python
    fence, code without a backtick, then the closing fence and a rest that
    does not start with a backtick, or the end of the response) goes to the
    executor with that code, stripped, when the code is not blank. A
    response without DONE that holds no python fence, or a blank block, is
    answered with the corrective message and goes back to the agent. No
    response gets any other command, and the three commands differ. *)
Theorem agent_classifies_response (max_message_turn : Z)
    (next_node_name : node) (st : StepState) (response : Message)
    (variable_list : list VariableToSave) :
  history_length st <= 2 * max_message_turn ->
  let cmd := get_code_agent_node max_message_turn next_node_name st
               response variable_list in
  let text := content response in
  (contains "DONE" text = true -> cmd = to_validators response variable_list)
  /\ (contains "DONE" text = false ->
      forall before code rest,
        text = closed_block before code rest ->
        contains fence_python before = false -> no_backtick code = true ->
        starts_with_backtick rest = false ->
        (strip code <> "" -> cmd = to_executor response (strip code))
        /\ (strip code = "" -> cmd = to_agent_again response))
  /\ (contains "DONE" text = false ->
      forall before code,
        text = open_block before code ->
        contains fence_python before = false -> no_backtick code = true ->
        (strip code <> "" -> cmd = to_executor response (strip code))
        /\ (strip code = "" -> cmd = to_agent_again response))
  /\ (contains "DONE" text = false -> contains fence_python text = false ->
      cmd = to_agent_again response)
  /\ (cmd = to_validators response variable_list
      \/ (exists code, code <> "" /\ cmd = to_executor response code)
      \/ cmd = to_agent_again response)
  /\ (to_validators response variable_list <> to_agent_again response
      /\ forall code,
           to_executor response code
           <> to_validators response variable_list
           /\ to_executor response code <> to_agent_again response).
Proof.
  intros Hlen cmd text. subst cmd text.
  unfold get_code_agent_node. unfold history_length in Hlen.
  destruct (Z.of_nat (List.length (step_message_history st))
            >? 2 * max_message_turn) eqn:E.
  { rewrite Z.gtb_ltb in E. apply Z.ltb_lt in E. lia. }
  assert (Code : forall code,
             contains "DONE" (content response) = false ->
             extract_code_block (content response) = Some code ->
             (code <> "" ->
              match extract_code_block (content response) with
              | Some (String c rest) =>
                  {| goto := [python_executor];
                     update := [W_step_message_history [response];
                                W_code_block (String c rest)] |}
              | _ =>
                  if contains "DONE" (content response)
                  then to_validators response variable_list
                  else to_agent_again response
              end = to_executor response code)
             /\ (code = "" ->
                 match extract_code_block (content response) with
                 | Some (String c rest) =>
                     {| goto := [python_executor];
                        update := [W_step_message_history [response];
                                   W_code_block (String c rest)] |}
                 | _ =>
                     if contains "DONE" (content response)
                     then to_validators response variable_list
                     else to_agent_again response
                 end = to_agent_again response)).
  { intros code D X. rewrite X, D. split; intros H.
    - destruct code; [now contradict H | reflexivity].
    - now subst code. }
  split; [|split; [|split; [|split; [|split]]]];
    [| | | | |split; [discriminate | split; discriminate]].
  - intros D.
    assert (X : extract_code_block (content response) = None)
      by (unfold extract_code_block; now rewrite D).
    rewrite X, D. reflexivity.
  - intros D before code rest T Hb Hc Hr.
    apply Code; [exact D|]. rewrite T. unfold closed_block.
    apply extract_closed_block; try assumption.
    unfold closed_block in T. now rewrite <- T.
  - intros D before code T Hb Hc.
    apply Code; [exact D|]. rewrite T. unfold open_block.
    apply extract_open_block; try assumption.
    unfold open_block in T. now rewrite <- T.
  - intros D F. rewrite (extract_without_fence _ F), D. reflexivity.
  - destruct (extract_code_block (content response)) as [[|c rest]|];
      try (right; left; eexists; split; [|reflexivity]; discriminate);
      destruct (contains "DONE" (content response)); auto.
Qed.

(** A response with a block of code and no marker, and the same block
    followed by the marker. *)
Definition code_only : Message :=
  AIMessage (closed_block "Let me look at the first rows."
               (nl ++ "df.head()" ++ nl) "").

Lemma agent_classifies_response_witness :
  get_code_agent_node 30 save_variables (with_history 2) code_only []
  = to_executor code_only "df.head()"
  /\ get_code_agent_node 30 save_variables (with_history 2) code_then_done []
     = to_validators code_then_done [].
Proof.
  assert (L : history_length (with_history 2) <= 2 * 30)
    by (vm_compute; discriminate).
  split.
  - destruct (agent_classifies_response 30 save_variables (with_history 2)
                code_only [] L) as (_ & Closed & _).
    apply (Closed eq_refl "Let me look at the first rows."
             (nl ++ "df.head()" ++ nl) "");
      try reflexivity.
    vm_compute. discriminate.
  - apply (agent_classifies_response 30 save_variables (with_history 2)
             code_then_done []).
    + vm_compute. discriminate.
    + vm_compute. reflexivity.
Defined.

End ClassifyFacts.

(** ** The files of the sandbox *)

Module LoaderFacts.
Import State Utils Common Loader TextFacts.

Lemma rev_onto_append (a acc : string) :
  PyStr.rev_onto a acc = (PyStr.rev a ++ acc)%string.
Proof.
  unfold PyStr.rev. revert acc.
  induction a as [|c a IH]; intros acc; simpl; [reflexivity|].
  rewrite IH, (IH (String c "")). now rewrite PyStrFacts.append_assoc.
Qed.

Lemma rev_append (a b : string) :
  PyStr.rev (a ++ b) = (PyStr.rev b ++ PyStr.rev a)%string.
Proof.
  unfold PyStr.rev at 1. revert b.
  assert (G : forall a b acc,
             PyStr.rev_onto (a ++ b) acc
             = PyStr.rev_onto b (PyStr.rev_onto a acc)).
  { clear. induction a as [|c a IH]; intros b acc; simpl;
      [reflexivity | apply IH]. }
  intros b. rewrite G. now rewrite rev_onto_append.
Qed.

Lemma prefix_weaken (p s t : string) :
  prefix p s = true -> prefix p (s ++ t) = true.
Proof.
  revert s. induction p as [|c p IH]; intros s H.
  - destruct (s ++ t)%string; reflexivity.
  - destruct s as [|d s]; simpl in H; [discriminate|].
    simpl. destruct (ascii_dec c d); [now apply IH | discriminate].
Qed.

Lemma endswith_append (suffix s : string) :
  endswith suffix (s ++ suffix) = true.
Proof. unfold endswith. rewrite rev_append. apply prefix_append. Qed.

Lemma endswith_longer (suffix a b : string) :
  endswith suffix b = true -> endswith suffix (a ++ b) = true.
Proof.
  unfold endswith. intros H. rewrite rev_append. now apply prefix_weaken.
Qed.

Lemma with_extension_ends (ext filename_key : string) :
  endswith ext (with_extension ext filename_key) = true.
Proof.
  unfold with_extension.
  destruct (endswith ext filename_key) eqn:E; [exact E|].
  apply endswith_append.
Qed.

Lemma path_join_ends (suffix a b : string) :
  endswith suffix b = true -> endswith suffix (path_join a b) = true.
Proof.
  intros H. unfold path_join.
  destruct (prefix "/" b); [exact H|].
  destruct (String.eqb a "" || endswith "/" a).
  - now apply endswith_longer.
  - apply endswith_longer. now apply endswith_longer.
Qed.

(** Whether a value is of a type the upload accepts. *)
Definition uploadable (v : pyval) : bool :=
  match v with
  | PFrame _ _ _ | PList _ | PDict _ | PTuple _ | PStr _ => true
  | _ => false
  end.

(** The directory the files go to: [E2B_VARIABLES_DIR], or [/tmp]. *)
Definition directory (variables_dir : option string) : string :=
  match variables_dir with
  | Some d => d
  | None => "/tmp"
  end.

(** A path made of a directory and a name with an extension: the name is
    the one given when it ends with the extension already, and the one
    given followed by the extension otherwise. *)
Definition named (dir ext filename_key path : string) : Prop :=
  endswith ext path = true
  /\ (endswith ext filename_key = true -> path = path_join dir filename_key)
  /\ (endswith ext filename_key = false ->
      path = path_join dir (filename_key ++ ext)).

Lemma with_extension_named (dir ext filename_key : string) :
  named dir ext filename_key
    (path_join dir (with_extension ext filename_key)).
Proof.
  split; [apply path_join_ends; apply with_extension_ends|].
  unfold with_extension.
  split; intros H; rewrite H; reflexivity.
Qed.

(** The upload raises exactly on a value that is no frame, list,
    dictionary, tuple or string. The path it returns otherwise is made of
    the directory and the name with the extension of what was written:
    [.csv] for a frame, [.txt] for a string, [.json] for a list, dictionary
    or tuple that json can write and [.pkl] for one it cannot; an extension
    the name already ends with is not added again. *)
Theorem upload_names_file_by_content (ws : Writers)
    (variables_dir : option string) (variable : pyval)
    (filename_key : string) :
  (uploadable variable = false <->
   exists x,
     upload_file_to_e2b_sandbox ws variables_dir variable filename_key
     = Raise x)
  /\ (forall path file_content,
        upload_file_to_e2b_sandbox ws variables_dir variable filename_key
        = Ok (path, file_content) ->
        let dir := directory variables_dir in
        match variable with
        | PFrame _ _ _ =>
            named dir ".csv" filename_key path
            /\ file_content = to_csv ws variable
        | PStr s => named dir ".txt" filename_key path /\ file_content = s
        | _ =>
            (named dir ".json" filename_key path
             /\ json_dumps ws variable = Ok file_content)
            \/ (named dir ".pkl" filename_key path
                /\ (exists x, json_dumps ws variable = Raise x)
                /\ file_content = pickle_latin1 ws variable)
        end).
Proof.
  unfold upload_file_to_e2b_sandbox. fold (directory variables_dir). split.
  - destruct variable; simpl; split; intros H;
      try discriminate; try (now eexists);
      try (destruct H as [x H]; try discriminate);
      try reflexivity;
      destruct (json_dumps ws _); discriminate.
  - intros path file_content.
    destruct variable; try discriminate;
      try (intros H; injection H as <- <-; split;
           [apply with_extension_named | reflexivity]);
      destruct (json_dumps ws _) as [j|x] eqn:J;
      intros H; injection H as <- <-;
      [left | right | left | right | left | right];
      split; try apply with_extension_named;
      try reflexivity; split; try reflexivity; now eexists.
Qed.

(** A text under a name that does not end in [.txt], with no directory set,
    and a frame under a name that ends in [.csv] already. *)
Lemma upload_names_file_by_content_witness :
  named "/tmp" ".txt" "note.text" "/tmp/note.text.txt"
  /\ named "/tmp" ".csv" "sales.csv" "/tmp/sales.csv".
Proof.
  split.
  - apply (proj2 (upload_names_file_by_content
                    {| to_csv := fun _ => ""; json_dumps := fun _ => Ok "";
                       pickle_latin1 := fun _ => "" |}
                    None (PStr "hello") "note.text")
             "/tmp/note.text.txt" "hello").
    reflexivity.
  - apply (proj2 (upload_names_file_by_content
                    {| to_csv := fun _ => ""; json_dumps := fun _ => Ok "";
                       pickle_latin1 := fun _ => "" |}
                    None (PFrame [] [] []) "sales.csv")
             "/tmp/sales.csv" "").
    reflexivity.
Defined.

Lemma upload_all_length (ws : Writers) (variables_dir : option string)
    (variables : list Data) (files : list (string * string)) :
  upload_all ws variables_dir variables = Ok files ->
  List.length files = List.length variables.
Proof.
  revert files. induction variables as [|d ds IH]; intros files; simpl.
  - intros H; injection H as <-. reflexivity.
  - destruct (upload_file_to_e2b_sandbox ws variables_dir (value d) _);
      simpl; [|discriminate].
    destruct (upload_all ws variables_dir ds) as [fs|]; simpl;
      [|discriminate].
    intros H; injection H as <-. simpl. now rewrite (IH fs eq_refl).
Qed.

Lemma load_lines_png (variables : list Data) (paths : list string)
    (d : Data) :
  List.length paths = List.length variables ->
  In d variables -> type d = PNG ->
  exists x, load_lines (combine variables paths) = Raise x.
Proof.
  revert paths. induction variables as [|v vs IH]; intros [|p ps] Hl Hin Ht;
    simpl in *; try discriminate; try contradiction.
  destruct Hin as [->|Hin].
  - unfold load_line. rewrite Ht. now eexists.
  - destruct (load_line v p); simpl; [|now eexists].
    destruct (IH ps) as [x ->]; auto. now eexists.
Qed.

(** An artifact of type PNG, which [save_variables] makes of a result that
    comes as an image only, cannot be handed to a later stage: with such
    an artifact among the variables the loading script is never built and
    the node that opens the sandbox raises. *)
Theorem png_artifact_stops_the_next_stage (ws : Writers)
    (variables_dir : option string) (st : StepState) (d : Data) :
  In d (variables st) -> type d = PNG ->
  (exists x, bootstrap_code ws variables_dir (variables st) = Raise x)
  /\ (forall session execution,
        exists x,
          get_init_e2b_sandbox_node st session execution = Raise x)
  /\ (forall w r,
        has_format "data" r = false -> has_format "json" r = false ->
        has_format "text" r = false -> has_format "png" r = true ->
        parse_one w r = Ok (PStr (png r), PNG)).
Proof.
  intros Hin Ht. split; [|split].
  - unfold bootstrap_code.
    destruct (upload_all ws variables_dir (variables st)) as [files|] eqn:U;
      simpl; [|now eexists].
    unfold get_code_to_load_uploaded_file.
    destruct (load_lines_png (variables st) (map fst files) d) as [x ->];
      auto; [|now eexists].
    rewrite length_map. exact (upload_all_length _ _ _ _ U).
  - intros session execution. unfold get_init_e2b_sandbox_node.
    destruct session; simpl; [|now eexists].
    assert (F : forallb loadable (variables st) = false).
    { destruct (forallb loadable (variables st)) eqn:E; [|reflexivity].
      rewrite forallb_forall in E. specialize (E d Hin).
      unfold loadable in E. rewrite Ht in E. discriminate. }
    rewrite F. now eexists.
  - intros w r A B C D. unfold parse_one. now rewrite A, B, C, D.
Qed.

Definition picture : Data :=
  {| key := "chart"; type := PNG; data_description := "a bar chart";
     value := PStr "iVBORw0KGgo" |}.

Definition plain_writers : Writers :=
  {| to_csv := fun _ => ""; json_dumps := fun _ => Ok "";
     pickle_latin1 := fun _ => "" |}.

Lemma png_artifact_stops_the_next_stage_witness :
  exists x,
    bootstrap_code plain_writers None
      (variables
         (Steps.enter "objective" [picture] false false ""
            get_default_steps ""))
    = Raise x.
Proof.
  apply (png_artifact_stops_the_next_stage plain_writers None
           (Steps.enter "objective" [picture] false false ""
              get_default_steps "")
           picture).
  - simpl. left. reflexivity.
  - reflexivity.
Defined.

End LoaderFacts.

(** ** The classes the retry policy tells apart *)

Module RetryWitnesses.
Import Retry RetryFacts.

Lemma httpx_status_error_by_status_witness :
  retry_on (httpx_status_error 503) = Ok true <-> 500 <= 503 < 600.
Proof.
  apply (httpx_status_error_by_status (httpx_status_error 503)
           {| status_code := 503 |}); reflexivity.
Defined.

Lemma other_error_by_fatal_list_witness :
  retry_on (instance_of [LookupError] None) = Ok false
  <-> exists c, In c fatal_classes
                /\ isinstance (instance_of [LookupError] None) c = true.
Proof.
  apply (other_error_by_fatal_list (instance_of [LookupError] None));
    reflexivity.
Defined.

End RetryWitnesses.

(** ** The loading script *)

Module ScriptFacts.
Import State Utils Loader LoaderFacts.

Lemma load_lines_length (pairs : list (Data * string)) (lines : list string) :
  load_lines pairs = Ok lines ->
  List.length lines = List.length pairs
  /\ Forall (fun p => type (fst p) <> PNG) pairs.
Proof.
  revert lines. induction pairs as [|[d p] pairs IH]; intros lines; simpl.
  - intros H; injection H as <-. split; [reflexivity | constructor].
  - destruct (load_line d p) as [l|] eqn:E; simpl; [|discriminate].
    destruct (load_lines pairs) as [ls|]; simpl; [|discriminate].
    intros H; injection H as <-.
    destruct (IH ls eq_refl) as [A B]. split; [simpl; now rewrite A|].
    constructor; [|exact B]. simpl. intros X.
    unfold load_line in E. rewrite X in E. discriminate.
Qed.

(** When the script [init_e2b_sandbox] runs is built, every variable was
    uploaded, none is of type PNG, and the script is the two imports
    followed by exactly one line for each variable. *)
Theorem bootstrap_loads_every_variable (ws : Writers)
    (variables_dir : option string) (variables : list Data)
    (script : string) :
  bootstrap_code ws variables_dir variables = Ok script ->
  Forall (fun d => uploadable (value d) = true /\ type d <> PNG) variables
  /\ exists lines,
       List.length lines = List.length variables
       /\ script = PyStr.join nl (header ++ lines)%list.
Proof.
  unfold bootstrap_code, get_code_to_load_uploaded_file.
  destruct (upload_all ws variables_dir variables) as [files|] eqn:U;
    simpl; [|discriminate].
  destruct (load_lines (combine variables (map fst files))) as [lines|] eqn:L;
    simpl; [|discriminate].
  intros H; injection H as <-.
  pose proof (upload_all_length _ _ _ _ U) as Hl.
  destruct (load_lines_length _ _ L) as [A B].
  assert (Hc : List.length (combine variables (map fst files))
               = List.length variables)
    by (rewrite length_combine, length_map, Hl; apply Nat.min_id).
  split.
  - apply Forall_forall. intros d Hd. split.
    + clear L A B Hc Hl. revert files U.
      induction variables as [|v vs IH]; intros files U; [contradiction|].
      simpl in U.
      destruct (upload_file_to_e2b_sandbox ws variables_dir (value v) _)
        as [f|] eqn:F; simpl in U; [|discriminate].
      destruct (upload_all ws variables_dir vs) as [fs|] eqn:V; simpl in U;
        [|discriminate].
      destruct Hd as [<-|Hd]; [|exact (IH Hd fs eq_refl)].
      unfold upload_file_to_e2b_sandbox in F.
      destruct (value v); try discriminate F; reflexivity.
    + rewrite Forall_forall in B.
      assert (Hm : map fst (combine variables (map fst files)) = variables)
        by (apply SerializerFacts.map_fst_combine;
            now rewrite length_map, Hl).
      rewrite <- Hm in Hd. apply in_map_iff in Hd.
      destruct Hd as (p & <- & Hp). exact (B p Hp).
  - exists lines. split; [now rewrite A, Hc | reflexivity].
Qed.

Definition table : Data :=
  {| key := "df"; type := DATAFRAME; data_description := "sales";
     value := PFrame [KStr "a"] [KInt 0] [[PInt 1]] |}.

Lemma bootstrap_loads_every_variable_witness :
  Forall (fun d => uploadable (value d) = true /\ type d <> PNG) [table]
  /\ exists lines,
       List.length lines = List.length [table]
       /\ (PyStr.join nl
             (header ++ ["df = pd.read_csv('/tmp/df.dataframe.csv')"])%list)
          = PyStr.join nl (header ++ lines)%list.
Proof.
  apply (bootstrap_loads_every_variable plain_writers None [table]).
  vm_compute. reflexivity.
Defined.

(** [get_code_to_load_uploaded_file] pairs the variables with the paths:
    the variables beyond the number of paths are left out of the script,
    and are not checked either. *)
Theorem surplus_variables_are_ignored (variables : list Data)
    (file_paths : list string) :
  get_code_to_load_uploaded_file variables file_paths
  = get_code_to_load_uploaded_file
      (firstn (List.length file_paths) variables) file_paths.
Proof.
  unfold get_code_to_load_uploaded_file. f_equal.
  revert file_paths. induction variables as [|v vs IH]; intros [|p ps];
    simpl; try reflexivity.
  now rewrite <- IH.
Qed.

End ScriptFacts.

(** ** The flags of the plan along the pipeline *)

Module PipelineFacts.
Import State Utils Common Steps StageFacts RunFacts BudgetFacts EntryGraph.

(** The steps of order 1 and 5, and those of order [k] and more, are not
    completed. *)
Definition pending_from (k : Z) (steps : list Step) : Prop :=
  forall j, j = 1 \/ j = 5 \/ k <= j -> stage_completed j steps = false.

Lemma stage_completed_other (j k : Z) (r : string) (steps : list Step) :
  j <> k ->
  stage_completed j (update_first k (set_completed_report r) steps)
  = stage_completed j steps.
Proof.
  intros Hne. unfold stage_completed.
  induction steps as [|s steps IH]; simpl; [reflexivity|].
  destruct (order s =? k) eqn:E; simpl.
  - apply Z.eqb_eq in E.
    assert (X : (order s =? j) = false) by (apply Z.eqb_neq; lia).
    now rewrite X.
  - now rewrite IH.
Qed.

(** A run of a stage leaves the plan as it was or marks the first step of
    the order of the stage, once. *)
Lemma stage_run_steps (w : World) (sg : Stage) (os : list Outside)
    (c c' : Config) :
  wired sg -> invariant sg c -> run w sg os c = Ok c' ->
  steps (state c') = steps (state c)
  \/ exists r,
       steps (state c')
       = update_first (stage_order sg) (set_completed_report r)
           (steps (state c)).
Proof.
  intros Hw. revert c. induction os as [|o os IH]; intros c Hi H; simpl in H.
  - injection H as <-. now left.
  - destruct (superstep w sg o c) as [c1|] eqn:E; simpl in H; [|discriminate].
    pose proof (invariant_step w sg o c c1 Hw Hi E) as Hi1.
    destruct c as [st act].
    destruct (invariant_shape sg _ Hi) as [X|[X|(n & X & N1 & N2 & N3)]];
      simpl in X; subst act.
    + unfold superstep in E. simpl in E. injection E as <-.
      exact (IH _ Hi1 H).
    + rewrite (superstep_validators _ _ _ _ _ E) in H, Hi1.
      exact (IH _ Hi1 H).
    + destruct (superstep_single _ _ _ _ _ _ E) as (cmd & Hn & ->).
      destruct (node_effect w sg o st n cmd Hw N1 N2 N3 Hn)
        as (_ & _ & _ & _ & _ & S1 & S2).
      destruct n; try (destruct (IH _ Hi1 H) as [A|[r A]];
                       simpl in A |- *; rewrite S1 in A by discriminate;
                       [now left | right; now exists r]).
      simpl in Hn. injection Hn as <-.
      match type of H with
      | run _ _ _ ?c1 = _ =>
          pose proof (finished_stays w sg os c1 c' eq_refl H) as ->
      end.
      right. exists (report_text o). reflexivity.
Qed.

Lemma step1_run_steps (os : list Step1.Outside)
    (c : StepState * option Step1.node) :
  steps (fst (Step1.run os c)) = steps (fst c).
Proof.
  revert c. induction os as [|o os IH]; intros c; simpl; [reflexivity|].
  rewrite IH. exact (proj1 (Step1Facts.superstep_untouched o c)).
Qed.

(** The stage nodes, with the order of their step. *)
Definition is_stage (n : node) : Prop :=
  n <> check_if_skip_any_step /\ n <> END.

Lemma run_subgraph_pending (w : World) (a : Answers) (n : node)
    (st st' : StepState) :
  is_stage n ->
  pending_from (stage_number n) (steps st) ->
  run_subgraph w a n st = Some st' ->
  pending_from (stage_number n + 1) (steps st').
Proof.
  intros [N1 N2] Hp H.
  assert (Same : steps st' = steps st ->
                 pending_from (stage_number n + 1) (steps st')).
  { intros ->. intros j Hj. apply Hp. lia. }
  assert (Stage : forall sg os,
             In sg stages -> stage_order sg = stage_number n ->
             2 <= stage_number n <= 4 ->
             run_stage w sg os st = Some st' ->
             pending_from (stage_number n + 1) (steps st')).
  { intros sg os Hsg Ho Hk R. unfold run_stage in R.
    destruct (run w sg os
                {| state := leave st; active := [init_e2b_sandbox] |})
      as [c|] eqn:E; [|discriminate].
    destruct (finished c); [|discriminate]. injection R as <-.
    pose proof (stages_wired sg Hsg) as Hw.
    assert (Hi : invariant sg
                   {| state := leave st; active := [init_e2b_sandbox] |}).
    { apply (reachable_invariant w sg _ Hw). apply reachable_start.
      - repeat split; reflexivity.
      - simpl. rewrite Ho. apply Hp. lia. }
    destruct (stage_run_steps w sg os _ c Hw Hi E) as [A|[r A]];
      simpl in A |- *.
    - apply Same. exact A.
    - rewrite A, Ho. intros j Hj.
      rewrite stage_completed_other by lia. apply Hp. lia. }
  destruct n; try (now contradict N1); try (now contradict N2);
    simpl in H.
  - destruct (step_1_state_accepted w (leave st)); [|discriminate].
    destruct (Step1.run (answers_1 a)
                (leave st, Some Step1.init_message_history))
      as [s1 [m|]] eqn:E; [discriminate|].
    injection H as <-. apply Same. simpl.
    pose proof (step1_run_steps (answers_1 a)
                  (leave st, Some Step1.init_message_history)) as X.
    rewrite E in X. exact X.
  - apply (Stage Steps.step_2_data_cleaning (answers_2 a)); simpl; auto; lia.
  - apply (Stage Steps.step_3_data_exploration (answers_3 a)); simpl; auto; lia.
  - apply (Stage Steps.step_4_data_analysis (answers_4 a)); simpl; auto; lia.
  - injection H as <-. apply Same. reflexivity.
Qed.

(** A list of stage nodes in the order of the pipeline, from the stage of
    order [k] on. *)
Fixpoint consecutive (k : Z) (ns : list node) : Prop :=
  match ns with
  | [] => True
  | n :: rest => is_stage n /\ stage_number n = k /\ consecutive (k + 1) rest
  end.

Lemma pipeline_consecutive (n : node) :
  consecutive (stage_number n) (pipeline_from n).
Proof.
  destruct n; simpl; repeat split; discriminate.
Qed.

Lemma begun_pending (w : World) (a : Answers) (ns : list node) (k : Z)
    (st : StepState) :
  consecutive k ns -> pending_from k (steps st) ->
  forall n st', In (n, st') (begun w a ns st) ->
                pending_from (stage_number n) (steps st').
Proof.
  revert k st. induction ns as [|m ns IH]; intros k st Hc Hp n st' Hin;
    simpl in *; [contradiction|].
  destruct Hc as (Hs & Hk & Hrest).
  destruct Hin as [E|Hin].
  - injection E as <- <-. now rewrite Hk.
  - destruct (run_subgraph w a m st) as [st1|] eqn:R; [|contradiction].
    apply (IH (k + 1) st1 Hrest); [|exact Hin].
    rewrite <- Hk. apply (run_subgraph_pending w a m st st1 Hs).
    + now rewrite Hk.
    + exact R.
Qed.

(** On a run that skips nothing and starts with no step completed, no stage
    ever begins with the step of order 1 or the step of order 5 marked
    completed: no stage of the pipeline marks the first or the last step,
    and a stage always begins with its own step and the later ones not
    completed. *)
Theorem first_and_last_step_stay_open (w : World) (a : Answers)
    (st : StepState) (n : node) (st' : StepState) :
  skip_define_objective_step st = false ->
  (forall step, In step (steps st) -> completed step = false) ->
  In (n, st') (orchestrate w a st) ->
  stage_completed 1 (steps st') = false
  /\ stage_completed 5 (steps st') = false
  /\ forall j, stage_number n <= j -> stage_completed j (steps st') = false.
Proof.
  intros Hs Hall Hin. unfold orchestrate, check_if_skip_any_step_node in Hin.
  rewrite Hs in Hin. simpl apply_update in Hin.
  assert (P : pending_from (stage_number (stage_router st)) (steps st)).
  { intros j _. unfold stage_completed.
    destruct (existsb (fun step => (order step =? j) && completed step)
                (steps st)) eqn:E; [|reflexivity].
    apply existsb_exists in E. destruct E as (s & Hin' & E).
    apply andb_prop in E. destruct E as [_ E].
    rewrite (Hall s Hin') in E. discriminate. }
  pose proof (begun_pending w a _ _ st
                (pipeline_consecutive (stage_router st)) P n st' Hin) as Q.
  repeat split.
  - apply Q. now left.
  - apply Q. right. now left.
  - intros j Hj. apply Q. right. now right.
Qed.

Lemma first_and_last_step_stay_open_witness :
  stage_completed 1 (steps Orchestrator.fresh_input) = false
  /\ stage_completed 5 (steps Orchestrator.fresh_input) = false
  /\ forall j, stage_number step_2_data_cleaning <= j ->
               stage_completed j (steps Orchestrator.fresh_input) = false.
Proof.
  apply (first_and_last_step_stay_open Orchestrator.lenient_world
           Orchestrator.first_stage_accepts Orchestrator.fresh_input
           step_2_data_cleaning Orchestrator.fresh_input).
  - reflexivity.
  - intros step H. simpl in H.
    destruct H as [<-|[<-|[<-|[<-|[<-|[]]]]]]; reflexivity.
  - vm_compute. right. left. reflexivity.
Defined.

End PipelineFacts.

(** ** How a run of a stage ends *)

Module MarkFacts.
Import State Utils Common Steps StageFacts RunFacts BudgetFacts EndFacts.

(** A run of a stage that has ended has marked the step of the stage: the
    plan it leaves is the plan it found, with the first step of the order
    of the stage completed and given the report. *)
Lemma stage_run_marks (w : World) (sg : Stage) (os : list Outside)
    (c c' : Config) :
  wired sg -> invariant sg c -> run w sg os c = Ok c' ->
  active c <> [] -> active c' = [] ->
  exists r,
    steps (state c')
    = update_first (stage_order sg) (set_completed_report r)
        (steps (state c)).
Proof.
  intros Hw. revert c.
  induction os as [|o os IH]; intros c Hi H Hne He; simpl in H.
  - injection H as <-. now contradict Hne.
  - destruct (superstep w sg o c) as [c1|] eqn:E; simpl in H; [|discriminate].
    pose proof (invariant_step w sg o c c1 Hw Hi E) as Hi1.
    destruct c as [st act].
    destruct (invariant_shape sg _ Hi) as [X|[X|(n & X & N1 & N2 & N3)]];
      simpl in X; subst act.
    + now contradict Hne.
    + rewrite (superstep_validators _ _ _ _ _ E) in H, Hi1.
      destruct (IH _ Hi1 H) as [r A]; [discriminate | exact He |].
      exists r. exact A.
    + destruct (superstep_single _ _ _ _ _ _ E) as (cmd & Hn & ->).
      destruct (node_effect w sg o st n cmd Hw N1 N2 N3 Hn)
        as (_ & _ & _ & _ & _ & S1 & S2).
      destruct (dedup (successors (n, cmd))) as [|m ms] eqn:D.
      * pose proof (node_next w sg o st n cmd Hw N1 N2 N3 Hn D) as ->.
        match type of H with
        | run _ _ _ ?c1 = _ =>
            pose proof (finished_stays w sg os c1 c' eq_refl H) as ->
        end.
        exists (report_text o). simpl. exact (S2 eq_refl).
      * assert (Nw : n <> write_step_report).
        { intros ->. simpl in Hn. injection Hn as <-. discriminate D. }
        destruct (IH _ Hi1 H) as [r A]; [discriminate | exact He |].
        exists r. simpl in A |- *. now rewrite (S1 Nw) in A.
Qed.

End MarkFacts.

(** ** The order in which the stages begin *)

Module OrderFacts.
Import State Utils Common Steps StageFacts EndFacts MarkFacts EntryGraph.
Import RouterFacts Orchestrator PipelineFacts.

(** The state after [check_if_skip_any_step], in which the router runs. *)
Definition checked (st : StepState) : StepState :=
  apply_update st (check_if_skip_any_step_node st).

(** Each node of the list is the one the edge of the node before it leads
    to. *)
Fixpoint follows_edges (ns : list node) : Prop :=
  match ns with
  | n :: (m :: _) as rest => m = edge n /\ follows_edges rest
  | _ => True
  end.

Lemma follows_edges_prefix (l r : list node) :
  follows_edges (l ++ r) -> follows_edges l.
Proof.
  induction l as [|n [|m l] IH]; simpl; auto.
  intros [E H]. split; [exact E|]. apply IH. exact H.
Qed.

Lemma pipeline_follows_edges (n : node) : follows_edges (pipeline_from n).
Proof. destruct n; simpl; repeat split. Qed.

(** The plan as the stage of order [k] finds it: no step of order [k] or
    more is completed, the first stage apart, and every order below [k]
    that the plan has is completed; the order 1 is vouched for only when
    [full] is set. *)
Definition ordered (full : bool) (k : Z) (plan : list Step) : Prop :=
  (forall j, k <= j -> 2 <= j -> stage_completed j plan = false)
  /\ (forall j, j < k -> (j = 1 -> full = true) ->
                has_step j plan = true -> stage_completed j plan = true).

Lemma ordered_weaken (full : bool) (k : Z) (plan : list Step) :
  ordered full k plan -> ordered false k plan.
Proof.
  intros [P D]. split; [exact P|].
  intros j Hj H1 Hs. apply D; auto.
  intros E. specialize (H1 E). discriminate.
Qed.

Lemma stage_completed_update_other (f : Step -> Step) (j k : Z)
    (plan : list Step) :
  (forall s, order (f s) = order s) -> j <> k ->
  stage_completed j (update_first k f plan) = stage_completed j plan.
Proof.
  intros Hf Hne. unfold stage_completed.
  induction plan as [|s plan IH]; simpl; [reflexivity|].
  destruct (order s =? k) eqn:E; simpl.
  - apply Z.eqb_eq in E. rewrite Hf.
    assert (X : (order s =? j) = false) by (apply Z.eqb_neq; lia).
    now rewrite X.
  - now rewrite IH.
Qed.

Lemma update_first_orders (f : Step -> Step) (k : Z) (plan : list Step) :
  (forall s, order (f s) = order s) ->
  map order (update_first k f plan) = map order plan.
Proof.
  intros Hf. induction plan as [|s plan IH]; simpl; [reflexivity|].
  destruct (order s =? k); simpl; [now rewrite Hf | now rewrite IH].
Qed.

Lemma none_completed (plan : list Step) (j : Z) :
  (forall step, In step plan -> completed step = false) ->
  stage_completed j plan = false.
Proof.
  intros H. unfold stage_completed.
  destruct (existsb (fun step => (order step =? j) && completed step) plan)
    eqn:E; [|reflexivity].
  apply existsb_exists in E. destruct E as (s & Hin & E).
  apply andb_prop in E. destruct E as [_ E].
  rewrite (H s Hin) in E. discriminate.
Qed.

Lemma stage_completed_none (plan : list Step) (j : Z) (step : Step) :
  stage_completed j plan = false -> In step plan -> order step = j ->
  completed step = false.
Proof.
  unfold stage_completed. intros H Hin Ho.
  destruct (completed step) eqn:C; [|reflexivity].
  assert (X : existsb (fun s => (order s =? j) && completed s) plan = true).
  { apply existsb_exists. exists step. split; [exact Hin|].
    rewrite C, Ho, Z.eqb_refl. reflexivity. }
  rewrite X in H. discriminate.
Qed.

Lemma has_step_in (plan : list Step) (step : Step) :
  In step plan -> has_step (order step) plan = true.
Proof.
  intros H. unfold has_step. apply existsb_exists.
  exists step. split; [exact H | apply Z.eqb_refl].
Qed.

(** In a plan whose steps have orders of their own, the completed order is
    the completed step. *)
Lemma stage_completed_all (plan : list Step) (j : Z) (step : Step) :
  NoDup (map order plan) -> stage_completed j plan = true ->
  In step plan -> order step = j -> completed step = true.
Proof.
  unfold stage_completed. intros Hn H Hin Ho.
  apply existsb_exists in H. destruct H as (s & Hs & E).
  apply andb_prop in E. destruct E as [E C]. apply Z.eqb_eq in E.
  assert (X : s = step); [|now subst s].
  clear C. induction plan as [|x plan IH]; [contradiction|].
  simpl in Hn. apply NoDup_cons_iff in Hn. destruct Hn as [Hx Hn].
  destruct Hs as [->|Hs], Hin as [->|Hin]; try reflexivity.
  - exfalso. apply Hx. rewrite E, <- Ho. now apply in_map.
  - exfalso. apply Hx. rewrite Ho, <- E. now apply in_map.
  - now apply IH.
Qed.

(** The plan in which the router runs. *)
Lemma checked_steps (st : StepState) :
  steps (checked st) = steps st
  \/ steps (checked st) = update_first 1 set_completed (steps st).
Proof.
  unfold checked, check_if_skip_any_step_node.
  destruct (skip_define_objective_step st); [now right | now left].
Qed.

Lemma checked_orders (st : StepState) :
  map order (steps (checked st)) = map order (steps st).
Proof.
  destruct (checked_steps st) as [->| ->]; [reflexivity|].
  now apply update_first_orders.
Qed.

(** The router names a stage or the end. *)
Lemma stage_router_is_stage (st : StepState) :
  stage_router st <> check_if_skip_any_step.
Proof.
  rewrite stage_router_current.
  destruct (get_current_step (steps st)) as [cur|]; [|discriminate].
  unfold stage_of_order.
  repeat match goal with
         | |- (if ?b then _ else _) <> _ => destruct b; try discriminate
         end.
Qed.

(** What the router promises of the stage it names. *)
Lemma router_smaller_completed (st : StepState) (step : Step) :
  stage_router st <> END -> In step (steps st) ->
  order step < stage_number (stage_router st) -> completed step = true.
Proof.
  rewrite stage_router_current.
  destruct (get_current_step (steps st)) as [cur|] eqn:E;
    [|intros H; now contradict H].
  intros Hn Hin Hlt.
  rewrite (stage_of_order_number _ Hn) in Hlt.
  destruct (get_current_step_some _ _ E) as (_ & _ & Hmin).
  destruct (completed step) eqn:C; [reflexivity|].
  specialize (Hmin step Hin C). lia.
Qed.

Lemma router_ordered (st : StepState) :
  (forall step, In step (steps st) -> completed step = false) ->
  stage_router (checked st) <> END ->
  ordered true (stage_number (stage_router (checked st)))
    (steps (checked st)).
Proof.
  intros Hall Hr. split.
  - intros j _ Hj. destruct (checked_steps st) as [->| ->].
    + now apply none_completed.
    + rewrite stage_completed_update_other; try reflexivity; [|lia].
      now apply none_completed.
  - intros j Hj _ Hs. unfold has_step in Hs.
    apply existsb_exists in Hs. destruct Hs as (s & Hin & E).
    apply Z.eqb_eq in E. unfold stage_completed. apply existsb_exists.
    exists s. split; [exact Hin|].
    rewrite E, Z.eqb_refl. simpl.
    apply (router_smaller_completed (checked st) s Hr Hin). lia.
Qed.

(** A stage of order 2, 3 or 4 that ends hands over the plan with its own
    step marked. *)
Lemma run_stage_marks (w : World) (sg : Stage) (os : list Outside)
    (st st' : StepState) :
  In sg stages ->
  stage_completed (stage_order sg) (steps st) = false ->
  run_stage w sg os st = Some st' ->
  exists r,
    steps st'
    = update_first (stage_order sg) (set_completed_report r) (steps st).
Proof.
  intros Hsg Hc R. unfold run_stage in R.
  destruct (run w sg os
              {| state := leave st; active := [init_e2b_sandbox] |})
    as [c|] eqn:E; [|discriminate].
  destruct (finished c) eqn:F; [|discriminate]. injection R as <-.
  pose proof (stages_wired sg Hsg) as Hw.
  assert (Hi : invariant sg
                 {| state := leave st; active := [init_e2b_sandbox] |}).
  { apply (reachable_invariant w sg _ Hw). apply reachable_start.
    - repeat split; reflexivity.
    - exact Hc. }
  destruct (stage_run_marks w sg os _ c Hw Hi E) as [r A].
  - discriminate.
  - unfold finished in F. now destruct (active c).
  - exists r. exact A.
Qed.

Lemma ordered_after_stage (full : bool) (k : Z) (r : string)
    (plan : list Step) :
  2 <= k -> ordered full k plan ->
  ordered full (k + 1) (update_first k (set_completed_report r) plan).
Proof.
  intros Hk [P D]. split.
  - intros j Hj H2.
    rewrite stage_completed_update_other; try reflexivity; [|lia].
    apply P; lia.
  - intros j Hj H1 Hs. rewrite update_first_has_step in Hs.
    destruct (Z.eq_dec j k) as [->|Hne].
    + now apply update_first_marks.
    + rewrite stage_completed_update_other; try reflexivity; [|exact Hne].
      apply D; auto. lia.
Qed.

(** What a stage hands over to the stage that follows it. *)
Lemma run_subgraph_ordered (w : World) (a : Answers) (full : bool)
    (n : node) (st st' : StepState) :
  is_stage n -> n <> step_5_write_report ->
  (full = true -> 2 <= stage_number n \/ optional_field_required w = true) ->
  ordered full (stage_number n) (steps st) ->
  run_subgraph w a n st = Some st' ->
  ordered full (stage_number n + 1) (steps st')
  /\ map order (steps st') = map order (steps st).
Proof.
  intros [N1 N2] N5 Hf Ho H.
  assert (Stage : forall sg os,
             In sg stages -> stage_order sg = stage_number n ->
             2 <= stage_number n ->
             run_stage w sg os st = Some st' ->
             ordered full (stage_number n + 1) (steps st')
             /\ map order (steps st') = map order (steps st)).
  { intros sg os Hsg Hk H2 R.
    destruct (run_stage_marks w sg os st st' Hsg) as [r A]; [|exact R|].
    - rewrite Hk. apply (proj1 Ho); lia.
    - rewrite A, Hk. split.
      + now apply ordered_after_stage.
      + now apply update_first_orders. }
  destruct n; try (now contradict N1); try (now contradict N2);
    try (now contradict N5); simpl in H.
  - destruct (step_1_state_accepted w (leave st)) eqn:Acc; [|discriminate].
    destruct (Step1.run (answers_1 a)
                (leave st, Some Step1.init_message_history))
      as [s1 [m|]] eqn:E; [discriminate|].
    injection H as <-.
    pose proof (step1_run_steps (answers_1 a)
                  (leave st, Some Step1.init_message_history)) as X.
    rewrite E in X. simpl in X |- *. rewrite X.
    split; [|reflexivity].
    destruct Ho as [P D]. split.
    + intros j Hj H2. apply P; simpl; lia.
    + intros j Hj H1 Hs. simpl in Hj.
      destruct (Z.eq_dec j 1) as [->|Hne].
      * exfalso. specialize (H1 eq_refl).
        destruct (Hf H1) as [B|B]; [simpl in B; lia|].
        unfold step_1_state_accepted in Acc. simpl in Acc.
        rewrite B in Acc. discriminate.
      * apply D; auto. simpl. lia.
  - apply (Stage Steps.step_2_data_cleaning (answers_2 a)); simpl; auto; lia.
  - apply (Stage Steps.step_3_data_exploration (answers_3 a)); simpl; auto;
      lia.
  - apply (Stage Steps.step_4_data_analysis (answers_4 a)); simpl; auto; lia.
Qed.

Lemma begun_ordered (w : World) (a : Answers) (full : bool)
    (ns : list node) :
  forall k st,
    consecutive k ns ->
    (full = true -> 2 <= k \/ optional_field_required w = true) ->
    ordered full k (steps st) ->
    forall n st', In (n, st') (begun w a ns st) ->
                  ordered full (stage_number n) (steps st')
                  /\ map order (steps st') = map order (steps st).
Proof.
  induction ns as [|m ns IH]; intros k st Hc Hf Ho n st' Hin;
    simpl in *; [contradiction|].
  destruct Hc as (Hs & Hk & Hrest).
  destruct Hin as [E|Hin].
  - injection E as <- <-. rewrite Hk. now split.
  - destruct (run_subgraph w a m st) as [st1|] eqn:R; [|contradiction].
    destruct ns as [|m' ns']; [contradiction|].
    assert (N5 : m <> step_5_write_report).
    { intros ->. simpl in Hk. destruct Hrest as (_ & Hk' & _).
      destruct m'; simpl in Hk'; lia. }
    assert (K1 : 1 <= k) by (destruct Hs as [A B]; destruct m;
                             simpl in Hk; try lia; now contradict A).
    destruct (run_subgraph_ordered w a full m st st1 Hs N5) as [O1 M1];
      try exact R; try (now rewrite Hk).
    destruct (IH (k + 1) st1 Hrest) with (n := n) (st' := st') as [O2 M2].
    + intros _. left. lia.
    + now rewrite <- Hk.
    + exact Hin.
    + split; [exact O2 | now rewrite M2].
Qed.

(** Every stage that begins in a run, with the plan it finds. *)
Lemma orchestrate_ordered (w : World) (a : Answers) (full : bool)
    (st : StepState) (n : node) (st' : StepState) :
  (forall step, In step (steps st) -> completed step = false) ->
  (full = true ->
   optional_field_required w = true
   \/ stage_router (checked st) <> step_1_define_objective) ->
  In (n, st') (orchestrate w a st) ->
  ordered full (stage_number n) (steps st')
  /\ map order (steps st') = map order (steps st).
Proof.
  intros Hall Hf Hin. unfold orchestrate in Hin. fold (checked st) in Hin.
  assert (Hr : stage_router (checked st) <> END).
  { intros E. rewrite E in Hin. destruct Hin. }
  pose proof (router_ordered st Hall Hr) as O.
  assert (O' : ordered full (stage_number (stage_router (checked st)))
                 (steps (checked st)))
    by (destruct full; [exact O | exact (ordered_weaken _ _ _ O)]).
  destruct (begun_ordered w a full _ _ (checked st)
              (pipeline_consecutive (stage_router (checked st)))) 
    with (n := n) (st' := st') as [A B]; try assumption.
  - intros F. destruct (Hf F) as [S|S]; [now right|]. left.
    destruct (stage_router (checked st)) eqn:E; simpl; try lia;
      try (now contradict S); try (now contradict Hr).
  - split; [exact A|]. rewrite B. apply checked_orders.
Qed.

(** When the first stage is not the one the router names, or cannot start,
    every stage that begins finds every step of smaller order completed. *)
Lemma ordering_holds (w : World) (a : Answers) (st : StepState) :
  (forall s, In s (steps st) -> completed s = false) ->
  NoDup (map order (steps st)) ->
  optional_field_required w = true
  \/ stage_router (checked st) <> step_1_define_objective ->
  begins_in_order (orchestrate w a st).
Proof.
  intros Hall Hn Hw n st' step Hin Hs Hlt.
  destruct (orchestrate_ordered w a true st n st' Hall) as [[_ D] M];
    [intros _; exact Hw | exact Hin |].
  apply (stage_completed_all (steps st') (order step)); auto.
  - now rewrite M.
  - apply D; auto. now apply has_step_in.
Qed.

(** The plan of the program: no step completed, five orders. *)
Lemma default_plan_fresh :
  (forall s, In s get_default_steps -> completed s = false)
  /\ NoDup (map order get_default_steps).
Proof.
  split.
  - intros s H. simpl in H.
    destruct H as [<-|[<-|[<-|[<-|[<-|[]]]]]]; reflexivity.
  - simpl. repeat constructor; simpl; intuition discriminate.
Qed.

(** The router is written for plans of any orders: on a current step whose
    order no stage has, it takes its last branch and names the end. The
    plan of the program, [get_default_steps], has the orders 1 to 5 only. *)
Lemma router_ends_on_unknown_order (st : StepState) (cur : Step) :
  get_current_step (steps st) = Some cur ->
  ~ 1 <= order cur <= 5 -> stage_router st = END.
Proof.
  intros H N. rewrite stage_router_current, H. unfold stage_of_order.
  destruct (order cur =? 1) eqn:E1; [apply Z.eqb_eq in E1; lia|].
  destruct (order cur =? 2) eqn:E2; [apply Z.eqb_eq in E2; lia|].
  destruct (order cur =? 3) eqn:E3; [apply Z.eqb_eq in E3; lia|].
  destruct (order cur =? 4) eqn:E4; [apply Z.eqb_eq in E4; lia|].
  destruct (order cur =? 5) eqn:E5; [apply Z.eqb_eq in E5; lia|].
  reflexivity.
Qed.

(** C8. [get_current_step] gives the step that is not completed and has
    the least order, and none exactly when all are completed. The router
    names the stage of that step, for the orders 1 to 5 of the plan, and
    the end when no step is left; the stage it names finds every step of
    smaller order completed. The router runs once, after
    [check_if_skip_any_step]; from the stage it names on, the stages begin
    one after the other along the edges, each when the one before it has
    ended. On a plan that starts with no step completed and whose orders
    differ, as the plan of the program does, every stage that begins finds
    completed every step of smaller order other than 1, since the stages 2,
    3 and 4 end by marking their step. It finds the step of order 1
    completed as well, so that no stage begins before the steps below it
    are completed, when the first stage is not the one the router names, or
    when the state class of the first stage refuses the state it is given
    (its [checklist_validation_result] has no default, which pydantic 2
    requires): then the first stage is the only one that begins. So it is
    on every run of the program, which starts from [get_default_steps],
    under that reading of the library or when the first stage is skipped.
    The first stage itself never marks its step: on a run that does not
    skip it, no stage begins with the step of order 1 completed. *)
Theorem stage_router_names_first_incomplete :
  (forall plan,
     get_current_step plan = None
     <-> forall step, In step plan -> completed step = true)
  /\ (forall plan cur,
        get_current_step plan = Some cur ->
        In cur plan /\ completed cur = false
        /\ forall step, In step plan -> completed step = false ->
                        order cur <= order step)
  /\ (forall st,
        match get_current_step (steps st) with
        | None => stage_router st = END
        | Some cur =>
            1 <= order cur <= 5 ->
            stage_router st <> END
            /\ stage_number (stage_router st) = order cur
        end)
  /\ (forall st step,
        stage_router st <> END -> In step (steps st) ->
        order step < stage_number (stage_router st) ->
        completed step = true)
  /\ (forall w a st,
        follows_edges (map fst (orchestrate w a st))
        /\ match orchestrate w a st with
           | [] => stage_router (checked st) = END
           | (n, st') :: _ =>
               n = stage_router (checked st) /\ st' = checked st
           end)
  /\ (forall w a st n st' step,
        (forall s, In s (steps st) -> completed s = false) ->
        NoDup (map order (steps st)) ->
        In (n, st') (orchestrate w a st) ->
        In step (steps st') -> order step < stage_number n ->
        order step <> 1 ->
        completed step = true)
  /\ (forall w a st,
        (forall s, In s (steps st) -> completed s = false) ->
        NoDup (map order (steps st)) ->
        optional_field_required w = true
        \/ stage_router (checked st) <> step_1_define_objective ->
        begins_in_order (orchestrate w a st))
  /\ (forall w a st,
        optional_field_required w = true ->
        stage_router (checked st) = step_1_define_objective ->
        orchestrate w a st = [(step_1_define_objective, checked st)])
  /\ (forall w a objective0 variables0 skip hitl,
        optional_field_required w = true \/ skip = true ->
        begins_in_order
          (orchestrate w a
             (Steps.enter objective0 variables0 skip hitl ""
                get_default_steps "")))
  /\ (forall w a st n st' step,
        (forall s, In s (steps st) -> completed s = false) ->
        skip_define_objective_step st = false ->
        In (n, st') (orchestrate w a st) ->
        In step (steps st') -> order step = 1 ->
        completed step = false).
Proof.
  split; [exact get_current_step_none|].
  split; [exact get_current_step_some|].
  split.
  { intros st. rewrite stage_router_current.
    destruct (get_current_step (steps st)) as [cur|]; [|reflexivity].
    unfold stage_of_order. intros H.
    destruct (order cur =? 1) eqn:E1;
      [apply Z.eqb_eq in E1; split; [discriminate | now rewrite E1]|].
    destruct (order cur =? 2) eqn:E2;
      [apply Z.eqb_eq in E2; split; [discriminate | now rewrite E2]|].
    destruct (order cur =? 3) eqn:E3;
      [apply Z.eqb_eq in E3; split; [discriminate | now rewrite E3]|].
    destruct (order cur =? 4) eqn:E4;
      [apply Z.eqb_eq in E4; split; [discriminate | now rewrite E4]|].
    destruct (order cur =? 5) eqn:E5;
      [apply Z.eqb_eq in E5; split; [discriminate | now rewrite E5]|].
    apply Z.eqb_neq in E1, E2, E3, E4, E5. lia. }
  split; [intros st step; apply router_smaller_completed|].
  split.
  { intros w a st. unfold orchestrate. fold (checked st). split.
    - destruct (begun_prefix w a (pipeline_from (stage_router (checked st)))
                  (checked st)) as [rest E].
      apply (follows_edges_prefix _ rest). rewrite <- E.
      apply pipeline_follows_edges.
    - pose proof (stage_router_is_stage (checked st)) as X.
      destruct (stage_router (checked st)); simpl; auto.
      now contradict X. }
  split.
  { intros w a st n st' step Hall Hn Hin Hs Hlt H1.
    destruct (orchestrate_ordered w a false st n st' Hall) as [[_ D] M];
      [discriminate | exact Hin |].
    apply (stage_completed_all (steps st') (order step)); auto.
    - now rewrite M.
    - apply D; auto. now apply has_step_in. }
  split; [exact ordering_holds|].
  split.
  { intros w a st Hw Hr. unfold orchestrate. fold (checked st).
    rewrite Hr. simpl. unfold step_1_state_accepted. simpl.
    now rewrite Hw. }
  split.
  { intros w a objective0 variables0 skip hitl H.
    destruct default_plan_fresh as [A N].
    apply ordering_holds; try assumption.
    destruct H as [H| ->]; [now left | right; discriminate]. }
  intros w a st n st' step Hall Hskip Hin Hs Ho.
  unfold orchestrate, check_if_skip_any_step_node in Hin.
  rewrite Hskip in Hin. simpl apply_update in Hin.
  assert (P : pending_from (stage_number (stage_router st)) (steps st))
    by (intros j _; now apply none_completed).
  pose proof (begun_pending w a _ _ st
                (pipeline_consecutive (stage_router st)) P n st' Hin) as Q.
  apply (stage_completed_none (steps st') 1); auto.
Qed.

(** The input of a run that skips the first stage. *)
Definition skipping_input : StepState :=
  Steps.enter "objective" [] true false "" get_default_steps "".

(** The model answers DONE at once in every stage, and the validators are
    content. *)
Definition every_stage_validated : Answers :=
  {| answers_1 := [request_accepted; request_accepted];
     answers_2 := repeat CompletionFacts.finishing 7;
     answers_3 := repeat CompletionFacts.finishing 7;
     answers_4 := repeat CompletionFacts.finishing 7;
     answer_5 := "report" |}.

Lemma stage_router_names_first_incomplete_witness :
  begins_in_order (orchestrate plain_world every_stage_validated fresh_input)
  /\ begins_in_order
       (orchestrate lenient_world every_stage_validated skipping_input).
Proof.
  destruct stage_router_names_first_incomplete
    as (_ & _ & _ & _ & _ & _ & _ & _ & Program & _).
  split.
  - apply (Program plain_world every_stage_validated "objective" []
             false false).
    left. reflexivity.
  - apply (Program lenient_world every_stage_validated "objective" []
             true false).
    right. reflexivity.
Defined.

End OrderFacts.
